(** * McPUFF: perturbation, scheduling, yield reduction and persistence

    A shallow embedding of the parts of [McPUFF_program.py],
    [McPUFF_Perturbed_Data.py], [GEF_input.py] and [TALYS_Input.py] that
    decide the properties stated about them, with the proofs of those
    properties.

    Conventions of the embedding.
    - The mass and charge columns of a GEF event are integer valued; they
      are modelled in [Z].  Every other floating point number is modelled
      by the rational it denotes and arithmetic on them is exact.
    - [numpy.sqrt] has no rational counterpart: the square root used by
      [numpy.std] is a parameter of the development ([np_sqrt]).
    - Random generators are explicit arguments: a generator is the stream
      of its unit-interval draws and of its standard normal draws.
    - A Python function that can raise or call [sys.exit] returns an
      [outcome].
    - A function that changes the file system returns the folder it
      leaves, or the log of its calls; what it asks the file system
      ([os.path.isdir], [os.scandir], ...) is an argument.  The formats
      of a float ([str], [{:.2e}], [{:.4e}]) are parameters. *)

From Stdlib Require Import List ZArith QArith Qabs Qround Lia Lqa Bool.
From Stdlib Require Import String Ascii DecimalString Permutation Arith PeanoNat.
From Stdlib Require Import Sorted DecimalNat DecimalZ.
Import ListNotations.

Local Open Scope Z_scope.

(* ------------------------------------------------------------------ *)
(** ** Outcomes of Python calls *)

Inductive error : Type :=
  | ValueError          (* numpy: shapes cannot be broadcast            *)
  | UnboundLocalError   (* [del] of a local that was never bound        *)
  | KeyError            (* missing dictionary key                       *)
  | SystemExit.         (* [sys.exit]                                   *)

Inductive outcome (A : Type) : Type :=
  | Returns (a : A)
  | Raises (e : error).

Arguments Returns {A} a.
Arguments Raises {A} e.

Definition bind {A B : Type} (m : outcome A) (k : A -> outcome B) : outcome B :=
  match m with
  | Returns a => k a
  | Raises e => Raises e
  end.

Notation "x <- m ;; k" := (bind m (fun x => k))
  (at level 61, m at next level, right associativity).

(** [for x in l: ...] where the body may raise: the first failure wins. *)
Fixpoint mapM {A B : Type} (f : A -> outcome B) (l : list A) : outcome (list B) :=
  match l with
  | [] => Returns []
  | x :: t => y <- f x ;; ys <- mapM f t ;; Returns (y :: ys)
  end.

(* ------------------------------------------------------------------ *)
(** ** The numpy operations used by the yield reducer *)

(** [numpy.where(mask)[0]] and [numpy.nonzero(mask)[0]]: the positions at
    which the mask holds, in increasing order. *)
Fixpoint np_where {A : Type} (p : A -> bool) (l : list A) : list nat :=
  match l with
  | [] => []
  | x :: t =>
      let rest := map S (np_where p t) in
      if p x then O :: rest else rest
  end.

(** Positions of the tail of a table, from positions of the whole table. *)
Definition shift_down (idx : list nat) : list nat :=
  map Nat.pred (filter (fun i => negb (Nat.eqb i 0)) idx).

(** [numpy.delete(a, idx, axis=0)]: the rows whose position is not in [idx]. *)
Fixpoint np_delete {A : Type} (l : list A) (idx : list nat) : list A :=
  match l with
  | [] => []
  | x :: t =>
      let rest := np_delete t (shift_down idx) in
      if existsb (Nat.eqb 0) idx then rest else x :: rest
  end.

(** [a[idx]] for an index array [idx]. *)
Definition take {A : Type} (d : A) (l : list A) (idx : list nat) : list A :=
  map (fun i => nth i l d) idx.

(** In-place update of one row: [a[r] = f(a[r])]. *)
Fixpoint update_row {A : Type} (r : nat) (f : A -> A) (l : list A) : list A :=
  match l, r with
  | [], _ => []
  | x :: t, O => f x :: t
  | x :: t, S r' => x :: update_row r' f t
  end.

Definition Qsum (l : list Q) : Q := fold_right Qplus 0%Q l.

Definition Qnat (n : nat) : Q := inject_Z (Z.of_nat n).

(** [numpy.mean(a, dtype=float64)]. *)
Definition np_mean (l : list Q) : Q := (Qsum l / Qnat (List.length l))%Q.

Section Sqrt.

(** The square root of [numpy.std]. *)
Variable np_sqrt : Q -> Q.

(** [numpy.std(a, dtype=float64, ddof=1)]. *)
Definition np_std (l : list Q) : Q :=
  let m := np_mean l in
  np_sqrt (Qsum (map (fun x => (x - m) * (x - m)) l)
           / inject_Z (Z.of_nat (List.length l) - 1))%Q.

End Sqrt.

(* ------------------------------------------------------------------ *)
(** ** Rows of the unique-key computation *)

(** Columns 0..3 of an event: Z1, A1, Z2, A2. *)
Definition key : Type := (Z * Z * Z * Z)%type.

Definition key_eqb (a b : key) : bool :=
  let '(a0, a1, a2, a3) := a in
  let '(b0, b1, b2, b3) := b in
  (a0 =? b0) && (a1 =? b1) && (a2 =? b2) && (a3 =? b3).

(** Lexicographic order on rows, the order of [numpy.unique(axis=0)]. *)
Definition key_leb (a b : key) : bool :=
  let '(a0, a1, a2, a3) := a in
  let '(b0, b1, b2, b3) := b in
  if a0 <? b0 then true else if b0 <? a0 then false else
  if a1 <? b1 then true else if b1 <? a1 then false else
  if a2 <? b2 then true else if b2 <? a2 then false else
  a3 <=? b3.

Definition zero_key : key := (0, 0, 0, 0).

Definition key_eq_dec (a b : key) : {a = b} + {a <> b}.
Proof. repeat decide equality. Defined.

Fixpoint insert_row (k : key) (l : list key) : list key :=
  match l with
  | [] => [k]
  | h :: t => if key_leb k h then k :: l else h :: insert_row k t
  end.

Definition sort_rows (l : list key) : list key := fold_right insert_row [] l.

(** Position of the first occurrence of [k]. *)
Fixpoint first_index (k : key) (l : list key) : nat :=
  match l with
  | [] => O
  | h :: t => if key_eqb k h then O else S (first_index k t)
  end.

Definition count_rows (k : key) (l : list key) : nat :=
  List.length (filter (key_eqb k) l).

(** [numpy.unique(a, return_index=True, return_counts=True, axis=0)]:
    the sorted distinct rows, for each the position of its first occurrence
    and the number of its occurrences. *)
Definition np_unique (rows : list key) : list key * list nat * list nat :=
  let u := sort_rows (nodup key_eq_dec rows) in
  (u, map (fun k => first_index k rows) u, map (fun k => count_rows k rows) u).

(* ------------------------------------------------------------------ *)
(** ** The yield reducer: [Reaction.GEF_FY_for_TALYS] *)

(** One row of the raw table [FY].  Columns 7..10 exist only in the
    11-column (lmd+) layout; in the 7-column layout nothing reads them. *)
Record event : Type := mkEvent {
  Z1 : Z;          (* FY[:,0]  *)
  A1sci : Z;       (* FY[:,1]  *)
  Z2 : Z;          (* FY[:,2]  *)
  A2sci : Z;       (* FY[:,3]  *)
  TKEpre : Q;      (* FY[:,4]  *)
  Eexc1 : Q;       (* FY[:,5]  *)
  Eexc2 : Q;       (* FY[:,6]  *)
  En_light : Q;    (* FY[:,7]  *)
  En_heavy : Q;    (* FY[:,8]  *)
  Eg_light : Q;    (* FY[:,9]  *)
  Eg_heavy : Q     (* FY[:,10] *)
}.

Definition zero_event : event := mkEvent 0 0 0 0 0 0 0 0 0 0 0.

Definition key_of (e : event) : key := (Z1 e, A1sci e, Z2 e, A2sci e).

(** One row of [FY_TALYS]: columns 0..10, and columns 11..18 in [ff_plus]
    when the table is 19 columns wide. *)
Record ff_row : Type := mkRow {
  ff_Z1 : Z; ff_A1 : Z; ff_Z2 : Z; ff_A2 : Z;
  ff_yield : Q;
  ff_TKE : Q; ff_TXE : Q;
  ff_Eexc1 : Q; ff_W1 : Q;
  ff_Eexc2 : Q; ff_W2 : Q;
  ff_plus : list Q
}.

(** A row of [numpy.zeros]. *)
Definition zero_row (plus : nat) : ff_row :=
  mkRow 0 0 0 0 0 0 0 0 0 0 0 (repeat 0%Q plus).

(** The tuple assignment of the canonicalisation loop:
    [FY[r,0],FY[r,2],FY[r,1],FY[r,3] = FY[r,2],FY[r,0],FY[r,3],FY[r,1]]. *)
Definition swap_light_heavy (e : event) : event :=
  {| Z1 := Z2 e; A1sci := A2sci e; Z2 := Z1 e; A2sci := A1sci e;
     TKEpre := TKEpre e; Eexc1 := Eexc1 e; Eexc2 := Eexc2 e;
     En_light := En_light e; En_heavy := En_heavy e;
     Eg_light := Eg_light e; Eg_heavy := Eg_heavy e |}.

(** "DELETE MULTI-CHANCE FISSION EVENTS". *)
Definition delete_multichance (FY : list event) (A_compound : Z) : list event :=
  let index_Multichance_fission :=
    np_where (fun e => negb (A1sci e + A2sci e =? A_compound)) FY in
  if (0 <? List.length index_Multichance_fission)%nat
  then np_delete FY index_Multichance_fission
  else FY.

(** "SWAP PLACES OF ELEMENTS IF AL > AH". *)
Definition swap_Al_larger_than_Ah (FY : list event) : list event :=
  let index_Al_larger_than_Ah := np_where (fun e => A1sci e >? A2sci e) FY in
  if (0 <? List.length index_Al_larger_than_Ah)%nat
  then fold_left (fun t row_number => update_row row_number swap_light_heavy t)
                 index_Al_larger_than_Ah FY
  else FY.

Section Reducer.

Variable np_sqrt : Q -> Q.

(** Columns 5..10 (and 11..18) of the summary row of the unique row [row],
    from the events [FY[ind]] that carry it; [c4] is the yield. *)
Definition summary_row (columns : nat) (picked : event) (c4 : Q)
    (sel : list event) : ff_row :=
  {| ff_Z1 := Z1 picked; ff_A1 := A1sci picked;
     ff_Z2 := Z2 picked; ff_A2 := A2sci picked;
     ff_yield := c4;
     ff_TKE := np_mean (map TKEpre sel);
     ff_TXE := np_mean (map (fun e => Eexc1 e + Eexc2 e)%Q sel);
     ff_Eexc1 := np_mean (map Eexc1 sel);
     ff_W1 := np_std np_sqrt (map Eexc1 sel);
     ff_Eexc2 := np_mean (map Eexc2 sel);
     ff_W2 := np_std np_sqrt (map Eexc2 sel);
     ff_plus :=
       if (columns =? 7)%nat then []
       else if (columns =? 11)%nat then
         [ np_mean (map En_light sel); np_std np_sqrt (map En_light sel);
           np_mean (map En_heavy sel); np_std np_sqrt (map En_heavy sel);
           np_mean (map Eg_light sel); np_std np_sqrt (map Eg_light sel);
           np_mean (map Eg_heavy sel); np_std np_sqrt (map Eg_heavy sel) ]
       else repeat 0%Q 8 |}.

(** The sections "REMOVE EVENTS THAT ONLY OCCUR ONCE" and "POPULATE" of
    [GEF_FY_for_TALYS], on the table [FY] the first two sections leave. *)
Definition populate_FY_TALYS (columns : nat) (FY_TALYS : list ff_row)
    (FY : list event) : outcome (list ff_row * nat) :=
  let '(unique_yields, index_unique, unique_counts) :=
    np_unique (map key_of FY) in
  let index_event_occur_more_than_once :=
    np_where (fun c => (1 <? c)%nat) unique_counts in
  let index_to_pick := take O index_unique index_event_occur_more_than_once in
  (* FY_TALYS[slice(len(index_to_pick)),0] = FY[index_to_pick,0] *)
  if (300 <? List.length index_to_pick)%nat then Raises ValueError else
  let picked := take zero_event FY index_to_pick in
  let ignored_events :=
    List.length (filter (fun c => (c =? 1)%nat) unique_counts) in
  let yields :=
    map (fun c => Qnat c
                  / inject_Z (Z.of_nat (List.length FY) - Z.of_nat ignored_events))%Q
        (take O unique_counts index_event_occur_more_than_once) in
  let selected :=
    map (fun row =>
           let ind := np_where (fun e => key_eqb row (key_of e)) FY in
           take zero_event FY ind)
        (take zero_key unique_yields index_event_occur_more_than_once) in
  let rows :=
    map (fun '(p, y, sel) => summary_row columns p y sel)
        (combine (combine picked yields) selected) in
  (* del ...,k,row,ind,columns: the loop variables exist only if the loop ran *)
  if (List.length selected =? 0)%nat then Raises UnboundLocalError else
  Returns (rows ++ skipn (List.length rows) FY_TALYS, ignored_events).

(** [Reaction.GEF_FY_for_TALYS(FY, A_compound, num_of_events)]; [columns]
    is [numpy.shape(FY)[1]]. *)
Definition GEF_FY_for_TALYS (columns : nat) (FY : list event) (A_compound : Z)
    (num_of_events : nat) : outcome (list ff_row * nat) :=
  let plus := if (columns =? 7)%nat then 0%nat else 8%nat in
  let FY_TALYS := repeat (zero_row plus) 300 in
  let FY := delete_multichance FY A_compound in
  let FY := swap_Al_larger_than_Ah FY in
  populate_FY_TALYS columns FY_TALYS FY.

End Reducer.

(* ------------------------------------------------------------------ *)
(** ** The quantities of the reducer, by name *)

(** The test of the multi-chance filter, on the columns as recorded. *)
Definition mass_consistent (A_compound : Z) (e : event) : bool :=
  A1sci e + A2sci e =? A_compound.

(** The events the multi-chance filter leaves, as recorded. *)
Definition surviving (FY : list event) (A_compound : Z) : list event :=
  filter (mass_consistent A_compound) FY.

(** An event after the canonicalisation loop. *)
Definition canonical (e : event) : event :=
  if A1sci e >? A2sci e then swap_light_heavy e else e.

(** The fragment split an event counts for. *)
Definition split_of (e : event) : key := key_of (canonical e).

(** The surviving events, as recorded, that count for the split [k]. *)
Definition events_of_split (FY : list event) (A_compound : Z) (k : key)
    : list event :=
  filter (fun e => key_eqb k (split_of e)) (surviving FY A_compound).

Definition occurrence_count (FY : list event) (A_compound : Z) (k : key) : nat :=
  List.length (events_of_split FY A_compound k).

Definition unique_splits (FY : list event) (A_compound : Z) : list key :=
  sort_rows (nodup key_eq_dec (map split_of (surviving FY A_compound))).

(** The splits that occur more than once, in the order of the summary. *)
Definition retained_splits (FY : list event) (A_compound : Z) : list key :=
  filter (fun k => (1 <? occurrence_count FY A_compound k)%nat)
         (unique_splits FY A_compound).

(** The number of splits that occur exactly once. *)
Definition singleton_count (FY : list event) (A_compound : Z) : nat :=
  List.length (filter (fun k => (occurrence_count FY A_compound k =? 1)%nat)
                      (unique_splits FY A_compound)).

Definition row_key (r : ff_row) : key := (ff_Z1 r, ff_A1 r, ff_Z2 r, ff_A2 r).

(** The rows of a summary table that were written, given their number. *)
Definition written_rows (n : nat) (FY_TALYS : list ff_row) : list ff_row :=
  firstn n FY_TALYS.

(** The summary row of the split [k]. *)
Definition reduced_row (np_sqrt : Q -> Q) (columns : nat) (FY : list event)
    (A_compound : Z) (k : key) : ff_row :=
  summary_row np_sqrt columns
    (nth (first_index k (map split_of (surviving FY A_compound)))
         (map canonical (surviving FY A_compound)) zero_event)
    (Qnat (occurrence_count FY A_compound k)
     / inject_Z (Z.of_nat (List.length (surviving FY A_compound))
                 - Z.of_nat (singleton_count FY A_compound)))%Q
    (map canonical (events_of_split FY A_compound k)).

(** A square root to nine decimals, the instance of [np_sqrt] in the
    worked examples. *)
Definition sqrt_9 (q : Q) : Q :=
  Qmake (Z.sqrt (Qfloor (q * inject_Z (10 ^ 18)))) (10 ^ 9).

(** An event of the 7-column layout. *)
Definition lmd_event (z1 a1 z2 a2 : Z) (tke e1 e2 : Q) : event :=
  mkEvent z1 a1 z2 a2 tke e1 e2 0 0 0 0.

(** Two fissions of compound mass 236 into (40,100)+(52,136), and one
    multi-chance event whose fragment masses add up to 235. *)
Definition FY_with_multichance : list event :=
  [ lmd_event 40 100 52 136 170 10 20;
    lmd_event 40 100 52 136 172 12 22;
    lmd_event 40 100 52 135 171 11 21 ].

(** The same two fissions alone. *)
Definition FY_without_multichance : list event :=
  [ lmd_event 40 100 52 136 170 10 20;
    lmd_event 40 100 52 136 172 12 22 ].

(** Ten events of compound mass 236: three splits that occur 5, 4 and 1
    times. *)
Definition FY_ten_events : list event :=
  repeat (lmd_event 40 100 52 136 170 10 20) 5
  ++ repeat (lmd_event 38 96 54 140 168 11 19) 4
  ++ [ lmd_event 42 104 50 132 175 9 21 ].

(** [n] splits of compound mass 236 that differ in their charges, each
    occurring twice. *)
Definition FY_many_splits (n : nat) : list event :=
  flat_map (fun i => repeat (lmd_event (Z.of_nat i) 100 (92 - Z.of_nat i) 136
                               170 10 20) 2)
           (seq 0 n).

(** The same split recorded once light-first and once heavy-first. *)
Definition FY_swapped : list event :=
  [ lmd_event 40 100 52 136 170 10 20;
    lmd_event 52 136 40 100 172 22 12 ].

(* ------------------------------------------------------------------ *)
(** ** Random generators and Python floats *)

(** A [numpy] generator, as the stream of its draws from [0,1) and the
    stream of its standard normal draws. *)
Record rng : Type := mkRng {
  random : nat -> Q;
  standard_normal : nat -> Q
}.

(** [Generator.uniform(low, high, size)]. *)
Definition rng_uniform (g : rng) (low high : Q) (size : nat) : list Q :=
  map (fun i => low + (high - low) * random g i)%Q (seq 0 size).

(** [Generator.normal(loc, scale, size)]. *)
Definition rng_normal (g : rng) (loc scale : Q) (size : nat) : list Q :=
  map (fun i => loc + scale * standard_normal g i)%Q (seq 0 size).

(** A float is a number or the not-a-number of [0/0]. *)
Inductive pyfloat : Type :=
  | Num (q : Q)
  | NaN.

(** Rounding to the nearest integer, ties to the even one. *)
Definition round_half_even (q : Q) : Z :=
  let f := Qfloor q in
  match Qcompare (q - inject_Z f) (1 # 2) with
  | Lt => f
  | Gt => f + 1
  | Eq => if Z.even f then f else f + 1
  end.

(** [round(x, ndigits)]. *)
Definition py_round (x : Q) (ndigits : nat) : Q :=
  let scale := inject_Z (10 ^ Z.of_nat ndigits) in
  (inject_Z (round_half_even (x * scale)) / scale)%Q.

Definition round_float (x : pyfloat) (ndigits : nat) : pyfloat :=
  match x with
  | Num q => Num (py_round q ndigits)
  | NaN => NaN
  end.

(** Float division; [0/0] is not a number (the numerators of this program
    are zero whenever the denominator is). *)
Definition float_div (a b : Q) : pyfloat :=
  if Qeq_bool b 0 then NaN else Num (a / b).

Definition float_mul (a : pyfloat) (b : Q) : pyfloat :=
  match a with
  | Num q => Num (q * b)
  | NaN => NaN
  end.

(** The generator of the worked examples: every unit draw is 1/2, every
    normal draw is 1. *)
Definition rng_example : rng := mkRng (fun _ => 1 # 2)%Q (fun _ => 1%Q).

(* ------------------------------------------------------------------ *)
(** ** [Gaussian_GEF_Param.gaussian_st_dev_for_parameter] *)

Local Open Scope string_scope.

(** The keys of the dictionary [st_dev_param]. *)
Definition st_dev_param_keys : list string :=
  [ "_Delta_S0"; "EOscale"; "_P_DZ_Mean_S1"; "_P_corr_S1"; "_P_DZ_Mean_S2";
    "_P_DZ_Mean_S3"; "_P_DZ_Mean_S4"; "ZC_Mode_4L"; "_P_Z_Curv_S1";
    "P_Z_Curvmod_S1"; "_P_Z_Curv_S2"; "_S2leftmod"; "P_Z_Curvmod_S2";
    "_P_A_Width_S2"; "_P_Z_Curv_S3"; "P_Z_Curvmod_S3"; "P_Z_Curv_SL4";
    "P_Z_Sigma_SL4"; "_P_Z_Curv_S4"; "P_Z_Curvmod_S4"; "_P_Shell_S1";
    "_P_Shell_S2"; "_P_Shell_S3"; "P_Shell_SL4"; "_P_Shell_S4"; "P_S4_mod";
    "_PZ_S3_olap_pos"; "_PZ_S3_olap_curv"; "ETHRESHSUPPS1"; "ESIGSUPPS1";
    "Level_S11"; "Shell_fading"; "_T_low_S1"; "_T_low_S2"; "_T_low_S3";
    "_T_low_S4"; "_T_low_SL"; "T_low_S11"; "_P_att_pol"; "P_att_pol2";
    "P_att_pol3"; "_P_att_rel"; "_dE_Defo_S1"; "_dE_Defo_S2"; "_dE_Defo_S3";
    "_dE_Defo_S4"; "_betaL0"; "_betaL1"; "_betaH0"; "_betaH1"; "_dbeta_S3";
    "kappa"; "TCOLLFRAC"; "_ECOLLFRAC"; "TFCOLL"; "TCOLLMIN";
    "ESHIFTSASCI_intr"; "ESHIFTSASCI_coll"; "_EDISSFRAC"; "Epot_shift";
    "SIGDEFO"; "SIGDEFO_0"; "SIGDEFO_slope"; "SIGENECK"; "EexcSIGrel";
    "DNECK"; "FTRUNC50"; "ZTRUNC50"; "FTRUNC28"; "ZTRUNC28"; "ZMAX_S2";
    "NTRANSFEREO"; "NTRANSFERE"; "Csort"; "PZ_EO_symm"; "PN_EO_Symm";
    "R_EO_THRESH"; "R_EO_SIGMA"; "R_EO_Max"; "_POLARadd"; "POLARfac";
    "T_POL_RED"; "_HOMPOL"; "ZPOL1"; "P_n_x"; "Tscale"; "Econd"; "Etrans";
    "T_orbital"; "_Jscaling"; "Spin_odd"; "Esort_extend"; "Esort_slope";
    "Esort_slope_S0" ].

Definition perturbation_in_percent : Q := 3 # 100.

Definition mem (x : string) (l : list string) : bool :=
  existsb (String.eqb x) l.

(** [st_dev_param[parameter_name]]: every entry is
    [parameter_value*perturbation_in_percent]. *)
Definition gaussian_st_dev_for_parameter (parameter_name : string)
    (param_val : Q) : outcome Q :=
  if mem parameter_name st_dev_param_keys
  then Returns (param_val * perturbation_in_percent)%Q
  else Raises KeyError.

(* ------------------------------------------------------------------ *)
(** ** The distribution sampler and the parameter perturber *)

(** [special_case_parameters]: the GEF parameters whose default is zero. *)
Definition special_case_parameters : list string :=
  [ "_Delta_S0"; "P_att_pol2"; "P_att_pol3"; "kappa"; "Epot_shift";
    "SIGDEFO_slope"; "ZPOL1"; "P_n_x"; "T_orbital" ].

(** [Modified_Parameter.create_perturbed_parameter_value]; [g] is the
    generator the special cases draw from.  [None] is Python's [None], the
    value of the call when the distribution name is not known. *)
Definition create_perturbed_parameter_value (g : rng) (param_name : string)
    (rand_num unpert_param_val : Q) (distribution_flag : string)
    : option pyfloat :=
  if distribution_flag =? "uniform" then
    if mem param_name special_case_parameters then
      let scaling_special_case_parameters := (1 # 2)%Q in
      let special_case_rand_num := random g 0 in
      let pert_param_val :=
        (- scaling_special_case_parameters
         + special_case_rand_num * 2 * scaling_special_case_parameters)%Q in
      Some (Num (py_round pert_param_val 9))
    else
      Some (round_float
              (float_mul (float_div unpert_param_val (Qabs unpert_param_val))
                         rand_num) 9)
  else if distribution_flag =? "normal" then
    if mem param_name special_case_parameters then
      let st_dev_special_param := (3 # 100)%Q in
      let special_case_rand_num :=
        nth 0 (rng_normal g 0 st_dev_special_param 1) 0%Q in
      Some (Num (py_round special_case_rand_num 9))
    else
      Some (Num (py_round rand_num 9))
  else if distribution_flag =? "max-min" then
    if mem param_name special_case_parameters then
      Some (Num (py_round (rand_num - 1) 9))
    else
      Some (Num (py_round (unpert_param_val * rand_num) 9))
  else None.

(* ------------------------------------------------------------------ *)
(** ** The result model *)

(** A dictionary of results read from a GEF or TALYS report. *)
Definition dict : Type := list (string * string).

(** The dictionary of parameter names and default values, in insertion
    order. *)
Definition param_dict : Type := list (string * Q).

Record Random_Parameter_value : Type := mkRandom_Parameter_value {
  rpv_param_name : string;
  rpv_unpert_param_val : Q;
  rpv_random_value : Q;
  rpv_enumeration_rand_num : nat;
  rpv_ignored_events : nat;
  rpv_pert_param_val : option pyfloat;
  rpv_perturbed_FY : list ff_row;
  rpv_perturbed_GEF_results : dict;
  rpv_perturbed_TALYS_results : dict
}.

Record Modified_Parameter : Type := mkModified_Parameter {
  param_name : string;
  unpert_param_val : Q;
  list_of_Random_Parameter_Value_objects : list Random_Parameter_value;
  list_of_rand_num : list Q
}.

Record TMC_Mod_Param_object : Type := mkTMC_Mod_Param_object {
  tmp_param_name : string;
  tmp_unpert_param_val : Q;
  tmp_pert_param_val : option pyfloat;
  tmp_random_value : Q
}.

Record TMC_Object : Type := mkTMC_Object {
  tmc_dictionary_unpert_param_name_val : param_dict;
  enumeration_rand_val : nat;
  list_of_TMC_Mod_Param_objects : list TMC_Mod_Param_object;
  tmc_ignored_events : nat;
  tmc_perturbed_FY : list ff_row;
  tmc_perturbed_GEF_results : dict;
  tmc_perturbed_TALYS_results : dict
}.

Record reaction_info_t : Type := mkInfo {
  MC_runs : Z; info_Z_target : Z; info_A_compound : Z;
  info_E_reaction : Q; num_of_rand : nat
}.

(** The attributes of a [Reaction] object.  The four [unperturbed_]
    attributes stay [None] when the unperturbed thread died. *)
Record Reaction : Type := mkReaction {
  distribution_flag : string;
  With_TALYS_flag : bool;
  program_flag : string;
  dictionary_unpert_param_name_val : param_dict;
  list_of_Mod_Param_objects : list Modified_Parameter;
  list_of_TMC_Objects : list TMC_Object;
  unperturbed_FY : option (list ff_row);
  unperturbed_ignored_events : option nat;
  unperturbed_TALYS_results : option dict;
  unperturbed_GEF_results : option dict;
  reaction_info : reaction_info_t
}.

(* ------------------------------------------------------------------ *)
(** ** The collaborators of a campaign *)

(** What a campaign takes from outside the program: the generators, the
    two external codes and the order in which the worker pools complete
    their tasks. *)
Record environment : Type := mkEnv {
  (** the generator of [numpy.random.default_rng()] in the constructor
      that samples for a parameter (in TMC mode: of trial [n]) *)
  default_rng : string -> nat -> rng;
  (** the generator a special-case perturbation of trial [n] draws from *)
  special_rng : string -> nat -> rng;
  (** the ".lmd" table GEF leaves for a trial, from the trial identifier
      and the rows of "MyParameters.dat": its column count and its rows;
      [None] when the file is missing or empty *)
  run_GEF : string -> list (string * option pyfloat)
            -> option (nat * list event);
  read_and_clear_GEF_results : string -> dict;
  (** TALYS on the ".ff" files printed from a summary table *)
  read_and_clear_TALYS_results : string -> list ff_row -> dict;
  (** [os.cpu_count()] *)
  cpu_count : Z;
  (** completion choices of the pool that serves one parameter *)
  inner_completion : string -> list nat;
  (** completion choices of the pool of the campaign *)
  outer_completion : list nat
}.

(** Removal of the element at position [i]. *)
Fixpoint remove_nth {A : Type} (i : nat) (l : list A) : list A :=
  match l, i with
  | [], _ => []
  | _ :: t, O => t
  | x :: t, S j => x :: remove_nth j t
  end.

(** The order in which submitted tasks are collected: at each step the
    task at position [c mod (number pending)] of the pending ones
    completes; when the choices run out the rest completes in submission
    order.  Every choice list gives a permutation of the pending tasks. *)
Fixpoint complete {A : Type} (choices : list nat) (pending : list A) : list A :=
  match choices with
  | [] => pending
  | c :: cs =>
      match pending with
      | [] => []
      | d :: _ =>
          let i := (c mod List.length pending)%nat in
          nth i pending d :: complete cs (remove_nth i pending)
      end
  end.

(** [ThreadPoolExecutor(max_workers=n)] raises [ValueError] unless [n] is
    positive; every pool of the program is opened under
    [except Exception as e: sys.exit(e)]. *)
Definition with_pool {A : Type} (max_workers : Z) (body : outcome A) : outcome A :=
  if (max_workers <=? 0)%Z then Raises SystemExit else body.

(** [for f in done: ... f.result()]: the first failed task raises. *)
Definition results {A : Type} (done : list (outcome A)) : outcome (list A) :=
  mapM (fun r => r) done.

(** [except Exception as e: sys.exit(e)], and [SystemExit] passing through. *)
Definition or_exit {A : Type} (m : outcome A) : outcome A :=
  match m with
  | Returns a => Returns a
  | Raises _ => Raises SystemExit
  end.

Definition enumerate {A : Type} (l : list A) : list (nat * A) :=
  combine (seq 0 (List.length l)) l.

Definition str_nat (n : nat) : string := NilEmpty.string_of_uint (Nat.to_uint n).

Definition str_int (z : Z) : string := NilEmpty.string_of_int (Z.to_int z).

Fixpoint lookup (k : string) (d : param_dict) : outcome Q :=
  match d with
  | [] => Raises KeyError
  | (k', v) :: t => if k =? k' then Returns v else lookup k t
  end.

(* ------------------------------------------------------------------ *)
(** ** Constructors of the sampler objects *)

(** [Modified_Parameter.__init__]; [g] is the generator of
    [numpy.random.default_rng()]. *)
Definition Modified_Parameter_init (g : rng) (param_name : string)
    (unpert_param_val : Q) (num_of_rands : nat) (distribution_flag : string)
    : outcome Modified_Parameter :=
  if distribution_flag =? "uniform" then
    let scaling_number_uniform := (1 # 2)%Q in
    let upper_lim :=
      (Qabs unpert_param_val + scaling_number_uniform * Qabs unpert_param_val)%Q in
    let lower_lim :=
      (Qabs unpert_param_val - scaling_number_uniform * Qabs unpert_param_val)%Q in
    Returns (mkModified_Parameter param_name unpert_param_val []
               (rng_uniform g lower_lim upper_lim num_of_rands))
  else if distribution_flag =? "normal" then
    st_dev <- gaussian_st_dev_for_parameter param_name unpert_param_val ;;
    let GEF_st_dev := Qabs st_dev in
    Returns (mkModified_Parameter param_name unpert_param_val []
               (rng_normal g unpert_param_val GEF_st_dev num_of_rands))
  else if distribution_flag =? "max-min" then
    Returns (mkModified_Parameter param_name unpert_param_val []
               [1%Q; (3 # 2)%Q])
  else Raises SystemExit.

(** [TMC_Mod_Param_object.__init__]. *)
Definition TMC_Mod_Param_object_init (g : rng) (parameter_name : string)
    (unperturbed_param_val : Q) (distribution_flag : string)
    : outcome TMC_Mod_Param_object :=
  if distribution_flag =? "uniform" then
    let scaling_number_uniform := (1 # 2)%Q in
    let upper_lim :=
      (Qabs unperturbed_param_val
       + scaling_number_uniform * Qabs unperturbed_param_val)%Q in
    let lower_lim :=
      (Qabs unperturbed_param_val
       - scaling_number_uniform * Qabs unperturbed_param_val)%Q in
    Returns (mkTMC_Mod_Param_object parameter_name unperturbed_param_val None
               (nth 0 (rng_uniform g lower_lim upper_lim 1) 0%Q))
  else if distribution_flag =? "normal" then
    st_dev <- gaussian_st_dev_for_parameter parameter_name unperturbed_param_val ;;
    let GEF_st_dev := Qabs st_dev in
    Returns (mkTMC_Mod_Param_object parameter_name unperturbed_param_val None
               (nth 0 (rng_normal g unperturbed_param_val GEF_st_dev 1) 0%Q))
  else Raises SystemExit.

(* ------------------------------------------------------------------ *)
(** ** Trials, scheduling and the persisted file *)

(** What [pickle.load] gives back. *)
Inductive pyobject : Type :=
  | Reaction_object (r : Reaction)
  | Other_object.

Section Campaign.

Variable np_sqrt : Q -> Q.
Variable env : environment.

(** [pickle]: the type of what a pickle file holds, [pickle.dump] and
    [pickle.load]. *)
Variable pickled : Type.
Variable pickle_dump : Reaction -> pickled.
Variable pickle_load : pickled -> pyobject.

(** An entry of a folder. *)
Record dir_entry : Type := mkEntry {
  name : string;
  is_file : bool;
  content : pickled
}.

(** The text of a float in an f-string. *)
Variable str_float : Q -> string.

(** [Reaction.FY_results], from the ".lmd" table that was read. *)
Definition FY_results (lmd : option (nat * list event)) (A_compound : Z)
    : outcome (list ff_row * nat) :=
  match lmd with
  | Some (columns, FY) =>
      let num_of_events := List.length FY in
      GEF_FY_for_TALYS np_sqrt columns FY A_compound num_of_events
  | None => Raises SystemExit
  end.

(** [Modified_Parameter.create_perturbed_FY]: one single-parameter trial. *)
Definition create_perturbed_FY (param_name : string) (unpert_param_val : Q)
    (rand_num : Q) (enumeration_rand_num : nat) (A_compound : Z)
    (With_TALYS_flag : bool) (distribution_flag : string)
    : outcome Random_Parameter_value :=
  let unique_pert_thread_ID :=
    "Param_" ++ param_name ++ "_" ++ str_nat enumeration_rand_num in
  let pert_param_val :=
    create_perturbed_parameter_value
      (special_rng env param_name enumeration_rand_num)
      param_name rand_num unpert_param_val distribution_flag in
  fy <- FY_results (run_GEF env unique_pert_thread_ID
                      [(param_name, pert_param_val)]) A_compound ;;
  let '(perturbed_FY, ignored_events) := fy in
  Returns
    {| rpv_param_name := param_name;
       rpv_unpert_param_val := unpert_param_val;
       rpv_random_value := rand_num;
       rpv_enumeration_rand_num := enumeration_rand_num;
       rpv_ignored_events := ignored_events;
       rpv_pert_param_val := pert_param_val;
       rpv_perturbed_FY := perturbed_FY;
       rpv_perturbed_GEF_results :=
         read_and_clear_GEF_results env unique_pert_thread_ID;
       rpv_perturbed_TALYS_results :=
         if With_TALYS_flag
         then read_and_clear_TALYS_results env unique_pert_thread_ID perturbed_FY
         else [] |}.

(** [Modified_Parameter.create_perturbed_TMC_FY]: one all-parameters trial. *)
Definition create_perturbed_TMC_FY (dict_unpert_param_name_val : param_dict)
    (enumeration_rand_num : nat) (A_compound : Z) (With_TALYS_flag : bool)
    (distribution_flag : string) : outcome TMC_Object :=
  let unique_pert_thread_ID := "TMC_" ++ str_nat enumeration_rand_num in
  objs <- mapM (fun '(param_name, unpert_param_val) =>
            o <- TMC_Mod_Param_object_init
                   (default_rng env param_name enumeration_rand_num)
                   param_name unpert_param_val distribution_flag ;;
            Returns
              (mkTMC_Mod_Param_object (tmp_param_name o) (tmp_unpert_param_val o)
                 (create_perturbed_parameter_value
                    (special_rng env param_name enumeration_rand_num)
                    param_name (tmp_random_value o) unpert_param_val
                    distribution_flag)
                 (tmp_random_value o)))
          dict_unpert_param_name_val ;;
  fy <- FY_results (run_GEF env unique_pert_thread_ID
                      (map (fun o => (tmp_param_name o, tmp_pert_param_val o)) objs))
                   A_compound ;;
  let '(perturbed_FY, ignored_events) := fy in
  Returns
    {| tmc_dictionary_unpert_param_name_val := dict_unpert_param_name_val;
       enumeration_rand_val := enumeration_rand_num;
       list_of_TMC_Mod_Param_objects := objs;
       tmc_ignored_events := ignored_events;
       tmc_perturbed_FY := perturbed_FY;
       tmc_perturbed_GEF_results :=
         read_and_clear_GEF_results env unique_pert_thread_ID;
       tmc_perturbed_TALYS_results :=
         if With_TALYS_flag
         then read_and_clear_TALYS_results env unique_pert_thread_ID perturbed_FY
         else [] |}.

(** [Reaction.perturbed_calculations_single_parameter]: the trials of one
    parameter, collected once all of them are complete. *)
Definition perturbed_calculations_single_parameter (key : string)
    (dict_unpert_param_name_val : param_dict) (A_compound : Z)
    (num_of_rand : nat) (num_of_workers : Z) (With_TALYS_flag : bool)
    (distribution_flag : string) : outcome Modified_Parameter :=
  unpert_param_value <- lookup key dict_unpert_param_name_val ;;
  mod_param_object <-
    Modified_Parameter_init (default_rng env key 0) key unpert_param_value
      num_of_rand distribution_flag ;;
  let simultaneous_threads_per_param := (cpu_count env - num_of_workers) / 2 in
  let future_rand_param_val :=
    map (fun '(n, rand_num) =>
           create_perturbed_FY key unpert_param_value rand_num n A_compound
             With_TALYS_flag distribution_flag)
        (enumerate (list_of_rand_num mod_param_object)) in
  let future_done := complete (inner_completion env key) future_rand_param_val in
  objs <- with_pool simultaneous_threads_per_param
            (or_exit (results future_done)) ;;
  Returns
    (mkModified_Parameter (param_name mod_param_object)
       (unpert_param_val mod_param_object)
       (list_of_Random_Parameter_Value_objects mod_param_object ++ objs)
       (list_of_rand_num mod_param_object)).

(** The name of the file [Reaction.__init__] writes. *)
Definition pickle_file_name (Z_target A_compound : Z) (E_reaction : Q) : string :=
  "Z" ++ str_int Z_target ++ "_A" ++ str_int A_compound
      ++ "_n_E" ++ str_float E_reaction ++ "MeV.pkl".

(** [Reaction.__init__]: the campaign.  The result is the object and the
    file it is pickled into. *)
Definition Reaction_init (dict_unpert_param_name_val : param_dict)
    (Z_target A_compound : Z) (E_reaction : Q) (runs_MC : Z)
    (number_of_randoms : nat) (dist_flag : string) (with_TALYS : bool)
    (prog_flag : string) : outcome (Reaction * dir_entry) :=
  let unperturbed_thread :=
    FY_results (run_GEF env "Unperturbed_Param" []) A_compound in
  lists <-
    (if prog_flag =? "Single_Parameters" then
       let number_of_workers := (cpu_count env - 2) / 3 in
       let future_mod_param_obj :=
         map (fun '(key, _) =>
                perturbed_calculations_single_parameter key
                  dict_unpert_param_name_val A_compound number_of_randoms
                  number_of_workers with_TALYS dist_flag)
             dict_unpert_param_name_val in
       let future_done := complete (outer_completion env) future_mod_param_obj in
       objs <- with_pool number_of_workers (or_exit (results future_done)) ;;
       Returns (objs, [])
     else if prog_flag =? "TMC" then
       let max_multithreads_TMC := (cpu_count env * 2) / 3 in
       let future_tmc_obj :=
         map (fun n =>
                create_perturbed_TMC_FY dict_unpert_param_name_val n A_compound
                  with_TALYS dist_flag)
             (seq 0 number_of_randoms) in
       let future_done := complete (outer_completion env) future_tmc_obj in
       objs <- with_pool max_multithreads_TMC (or_exit (results future_done)) ;;
       Returns ([], objs)
     else Raises SystemExit) ;;
  let self :=
    {| distribution_flag := dist_flag;
       With_TALYS_flag := with_TALYS;
       program_flag := prog_flag;
       dictionary_unpert_param_name_val := dict_unpert_param_name_val;
       list_of_Mod_Param_objects := fst lists;
       list_of_TMC_Objects := snd lists;
       unperturbed_FY :=
         match unperturbed_thread with
         | Returns (FY_TALYS_format, _) => Some FY_TALYS_format
         | Raises _ => None
         end;
       unperturbed_ignored_events :=
         match unperturbed_thread with
         | Returns (_, unpert_ignored_events) => Some unpert_ignored_events
         | Raises _ => None
         end;
       unperturbed_TALYS_results :=
         match unperturbed_thread with
         | Returns (FY_TALYS_format, _) =>
             Some (if with_TALYS
                   then read_and_clear_TALYS_results env "Unperturbed_Param"
                          FY_TALYS_format
                   else [])
         | Raises _ => None
         end;
       unperturbed_GEF_results :=
         match unperturbed_thread with
         | Returns _ => Some (read_and_clear_GEF_results env "Unperturbed_Param")
         | Raises _ => None
         end;
       reaction_info :=
         mkInfo runs_MC Z_target A_compound E_reaction number_of_randoms |} in
  Returns (self,
           {| name := pickle_file_name Z_target A_compound E_reaction;
              is_file := true;
              content := pickle_dump self |}).

(** The attributes of a [McPUFF_Perturbed_Data] object; an attribute that
    was never assigned is the [None] of the class. *)
Record McPUFF_Perturbed_Data : Type := mkMPD {
  mpd_list_of_Mod_Param_objects : list Modified_Parameter;
  mpd_list_of_TMC_Objects : list TMC_Object;
  mpd_list_of_Reac_objects : list Reaction;
  mpd_reaction_info : option reaction_info_t;
  mpd_dictionary_unpert_param_name_val : option param_dict;
  mpd_program_flag : option string;
  mpd_With_TALYS_flag : option bool;
  mpd_unperturbed_FY : option (list ff_row);
  mpd_unperturbed_ignored_events : option nat;
  mpd_unperturbed_GEF_results : option dict;
  mpd_unperturbed_TALYS_results : option dict
}.

(** The body of the loop of [McPUFF_Perturbed_Data.__init__]. *)
Definition load_entry (self : McPUFF_Perturbed_Data) (file_name : dir_entry)
    : outcome McPUFF_Perturbed_Data :=
  if is_file file_name && String.prefix "TMC" (name file_name) then
    match pickle_load (content file_name) with
    | Reaction_object reac_obj =>
        Returns
          {| mpd_list_of_Mod_Param_objects :=
               mpd_list_of_Mod_Param_objects self
               ++ list_of_Mod_Param_objects reac_obj;
             mpd_list_of_TMC_Objects :=
               mpd_list_of_TMC_Objects self ++ list_of_TMC_Objects reac_obj;
             mpd_list_of_Reac_objects := mpd_list_of_Reac_objects self;
             mpd_reaction_info := Some (reaction_info reac_obj);
             mpd_dictionary_unpert_param_name_val :=
               Some (dictionary_unpert_param_name_val reac_obj);
             mpd_program_flag := Some (program_flag reac_obj);
             mpd_With_TALYS_flag := Some (With_TALYS_flag reac_obj);
             mpd_unperturbed_FY := unperturbed_FY reac_obj;
             mpd_unperturbed_ignored_events :=
               unperturbed_ignored_events reac_obj;
             mpd_unperturbed_GEF_results := unperturbed_GEF_results reac_obj;
             mpd_unperturbed_TALYS_results :=
               unperturbed_TALYS_results reac_obj |}
    | Other_object => Returns self
    end
  else if is_file file_name && String.prefix "Single" (name file_name) then
    match pickle_load (content file_name) with
    | Reaction_object reac_obj =>
        Returns
          {| mpd_list_of_Mod_Param_objects := mpd_list_of_Mod_Param_objects self;
             mpd_list_of_TMC_Objects := mpd_list_of_TMC_Objects self;
             mpd_list_of_Reac_objects :=
               mpd_list_of_Reac_objects self ++ [reac_obj];
             mpd_reaction_info := mpd_reaction_info self;
             mpd_dictionary_unpert_param_name_val :=
               mpd_dictionary_unpert_param_name_val self;
             mpd_program_flag := mpd_program_flag self;
             mpd_With_TALYS_flag := mpd_With_TALYS_flag self;
             mpd_unperturbed_FY := mpd_unperturbed_FY self;
             mpd_unperturbed_ignored_events :=
               mpd_unperturbed_ignored_events self;
             mpd_unperturbed_GEF_results := mpd_unperturbed_GEF_results self;
             mpd_unperturbed_TALYS_results :=
               mpd_unperturbed_TALYS_results self |}
    | Other_object => Returns self
    end
  else Raises SystemExit.

Fixpoint load_entries (self : McPUFF_Perturbed_Data) (l : list dir_entry)
    : outcome McPUFF_Perturbed_Data :=
  match l with
  | [] => Returns self
  | file_name :: t => self' <- load_entry self file_name ;; load_entries self' t
  end.

(** [McPUFF_Perturbed_Data.__init__(pth_PKL)], on the entries
    [os.scandir(pth_PKL)] lists. *)
Definition McPUFF_Perturbed_Data_init (pth_PKL : list dir_entry)
    : outcome McPUFF_Perturbed_Data :=
  load_entries (mkMPD [] [] [] None None None None None None None None) pth_PKL.

End Campaign.

Arguments mkEntry {pickled}.
Arguments name {pickled}.
Arguments is_file {pickled}.
Arguments content {pickled}.
Arguments Reaction_init np_sqrt env {pickled}.
Arguments load_entry {pickled}.
Arguments load_entries {pickled}.
Arguments McPUFF_Perturbed_Data_init {pickled}.

(* ------------------------------------------------------------------ *)
(** ** A small campaign, for the worked examples *)

(** Three parameters; "kappa" is a special-case parameter. *)
Definition dict_example : param_dict :=
  [ ("_P_DZ_Mean_S1", - (1710014 # 10000000))%Q;
    ("T_low_S11", (36 # 100)%Q);
    ("kappa", 0%Q) ].

(** GEF always leaves the three events of [FY_with_multichance]; the
    reports are empty; the machine has 8 cores; in each pool the second
    pending task completes first. *)
Definition env_example : environment :=
  {| default_rng := fun _ _ => rng_example;
     special_rng := fun _ _ => rng_example;
     run_GEF := fun _ _ => Some (7%nat, FY_with_multichance);
     read_and_clear_GEF_results := fun _ => [];
     read_and_clear_TALYS_results := fun _ _ => [];
     cpu_count := 8;
     inner_completion := fun _ => [1%nat];
     outer_completion := [1%nat] |}.

(** A campaign of the example environment; the pickle file holds the
    object itself. *)
Definition campaign_example (number_of_randoms : nat) (dist_flag prog_flag : string)
    : outcome (Reaction * dir_entry Reaction) :=
  Reaction_init sqrt_9 env_example (fun r : Reaction => r)
    (fun _ => "2.53e-08") dict_example 92 236 (253 # 10000000000) 100000
    number_of_randoms dist_flag false prog_flag.

(** The example environment in which GEF leaves no list-mode file for
    trial 1 of all-parameters mode. *)
Definition env_one_failure : environment :=
  {| default_rng := fun _ _ => rng_example;
     special_rng := fun _ _ => rng_example;
     run_GEF := fun id _ =>
       if id =? "TMC_1" then None else Some (7%nat, FY_with_multichance);
     read_and_clear_GEF_results := fun _ => [];
     read_and_clear_TALYS_results := fun _ _ => [];
     cpu_count := 8;
     inner_completion := fun _ => [1%nat];
     outer_completion := [1%nat] |}.

(* ------------------------------------------------------------------ *)
(** ** What the loader takes from the entries of a folder *)

Section Loader.

Variable pickled : Type.
Variable pickle_load : pickled -> pyobject.

(** The entries [McPUFF_Perturbed_Data.__init__] reads. *)
Definition readable (f : dir_entry pickled) : Prop :=
  is_file f = true
  /\ (String.prefix "TMC" (name f) = true
      \/ String.prefix "Single" (name f) = true).

(** The objects a ["TMC"] file adds to the two lists of trials. *)
Definition Mod_Param_objects_of (f : dir_entry pickled) : list Modified_Parameter :=
  if String.prefix "TMC" (name f) then
    match pickle_load (content f) with
    | Reaction_object r => list_of_Mod_Param_objects r
    | Other_object => []
    end
  else [].

Definition TMC_Objects_of (f : dir_entry pickled) : list TMC_Object :=
  if String.prefix "TMC" (name f) then
    match pickle_load (content f) with
    | Reaction_object r => list_of_TMC_Objects r
    | Other_object => []
    end
  else [].

(** The object a ["Single"] file adds to the list of campaigns. *)
Definition Reac_objects_of (f : dir_entry pickled) : list Reaction :=
  if String.prefix "TMC" (name f) then []
  else
    match pickle_load (content f) with
    | Reaction_object r => [r]
    | Other_object => []
    end.

(** A file that assigns the attributes of a campaign. *)
Definition assigns (f : dir_entry pickled) (r : Reaction) : Prop :=
  String.prefix "TMC" (name f) = true
  /\ pickle_load (content f) = Reaction_object r.

Definition assigns_nothing (f : dir_entry pickled) : Prop :=
  String.prefix "TMC" (name f) = false
  \/ pickle_load (content f) = Other_object.

(** The attributes the loader copies from a campaign. *)
Definition copied_from (r : Reaction) (mpd : McPUFF_Perturbed_Data) : Prop :=
  mpd_reaction_info mpd = Some (reaction_info r)
  /\ mpd_dictionary_unpert_param_name_val mpd
     = Some (dictionary_unpert_param_name_val r)
  /\ mpd_program_flag mpd = Some (program_flag r)
  /\ mpd_With_TALYS_flag mpd = Some (With_TALYS_flag r)
  /\ mpd_unperturbed_FY mpd = unperturbed_FY r
  /\ mpd_unperturbed_ignored_events mpd = unperturbed_ignored_events r
  /\ mpd_unperturbed_GEF_results mpd = unperturbed_GEF_results r
  /\ mpd_unperturbed_TALYS_results mpd = unperturbed_TALYS_results r.

Definition same_attributes (a b : McPUFF_Perturbed_Data) : Prop :=
  mpd_reaction_info a = mpd_reaction_info b
  /\ mpd_dictionary_unpert_param_name_val a
     = mpd_dictionary_unpert_param_name_val b
  /\ mpd_program_flag a = mpd_program_flag b
  /\ mpd_With_TALYS_flag a = mpd_With_TALYS_flag b
  /\ mpd_unperturbed_FY a = mpd_unperturbed_FY b
  /\ mpd_unperturbed_ignored_events a = mpd_unperturbed_ignored_events b
  /\ mpd_unperturbed_GEF_results a = mpd_unperturbed_GEF_results b
  /\ mpd_unperturbed_TALYS_results a = mpd_unperturbed_TALYS_results b.

End Loader.

Arguments readable {pickled}.
Arguments Mod_Param_objects_of {pickled}.
Arguments TMC_Objects_of {pickled}.
Arguments Reac_objects_of {pickled}.
Arguments assigns {pickled}.
Arguments assigns_nothing {pickled}.

(* ================================================================== *)
(** * Identifiers, files and folders *)

(* ------------------------------------------------------------------ *)
(** ** Strings and identifiers *)

(** [s.startswith(prefix)] and [s.endswith(suffix)]. *)
Definition startswith (s prefix : string) : bool := String.prefix prefix s.

Fixpoint endswith (s suffix : string) : bool :=
  (s =? suffix)
  || match s with
     | EmptyString => false
     | String _ t => endswith t suffix
     end.

(** [str.lower] on the letters of ASCII, of which the names of this
    program are made. *)
Definition lower_ascii (c : ascii) : ascii :=
  let n := nat_of_ascii c in
  if ((65 <=? n) && (n <=? 90))%nat then ascii_of_nat (n + 32) else c.

Fixpoint lower (s : string) : string :=
  match s with
  | EmptyString => EmptyString
  | String c t => String (lower_ascii c) (lower t)
  end.

Fixpoint spaces (n : nat) : string :=
  match n with
  | O => EmptyString
  | S m => String " " (spaces m)
  end.

(** The format [{:>width}] of a text. *)
Definition rjust (width : nat) (s : string) : string :=
  spaces (width - String.length s) ++ s.

(** [f'Param_{param_name}_{enumeration_rand_num}'], the identifier of a
    trial of parameter-at-a-time mode. *)
Definition Param_thread_ID (param_name : string) (enumeration_rand_num : nat)
    : string :=
  "Param_" ++ param_name ++ "_" ++ str_nat enumeration_rand_num.

(** [f'TMC_{enumeration_rand_num}'], the identifier of a trial of
    all-parameters mode. *)
Definition TMC_thread_ID (enumeration_rand_num : nat) : string :=
  "TMC_" ++ str_nat enumeration_rand_num.

(** The identifier of the unperturbed run. *)
Definition unique_unpert_thread_ID : string := "Unperturbed_Param".

(** The dictionary [elements] of the three modules that write files. *)
Definition elements (key : string) : outcome string :=
  if key =? "92" then Returns "U"
  else if key =? "94" then Returns "Pu"
  else Raises KeyError.

(* ------------------------------------------------------------------ *)
(** ** The ".ff" files of the TALYS library *)

(** A folder, as the list of its entries in the order [os.scandir] lists
    them; the content of a file is its text. *)
Definition folder : Type := list (dir_entry string).

(** [open(os.path.join(folder, name), 'w')] followed by the writes that
    make up [text]: the text of an existing file is replaced, a new file
    comes last.  [None] where a folder of the name exists, on which
    [open] raises [IsADirectoryError]. *)
Fixpoint write_file (d : folder) (file_name text : string) : option folder :=
  match d with
  | [] => Some [mkEntry file_name true text]
  | e :: t =>
      if name e =? file_name then
        if is_file e then Some (mkEntry file_name true text :: t) else None
      else
        match write_file t file_name text with
        | Some t' => Some (e :: t')
        | None => None
        end
  end.

Section FF_files.

(** The formats [{:.2e}] and [{:.4e}] of a float. *)
Variable format_2e : Q -> string.
Variable format_4e : Q -> string.

Definition newline : string := String (ascii_of_nat 10) EmptyString.

(** The line of the file for one row of the summary table; the columns
    0..3 are printed with [{:>4.0f}] and [{:>3.0f}]. *)
Definition ff_line (row : ff_row) : string :=
  rjust 4 (str_int (ff_Z1 row)) ++ " " ++ rjust 3 (str_int (ff_A1 row)) ++ " "
  ++ rjust 4 (str_int (ff_Z2 row)) ++ " " ++ rjust 4 (str_int (ff_A2 row))
  ++ "  " ++ format_4e (ff_yield row) ++ "  " ++ format_4e (ff_TKE row)
  ++ "  " ++ format_4e (ff_TXE row) ++ "  " ++ format_4e (ff_Eexc1 row)
  ++ "  " ++ format_4e (ff_W1 row) ++ "  " ++ format_4e (ff_Eexc2 row)
  ++ "  " ++ format_4e (ff_W2 row) ++ newline.

Definition structure : string :=
  "Zl  Al   Zh  Ah   Yield       TKE[MeV]    TXE[MeV]"
  ++ "    El[MeV]     Wl[MeV]     Eh[MeV]     Wh[MeV]".

(** The text written into one ".ff" file. *)
Definition ff_text (FY_TALYS_format : list ff_row) (Z_target A_compound : Z)
    (E_reaction : Q) : string :=
  let number_of_FY :=
    List.length (np_where (fun row => negb (ff_Z1 row =? 0)%Z) FY_TALYS_format) in
  "# Z        =   " ++ rjust 3 (str_int Z_target) ++ newline
  ++ "# A        =   " ++ rjust 3 (str_int A_compound) ++ newline
  ++ "# Ex (MeV) =   " ++ rjust 3 (format_2e E_reaction) ++ newline
  ++ "# Ntotal   =   " ++ rjust 3 (str_nat number_of_FY) ++ newline
  ++ "# " ++ structure ++ newline
  ++ String.concat ""
       (map ff_line
            (filter (fun row => negb (ff_Z1 row =? 0)%Z) FY_TALYS_format)).

Definition ff_file_name (Z_target A_compound : Z) (energy_val : string)
    (unique_thread_ID : string) : outcome string :=
  element <- elements (str_int Z_target) ;;
  Returns (element ++ str_int A_compound ++ "_" ++ energy_val
           ++ ".00e+00MeV_gef_" ++ lower unique_thread_ID ++ ".ff").

(** The outcome of a call that changes a folder: the folder it leaves,
    and the exception it raised, if any ([IsADirectoryError] beside the
    exceptions of [error]). *)
Inductive raised : Type :=
  | Nothing
  | Error (e : error)
  | IsADirectoryError.

(** [Reaction.print_TALYS_ff_files], on the entries of
    [pth_TALYS_folder]. *)
Definition print_TALYS_ff_files (pth_TALYS_folder : folder)
    (FY_TALYS_format : list ff_row) (Z_target A_compound : Z)
    (E_reaction : Q) (unique_thread_ID : string) : folder * raised :=
  let energy_val := ["6"; "7"] in
  let text := ff_text FY_TALYS_format Z_target A_compound E_reaction in
  let step (state : folder * raised) (energy : string) :=
    match state with
    | (d, Nothing) =>
        match ff_file_name Z_target A_compound energy unique_thread_ID with
        | Raises e => (d, Error e)
        | Returns ff_file_name =>
            match write_file d ff_file_name text with
            | Some d' => (d', Nothing)
            | None => (d, IsADirectoryError)
            end
        end
    | _ => state
    end in
  match fold_left step energy_val (pth_TALYS_folder, Nothing) with
  | (d, Nothing) =>
      (* del ...,row,...: bound only if the table has a row *)
      match FY_TALYS_format with
      | [] => (d, Error UnboundLocalError)
      | _ :: _ => (d, Nothing)
      end
  | state => state
  end.

End FF_files.

(** [Reaction.delete_TALYS_ff_files], on the entries of
    [pth_TALYS_FY_folder]. *)
Definition delete_TALYS_ff_files (pth_TALYS_FY_folder : folder)
    (unique_thread_ID : string) : folder * raised :=
  let remaining :=
    filter (fun file_name =>
              negb (is_file file_name
                    && endswith (name file_name)
                                (lower unique_thread_ID ++ ".ff")))
           pth_TALYS_FY_folder in
  match pth_TALYS_FY_folder with
  | [] => (remaining, Error UnboundLocalError)   (* del file_name *)
  | _ :: _ => (remaining, Nothing)
  end.

(** The ending of the names of the ".ff" files of a run, and the entries
    that [delete_TALYS_ff_files] keeps. *)
Definition ff_suffix (unique_thread_ID : string) : string :=
  lower unique_thread_ID ++ ".ff".

Definition ff_kept (unique_thread_ID : string) (f : dir_entry string) : bool :=
  negb (is_file f && endswith (name f) (ff_suffix unique_thread_ID)).

(* ------------------------------------------------------------------ *)
(** ** Paths *)

(** [c in s]. *)
Fixpoint occurs (c : ascii) (s : string) : bool :=
  match s with
  | EmptyString => false
  | String c' t => Ascii.eqb c c' || occurs c t
  end.

(** [os.path.join(a, b)]. *)
Definition path_join (a b : string) : string :=
  if startswith b "/" then b
  else if (a =? "") || endswith a "/" then a ++ b
  else a ++ "/" ++ b.

(** [os.path.join(a, *p)]. *)
Definition path_join_all (a : string) (p : list string) : string :=
  fold_left path_join p a.

(** [p[:p.rfind('/')+1]]. *)
Fixpoint up_to_last_slash (p : string) : string :=
  match p with
  | EmptyString => EmptyString
  | String c t =>
      if occurs "/" p then String c (up_to_last_slash t) else EmptyString
  end.

(** [head.rstrip('/')]. *)
Fixpoint rstrip_slash (s : string) : string :=
  match s with
  | EmptyString => EmptyString
  | String c t =>
      let t' := rstrip_slash t in
      if (t' =? "") && Ascii.eqb c "/" then EmptyString else String c t'
  end.

Fixpoint all_slashes (s : string) : bool :=
  match s with
  | EmptyString => true
  | String c t => Ascii.eqb c "/" && all_slashes t
  end.

(** [os.path.dirname(p)]. *)
Definition dirname (p : string) : string :=
  let head := up_to_last_slash p in
  if negb (head =? "") && negb (all_slashes head)
  then rstrip_slash head else head.

(* ------------------------------------------------------------------ *)
(** ** Calls on the file system *)

(** The calls of the program that change the file system.  A function
    that makes such calls returns the log of its calls, in order, beside
    its outcome; what it asks the file system is an argument of the
    function.  The file system is taken to accept every call.  [Mkdir]
    is [os.mkdir], [Write] is [open(path, 'w')] with the text written,
    [Remove] is [os.remove] and [Rmtree] is [shutil.rmtree]. *)
Inductive fs_call : Type :=
  | Mkdir (path : string)
  | Write (path text : string)
  | Remove (path : string)
  | Rmtree (path : string).

Definition logged (A : Type) : Type := (list fs_call * outcome A)%type.

Definition ret {A : Type} (a : A) : logged A := ([], Returns a).

Definition call (c : fs_call) : logged unit := ([c], Returns tt).

Definition raise {A : Type} (e : error) : logged A := ([], Raises e).

Definition lbind {A B : Type} (m : logged A) (k : A -> logged B) : logged B :=
  match m with
  | (l, Returns a) => let '(l', r) := k a in ((l ++ l')%list, r)
  | (l, Raises e) => (l, Raises e)
  end.

Notation "x <~ m ;; k" := (lbind m (fun x => k))
  (at level 61, m at next level, right associativity).

(** The dictionary [path_dict]. *)
Record path_dict_t : Type := mkPaths {
  GEF_program_path : string;
  TALYS_program_path : string;
  Output_McPUFF_path : string;
  GEF_working_dir_path : string;
  TALYS_working_dir_path : string;
  TALYS_input_path : string;
  PKL_path : string;
  TALYS_ff_file_path : string
}.

(** [Reaction.create_paths_and_directories]; [isdir] is [os.path.isdir]. *)
Definition create_paths_and_directories (isdir : string -> bool)
    (Z_target A_compound : Z)
    (pth_GEF_program pth_TALYS_program pth_main : string)
    : logged path_dict_t :=
  let GEF_program_path := path_join pth_GEF_program "" in
  let TALYS_program_path := path_join pth_TALYS_program "" in
  Output_McPUFF_path <~
    (if negb (isdir (path_join (dirname pth_main) "Output_McPUFF")) then
       let prog_out_dir_name := path_join (dirname pth_main) "Output_McPUFF" in
       _ <~ call (Mkdir prog_out_dir_name) ;;
       ret (path_join prog_out_dir_name "")
     else ret (path_join_all (dirname pth_main) ["Output_McPUFF"; ""])) ;;
  GEF_working_dir_path <~
    (if negb (isdir (path_join Output_McPUFF_path "GEF_working_directory")) then
       let dir_path := path_join Output_McPUFF_path "GEF_working_directory" in
       _ <~ call (Mkdir dir_path) ;;
       ret (path_join dir_path "")
     else ret (path_join_all Output_McPUFF_path ["GEF_working_directory"; ""])) ;;
  TALYS_working_dir_path <~
    (if negb (isdir (path_join Output_McPUFF_path "TALYS_working_directory")) then
       let dir_path := path_join Output_McPUFF_path "TALYS_working_directory" in
       _ <~ call (Mkdir dir_path) ;;
       ret (path_join dir_path "")
     else ret (path_join_all Output_McPUFF_path ["TALYS_working_directory"; ""])) ;;
  let TALYS_input_path := path_join TALYS_working_dir_path "TALYS_folder_" in
  PKL_path <~
    (if negb (isdir (path_join Output_McPUFF_path "pickle_results")) then
       let dir_path := path_join Output_McPUFF_path "pickle_results" in
       _ <~ call (Mkdir dir_path) ;;
       ret (path_join dir_path "")
     else ret (path_join Output_McPUFF_path "pickle_results")) ;;
  let PKL_path := path_join_all Output_McPUFF_path ["pickle_results"; ""] in
  let TALYS_ff_file_path : option string := None in
  let TALYS_ff_file_path :=
    if (Z_target =? 92)%Z then
      Some (path_join_all (dirname pth_TALYS_program)
              ["structure"; "fission"; "ff"; "gef"; "U" ++ str_int A_compound; ""])
    else TALYS_ff_file_path in
  let TALYS_ff_file_path :=
    if (Z_target =? 94)%Z then
      Some (path_join_all (dirname pth_TALYS_program)
              ["structure"; "fission"; "ff"; "gef"; "Pu" ++ str_int A_compound; ""])
    else TALYS_ff_file_path in
  match TALYS_ff_file_path with
  | None => raise UnboundLocalError
  | Some TALYS_ff_file_path =>
      ret {| GEF_program_path := GEF_program_path;
             TALYS_program_path := TALYS_program_path;
             Output_McPUFF_path := Output_McPUFF_path;
             GEF_working_dir_path := GEF_working_dir_path;
             TALYS_working_dir_path := TALYS_working_dir_path;
             TALYS_input_path := TALYS_input_path;
             PKL_path := PKL_path;
             TALYS_ff_file_path := TALYS_ff_file_path |}
  end.

(* ------------------------------------------------------------------ *)
(** ** The working folder and the input file of a GEF run *)

(** [int(x)] of a float: the integer part. *)
Definition py_int (x : Q) : Z := Z.quot (Qnum x) (Zpos (Qden x)).

Definition quote : string := String (ascii_of_nat 34) EmptyString.

Definition global_opt : string := "global".
Definition MyParam_opt : string := "MyParameters".
Definition LMD_plus_opt : string := "lmd+".
Definition projectile_opt : string := "EN".

Section GEF_input.

(** [str(x)] of a float. *)
Variable str_float : Q -> string.

(** [GEF_input.create_GEF_input_file_and_folder]; [exists_in_folder] is
    [os.path.exists(GEF_in_folder)] and [scandir_in_folder] are the
    entries, with [is_file()], that [os.scandir(GEF_in_folder)] lists
    when the folder exists. *)
Definition create_GEF_input_file_and_folder (exists_in_folder : bool)
    (scandir_in_folder : list (string * bool)) (pth_GEF_cwd : string)
    (Z_target A_compound : Z) (E_reaction MC_runs : Q) : logged unit :=
  let E_reaction' : Q :=
    if endswith (str_float E_reaction) ".0"
    then inject_Z (py_int E_reaction) else E_reaction in
  _ <~ call (Write (path_join pth_GEF_cwd "MyParameters.dat") "") ;;
  element <~ (([], elements (str_int Z_target)) : logged string) ;;
  let GEF_in_file_name :=
    element ++ str_int (A_compound - 1) ++ projectile_opt ++ ".in" in
  _ <~ call (Write (path_join pth_GEF_cwd "file.in")
               (quote ++ "in/" ++ GEF_in_file_name ++ quote ++ newline ++ "END")) ;;
  let GEF_in_folder := path_join_all pth_GEF_cwd ["in"; ""] in
  _ <~ (if negb exists_in_folder then call (Mkdir GEF_in_folder) else ret tt) ;;
  let entries := if exists_in_folder then scandir_in_folder else [] in
  _ <~ fold_left
         (fun (acc : logged unit) (file_name : string * bool) =>
            _ <~ acc ;;
            if snd file_name
            then call (Remove (path_join GEF_in_folder (fst file_name)))
            else ret tt)
         entries (ret tt) ;;
  let iterations := py_int (MC_runs / 100000) in
  call (Write (path_join GEF_in_folder GEF_in_file_name)
          (str_int iterations ++ newline
           ++ str_float E_reaction' ++ newline
           ++ "Options(" ++ global_opt ++ "," ++ MyParam_opt ++ ","
           ++ LMD_plus_opt ++ ")" ++ newline
           ++ str_int Z_target ++ ", " ++ str_int A_compound ++ ", "
           ++ quote ++ projectile_opt ++ quote ++ newline
           ++ "END")).

(** The dictionary [GEF_data_paths]. *)
Record GEF_data_paths_t : Type := mkGEFPaths {
  GEF_cwd_path : string;
  GEF_LMD_path : string;
  GEF_DAT_path : string;
  GEF_DMP_EN_path : string
}.

(** [Reaction.create_GEF_workingdir_and_inputfile]; [isdir_cwd] is
    [os.path.isdir] of the folder of the run. *)
Definition create_GEF_workingdir_and_inputfile (isdir_cwd exists_in_folder : bool)
    (scandir_in_folder : list (string * bool)) (unique_param_ID : string)
    (Z_target A_compound : Z) (E_reaction MC_runs : Q)
    (GEF_working_dir_path : string) : logged GEF_data_paths_t :=
  GEF_cwd_path <~
    (if negb isdir_cwd then
       let GEF_cwd_path :=
         path_join GEF_working_dir_path ("GEF_" ++ unique_param_ID) in
       _ <~ call (Mkdir GEF_cwd_path) ;;
       ret GEF_cwd_path
     else ret (path_join_all GEF_working_dir_path
                 ["GEF_" ++ unique_param_ID; ""])) ;;
  let GEF_LMD_path :=
    if endswith (str_float E_reaction) ".0" then
      path_join_all GEF_cwd_path
        ["out"; "Z" ++ str_int Z_target ++ "_A" ++ str_int A_compound ++ "_n_E"
                ++ str_int (py_int E_reaction) ++ "MeV.lmd"]
    else
      path_join_all GEF_cwd_path
        ["out"; "Z" ++ str_int Z_target ++ "_A" ++ str_int A_compound ++ "_n_E"
                ++ str_float E_reaction ++ "MeV.lmd"] in
  let GEF_DAT_path :=
    path_join_all GEF_cwd_path
      ["out"; "GEF_" ++ str_int Z_target ++ "_" ++ str_int A_compound ++ "_n.dat"] in
  let GEF_DMP_EN_path :=
    path_join_all GEF_cwd_path
      ["dmp"; "Z" ++ str_int Z_target ++ "_A" ++ str_int A_compound ++ "_n_E"
              ++ str_float E_reaction ++ "MeV"; "EN.dmp"] in
  _ <~ create_GEF_input_file_and_folder exists_in_folder scandir_in_folder
         GEF_cwd_path Z_target A_compound E_reaction MC_runs ;;
  ret {| GEF_cwd_path := GEF_cwd_path; GEF_LMD_path := GEF_LMD_path;
         GEF_DAT_path := GEF_DAT_path; GEF_DMP_EN_path := GEF_DMP_EN_path |}.

End GEF_input.

(* ------------------------------------------------------------------ *)
(** ** Clearing the folders of a run *)

(** [Reaction.clear_MyParameters_dat]; [isfile] is [os.path.isfile]. *)
Definition clear_MyParameters_dat (isfile : string -> bool)
    (GEF_cwd_path : string) : logged unit :=
  let path_MyParameters_file := path_join GEF_cwd_path "MyParameters.dat" in
  if isfile path_MyParameters_file
  then call (Write path_MyParameters_file "")
  else ret tt.

(** [Reaction.delete_GEF_result_folder] and
    [Reaction.delete_TALYS_result_files]; [isdir] is [os.path.isdir]. *)
Definition delete_GEF_result_folder (isdir : string -> bool)
    (GEF_results_folder_path : string) : logged unit :=
  if isdir GEF_results_folder_path
  then call (Rmtree GEF_results_folder_path)
  else ret tt.

Definition delete_TALYS_result_files (isdir : string -> bool)
    (path_TALYS_cwd : string) : logged unit :=
  if isdir path_TALYS_cwd then call (Rmtree path_TALYS_cwd) else ret tt.

(** [Reaction.eraseFolders]. *)
Definition eraseFolders (isdir : string -> bool) (GEF_cwd_path : string)
    : logged unit :=
  _ <~ (if isdir (path_join GEF_cwd_path "ctl")
        then call (Rmtree (path_join_all GEF_cwd_path ["ctl"; ""]))
        else ret tt) ;;
  _ <~ (if isdir (path_join GEF_cwd_path "dmp")
        then call (Rmtree (path_join_all GEF_cwd_path ["dmp"; ""]))
        else ret tt) ;;
  _ <~ (if isdir (path_join GEF_cwd_path "out")
        then call (Rmtree (path_join_all GEF_cwd_path ["out"; ""]))
        else ret tt) ;;
  if isdir (path_join GEF_cwd_path "tmp")
  then call (Rmtree (path_join_all GEF_cwd_path ["tmp"; ""]))
  else ret tt.

(* ------------------------------------------------------------------ *)
(** ** The folder and the input file of a TALYS run *)

(** The names that [create_unperturbed_FY], [create_perturbed_FY] and
    [create_perturbed_TMC_FY] give to the input file and to the folder of
    the TALYS run of an identifier. *)
Definition TALYS_pert_input_file (unique_pert_thread_ID : string) : string :=
  unique_pert_thread_ID ++ "_input.in".

Definition TALYS_pert_cwd (TALYS_input_path unique_pert_thread_ID : string)
    : string :=
  path_join (TALYS_input_path ++ unique_pert_thread_ID) "".

Section TALYS_input.

Variable str_float : Q -> string.

(** [TALYS_Input.write_TALYS_input_file]. *)
Definition write_TALYS_input_file (folder file_name unique_thread_id : string)
    (Z_target A_compound : Z) (E_reaction : Q) : logged unit :=
  let projectile := "n" in
  element <~ (([], elements (str_int Z_target)) : logged string) ;;
  let mass := str_int (A_compound - 1) in
  let energy := str_float E_reaction in
  let fission := "y" in
  let ejectiles := "g n" in
  let massdis := "y" in
  let fymodel := "4" in
  let ffmodel := "1" in
  let elow := "0.000001" in
  let Rfiseps := "0.000000001" in
  let outspectra := "y" in
  let bins := "100" in
  let channels := "n" in
  let maxchannel := "8" in
  let Rspincutff := "4" in
  let Rspincut := "0.4" in
  call (Write (path_join folder file_name)
          ("projectile " ++ projectile ++ newline
           ++ "element " ++ element ++ newline
           ++ "mass " ++ mass ++ newline
           ++ "energy " ++ energy ++ newline
           ++ "fission " ++ fission ++ newline
           ++ "ejectiles " ++ ejectiles ++ newline
           ++ "massdis " ++ massdis ++ newline
           ++ "fymodel " ++ fymodel ++ newline
           ++ "ffmodel " ++ ffmodel ++ newline
           ++ "elow " ++ elow ++ newline
           ++ "Rfiseps " ++ Rfiseps ++ newline
           ++ "outspectra " ++ outspectra ++ newline
           ++ "bins " ++ bins ++ newline
           ++ "channels " ++ channels ++ newline
           ++ "maxchannel " ++ maxchannel ++ newline
           ++ "Rspincutff " ++ Rspincutff ++ newline
           ++ "Rspincut " ++ Rspincut ++ newline
           ++ "geffissionfileid " ++ unique_thread_id)).

(** [TALYS_Input.create_TALYS_input_file]; [exists_folder] is
    [os.path.exists(TALYS_folder)]. *)
Definition create_TALYS_input_file (exists_folder : bool)
    (pth_TALYS_input unique_thread TALYS_input_file_name : string)
    (Z_target A_compound : Z) (E_reaction : Q) : logged unit :=
  let TALYS_folder := path_join (pth_TALYS_input ++ unique_thread) "" in
  _ <~ (if negb exists_folder then call (Mkdir TALYS_folder) else ret tt) ;;
  write_TALYS_input_file TALYS_folder TALYS_input_file_name unique_thread
    Z_target A_compound E_reaction.

End TALYS_input.

(* ------------------------------------------------------------------ *)
(** ** The identifiers of the runs *)

(** The identifiers under which the unperturbed run, the trials of the
    parameters of the table of standard deviations and the trials of
    all-parameters mode call GEF and TALYS. *)
Inductive run_identifier : string -> Prop :=
  | run_unperturbed : run_identifier unique_unpert_thread_ID
  | run_parameter (param_name : string) (enumeration_rand_num : nat) :
      In param_name st_dev_param_keys ->
      run_identifier (Param_thread_ID param_name enumeration_rand_num)
  | run_TMC (enumeration_rand_num : nat) :
      run_identifier (TMC_thread_ID enumeration_rand_num).

(* ================================================================== *)
(** * Properties *)

Local Open Scope Z_scope.
Local Open Scope list_scope.

(* ------------------------------------------------------------------ *)
(** ** The numpy operations *)

Lemma key_eqb_eq (a b : key) : key_eqb a b = true <-> a = b.
Proof.
  destruct a as [[[a0 a1] a2] a3], b as [[[b0 b1] b2] b3]; simpl.
  rewrite !andb_true_iff, !Z.eqb_eq. split.
  - intros [[[-> ->] ->] ->]. reflexivity.
  - intros H. inversion H. auto.
Qed.

Lemma key_eqb_refl (a : key) : key_eqb a a = true.
Proof. apply key_eqb_eq. reflexivity. Qed.

Lemma key_eqb_neq (a b : key) : key_eqb a b = false <-> a <> b.
Proof.
  split.
  - intros E H. apply key_eqb_eq in H. congruence.
  - intros H. destruct (key_eqb a b) eqn:E; [|reflexivity].
    apply key_eqb_eq in E. contradiction.
Qed.

Lemma take_succ {A : Type} (d x : A) (l : list A) (idx : list nat) :
  take d (x :: l) (map S idx) = take d l idx.
Proof. unfold take. rewrite map_map. reflexivity. Qed.

(** Indexing two parallel arrays with the positions of a mask. *)
Lemma take_where_map {A B C : Type} (g : A -> B) (h : A -> C)
    (p : C -> bool) (d : B) (l : list A) :
  take d (map g l) (np_where p (map h l)) = map g (filter (fun x => p (h x)) l).
Proof.
  induction l as [|x t IH]; [reflexivity|].
  simpl. destruct (p (h x)).
  - change (take d (g x :: map g t) (O :: map S (np_where p (map h t))))
      with (g x :: take d (g x :: map g t) (map S (np_where p (map h t)))).
    rewrite take_succ, IH. reflexivity.
  - rewrite take_succ. exact IH.
Qed.

Lemma take_where {A : Type} (p : A -> bool) (d : A) (l : list A) :
  take d l (np_where p l) = filter p l.
Proof.
  pose proof (take_where_map (fun x : A => x) (fun x : A => x) p d l) as H.
  rewrite !map_id in H. exact H.
Qed.

Lemma take_where_of_map {A C : Type} (h : A -> C) (p : C -> bool) (d : A)
    (l : list A) :
  take d l (np_where p (map h l)) = filter (fun x => p (h x)) l.
Proof.
  pose proof (take_where_map (fun x : A => x) h p d l) as H.
  rewrite !map_id in H. exact H.
Qed.

Lemma existsb_zero_succ (idx : list nat) :
  existsb (Nat.eqb 0) (map S idx) = false.
Proof. induction idx; simpl; auto. Qed.

Lemma shift_down_succ (idx : list nat) : shift_down (map S idx) = idx.
Proof.
  unfold shift_down. induction idx as [|i t IH]; simpl; [reflexivity|].
  f_equal. exact IH.
Qed.

Lemma np_delete_nil {A : Type} (l : list A) : np_delete l [] = l.
Proof. induction l as [|x t IH]; simpl; [reflexivity|]. f_equal. exact IH. Qed.

(** Deleting the positions of a mask keeps the rows outside the mask. *)
Lemma np_delete_where {A : Type} (p : A -> bool) (l : list A) :
  np_delete l (np_where p l) = filter (fun x => negb (p x)) l.
Proof.
  induction l as [|x t IH]; [reflexivity|].
  simpl. destruct (p x); simpl.
  - unfold shift_down. simpl. fold (shift_down (map S (np_where p t))).
    rewrite shift_down_succ. exact IH.
  - rewrite existsb_zero_succ, shift_down_succ, IH. reflexivity.
Qed.

Lemma fold_update_succ {A : Type} (f : A -> A) (x : A) (idx : list nat) :
  forall t,
    fold_left (fun t r => update_row r f t) (map S idx) (x :: t)
    = x :: fold_left (fun t r => update_row r f t) idx t.
Proof.
  induction idx as [|r w IH]; intros t; [reflexivity|].
  simpl. apply IH.
Qed.

(** Updating the rows at the positions of a mask, one after the other. *)
Lemma fold_update_where {A : Type} (p : A -> bool) (f : A -> A) (l : list A) :
  fold_left (fun t r => update_row r f t) (np_where p l) l
  = map (fun x => if p x then f x else x) l.
Proof.
  induction l as [|x t IH]; [reflexivity|].
  simpl. destruct (p x); simpl.
  - rewrite fold_update_succ, IH. reflexivity.
  - rewrite fold_update_succ, IH. reflexivity.
Qed.

Lemma insert_row_perm (k : key) (l : list key) :
  Permutation (insert_row k l) (k :: l).
Proof.
  induction l as [|h t IH]; simpl; [apply Permutation_refl|].
  destruct (key_leb k h); [apply Permutation_refl|].
  eapply perm_trans; [apply perm_skip, IH|apply perm_swap].
Qed.

Lemma sort_rows_perm (l : list key) : Permutation (sort_rows l) l.
Proof.
  induction l as [|h t IH]; simpl; [apply perm_nil|].
  eapply perm_trans; [apply insert_row_perm|]. apply perm_skip, IH.
Qed.

Lemma unique_NoDup (rows : list key) :
  NoDup (sort_rows (nodup key_eq_dec rows)).
Proof.
  eapply Permutation_NoDup.
  - apply Permutation_sym, sort_rows_perm.
  - apply NoDup_nodup.
Qed.

Lemma unique_In (rows : list key) (k : key) :
  In k (sort_rows (nodup key_eq_dec rows)) <-> In k rows.
Proof.
  split; intros H.
  - apply (nodup_In key_eq_dec).
    eapply Permutation_in; [apply sort_rows_perm|exact H].
  - eapply Permutation_in; [apply Permutation_sym, sort_rows_perm|].
    apply nodup_In. exact H.
Qed.

(* ------------------------------------------------------------------ *)
(** ** The reducer in closed form *)

Lemma filter_negb_negb {A : Type} (p : A -> bool) (l : list A) :
  filter (fun x => negb (negb (p x))) l = filter p l.
Proof. apply filter_ext. intros x. apply negb_involutive. Qed.

Lemma delete_multichance_surviving (FY : list event) (A_compound : Z) :
  delete_multichance FY A_compound = surviving FY A_compound.
Proof.
  unfold delete_multichance, surviving.
  set (idx := np_where _ FY).
  assert (H : np_delete FY idx = filter (mass_consistent A_compound) FY).
  { unfold idx. rewrite np_delete_where. apply filter_negb_negb. }
  destruct idx as [|i idx'] eqn:E; simpl.
  - rewrite <- H. symmetry. apply np_delete_nil.
  - exact H.
Qed.

Lemma swap_Al_larger_than_Ah_canonical (FY : list event) :
  swap_Al_larger_than_Ah FY = map canonical FY.
Proof.
  unfold swap_Al_larger_than_Ah.
  pose proof (fold_update_where (fun e => A1sci e >? A2sci e)
                swap_light_heavy FY) as H.
  destruct (np_where (fun e => A1sci e >? A2sci e) FY) eqn:E; simpl.
  - simpl in H. exact H.
  - exact H.
Qed.

Lemma filter_map_comm {A B : Type} (f : A -> B) (p : B -> bool) (l : list A) :
  filter p (map f l) = map f (filter (fun x => p (f x)) l).
Proof.
  induction l as [|x t IH]; [reflexivity|].
  simpl. destruct (p (f x)); simpl; rewrite IH; reflexivity.
Qed.

Lemma count_rows_split (FY : list event) (A_compound : Z) (k : key) :
  count_rows k (map key_of (map canonical (surviving FY A_compound)))
  = occurrence_count FY A_compound k.
Proof.
  unfold count_rows, occurrence_count, events_of_split.
  rewrite map_map, filter_map_comm, length_map. reflexivity.
Qed.

Lemma combine_map3 {A B C D E : Type} (f1 : A -> B) (f2 : A -> C)
    (f3 : A -> D) (g : B -> C -> D -> E) (l : list A) :
  map (fun '(p, y, s) => g p y s)
      (combine (combine (map f1 l) (map f2 l)) (map f3 l))
  = map (fun x => g (f1 x) (f2 x) (f3 x)) l.
Proof. induction l as [|x t IH]; [reflexivity|]. simpl. rewrite IH. reflexivity. Qed.

Lemma skipn_repeat {A : Type} (x : A) (n m : nat) :
  skipn n (repeat x m) = repeat x (m - n).
Proof.
  revert m. induction n as [|n IH]; intros m.
  - rewrite Nat.sub_0_r. reflexivity.
  - destruct m as [|m]; [reflexivity|]. simpl. apply IH.
Qed.

Lemma take_of_map {A B : Type} (d : A) (l : list A) (f : B -> nat)
    (idx : list B) :
  take d l (map f idx) = map (fun k => nth (f k) l d) idx.
Proof. unfold take. apply map_map. Qed.

Lemma filter_length_map {A B : Type} (f : A -> B) (p : B -> bool) (l : list A) :
  List.length (filter p (map f l)) = List.length (filter (fun x => p (f x)) l).
Proof. rewrite filter_map_comm, length_map. reflexivity. Qed.

(** The reducer, with the index arithmetic of numpy resolved. *)
Lemma GEF_FY_for_TALYS_closed (np_sqrt : Q -> Q) (columns : nat)
    (FY : list event) (A_compound : Z) (num_of_events : nat) :
  GEF_FY_for_TALYS np_sqrt columns FY A_compound num_of_events
  = let R := retained_splits FY A_compound in
    if (300 <? List.length R)%nat then Raises ValueError
    else if (List.length R =? 0)%nat then Raises UnboundLocalError
    else Returns
           (map (reduced_row np_sqrt columns FY A_compound) R
            ++ repeat (zero_row (if (columns =? 7)%nat then 0 else 8))
                      (300 - List.length R),
            singleton_count FY A_compound).
Proof.
  unfold GEF_FY_for_TALYS, populate_FY_TALYS, np_unique.
  rewrite delete_multichance_surviving, swap_Al_larger_than_Ah_canonical.
  cbv zeta.
  set (S := surviving FY A_compound).
  set (u := sort_rows (nodup key_eq_dec (map key_of (map canonical S)))).
  assert (Hu : u = unique_splits FY A_compound).
  { unfold u, unique_splits, split_of. rewrite map_map. reflexivity. }
  assert (Hcount : forall k,
            count_rows k (map key_of (map canonical S))
            = occurrence_count FY A_compound k).
  { intros k. apply count_rows_split. }
  rewrite (take_where_map (fun k => first_index k (map key_of (map canonical S)))
             (fun k => count_rows k (map key_of (map canonical S)))
             (fun c => (1 <? c)%nat) O u).
  rewrite (take_where_map (fun k => count_rows k (map key_of (map canonical S)))
             (fun k => count_rows k (map key_of (map canonical S)))
             (fun c => (1 <? c)%nat) O u).
  rewrite (take_where_of_map (A:=key)
             (fun k => count_rows k (map key_of (map canonical S)))
             (fun c => (1 <? c)%nat) zero_key u).
  rewrite (filter_ext (fun k => (1 <? count_rows k (map key_of (map canonical S)))%nat)
             (fun k => (1 <? occurrence_count FY A_compound k)%nat)
             (fun k => f_equal (Nat.ltb 1) (Hcount k))).
  rewrite filter_length_map.
  rewrite (filter_ext (fun k => (count_rows k (map key_of (map canonical S)) =? 1)%nat)
             (fun k => (occurrence_count FY A_compound k =? 1)%nat)
             (fun k => f_equal (fun c => Nat.eqb c 1) (Hcount k))).
  rewrite Hu. fold (retained_splits FY A_compound).
  fold (singleton_count FY A_compound).
  set (R := retained_splits FY A_compound).
  rewrite (take_of_map zero_event (map canonical S)).
  rewrite (map_map (fun k => count_rows k (map key_of (map canonical S)))).
  rewrite (combine_map3 _ _ _ (summary_row np_sqrt columns)).
  rewrite !length_map.
  destruct (300 <? List.length R)%nat; [reflexivity|].
  destruct (List.length R =? 0)%nat eqn:E0; [reflexivity|].
  rewrite skipn_repeat. f_equal. f_equal. f_equal.
  apply map_ext. intros k. unfold reduced_row.
  rewrite take_where, Hcount.
  unfold events_of_split. fold S.
  rewrite (filter_map_comm canonical).
  unfold split_of. rewrite <- (map_map canonical key_of). reflexivity.
Qed.

(* ------------------------------------------------------------------ *)
(** ** Counting the events of the unique splits *)

Lemma list_sum_map_add {A : Type} (g h : A -> nat) (l : list A) :
  list_sum (map (fun k => (g k + h k)%nat) l)
  = (list_sum (map g l) + list_sum (map h l))%nat.
Proof. induction l as [|x t IH]; simpl; [reflexivity|]. rewrite IH. lia. Qed.

Lemma indicator_absent (a : key) (u : list key) :
  ~ In a u ->
  list_sum (map (fun k => if key_eqb k a then 1%nat else 0%nat) u) = 0%nat.
Proof.
  induction u as [|h t IH]; intros Hn; simpl; [reflexivity|].
  destruct (key_eqb h a) eqn:E.
  - apply key_eqb_eq in E. subst h. exfalso. apply Hn. left. reflexivity.
  - apply IH. intros Hin. apply Hn. right. exact Hin.
Qed.

Lemma indicator_present (a : key) (u : list key) :
  NoDup u -> In a u ->
  list_sum (map (fun k => if key_eqb k a then 1%nat else 0%nat) u) = 1%nat.
Proof.
  induction u as [|h t IH]; intros Hnd Hin; [contradiction|].
  inversion Hnd as [|? ? Hnotin Hnd']; subst. simpl.
  destruct (key_eqb h a) eqn:E.
  - apply key_eqb_eq in E. subst h. rewrite indicator_absent by exact Hnotin.
    reflexivity.
  - destruct Hin as [Heq|Hin].
    + subst h. rewrite key_eqb_refl in E. discriminate.
    + simpl. apply IH; assumption.
Qed.

(** Every event is counted for exactly one of the distinct keys. *)
Lemma counts_cover {A : Type} (f : A -> key) (u : list key) (l : list A) :
  NoDup u -> (forall x, In x l -> In (f x) u) ->
  list_sum (map (fun k => List.length (filter (fun e => key_eqb k (f e)) l)) u)
  = List.length l.
Proof.
  intros Hnd. induction l as [|x t IH]; intros Hin.
  - clear Hnd Hin. induction u as [|h u' IHu]; [reflexivity|exact IHu].
  - rewrite (map_ext _
      (fun k => ((if key_eqb k (f x) then 1 else 0)
                 + List.length (filter (fun e => key_eqb k (f e)) t))%nat)).
    + rewrite list_sum_map_add, indicator_present, IH.
      * reflexivity.
      * intros y Hy. apply Hin. right. exact Hy.
      * exact Hnd.
      * apply Hin. left. reflexivity.
    + intros k. simpl. destruct (key_eqb k (f x)); reflexivity.
Qed.

Lemma occurrence_count_total (FY : list event) (A_compound : Z) :
  list_sum (map (occurrence_count FY A_compound) (unique_splits FY A_compound))
  = List.length (surviving FY A_compound).
Proof.
  unfold occurrence_count, events_of_split, unique_splits.
  apply counts_cover.
  - apply unique_NoDup.
  - intros x Hx. apply unique_In. apply in_map. exact Hx.
Qed.

Lemma occurrence_count_positive (FY : list event) (A_compound : Z) (k : key) :
  In k (unique_splits FY A_compound) ->
  (1 <= occurrence_count FY A_compound k)%nat.
Proof.
  unfold unique_splits. intros H. apply (proj1 (unique_In _ _)) in H.
  apply in_map_iff in H. destruct H as [e [He Hin]].
  unfold occurrence_count, events_of_split.
  assert (Hf : In e (filter (fun e0 => key_eqb k (split_of e0))
                            (surviving FY A_compound))).
  { apply filter_In. split; [exact Hin|]. rewrite He. apply key_eqb_refl. }
  destruct (filter _ _); [contradiction|]. simpl. lia.
Qed.

(** The events split into those of the retained splits and one event for
    each singleton split. *)
Lemma sum_multi_single {A : Type} (c : A -> nat) (u : list A) :
  (forall k, In k u -> (1 <= c k)%nat) ->
  list_sum (map c u)
  = (list_sum (map c (filter (fun k => (1 <? c k)%nat) u))
     + List.length (filter (fun k => (c k =? 1)%nat) u))%nat.
Proof.
  induction u as [|h t IH]; intros Hpos; [reflexivity|].
  simpl. rewrite IH by (intros k Hk; apply Hpos; right; exact Hk).
  assert (H1 : (1 <= c h)%nat) by (apply Hpos; left; reflexivity).
  destruct (1 <? c h)%nat eqn:E1; destruct (c h =? 1)%nat eqn:E2; simpl.
  - apply Nat.ltb_lt in E1. apply Nat.eqb_eq in E2. lia.
  - lia.
  - apply Nat.eqb_eq in E2. lia.
  - apply Nat.ltb_ge in E1. apply Nat.eqb_neq in E2. lia.
Qed.

(** The denominator of the yields is the number of events of the retained
    splits. *)
Lemma retained_events (FY : list event) (A_compound : Z) :
  (Z.of_nat (List.length (surviving FY A_compound))
   - Z.of_nat (singleton_count FY A_compound))%Z
  = Z.of_nat (list_sum (map (occurrence_count FY A_compound)
                            (retained_splits FY A_compound))).
Proof.
  rewrite <- occurrence_count_total.
  rewrite (sum_multi_single (occurrence_count FY A_compound)).
  - unfold retained_splits, singleton_count. lia.
  - intros k. apply occurrence_count_positive.
Qed.

Lemma retained_events_positive (FY : list event) (A_compound : Z) :
  (0 < List.length (retained_splits FY A_compound))%nat ->
  (0 < list_sum (map (occurrence_count FY A_compound)
                     (retained_splits FY A_compound)))%nat.
Proof.
  unfold retained_splits.
  destruct (filter _ (unique_splits FY A_compound)) as [|k t] eqn:E;
    simpl; [lia|]. intros _.
  assert (Hk : In k (k :: t)) by (left; reflexivity).
  rewrite <- E in Hk. apply filter_In in Hk. destruct Hk as [_ Hk].
  apply Nat.ltb_lt in Hk. lia.
Qed.

Lemma Qsum_app (l1 l2 : list Q) : (Qsum (l1 ++ l2) == Qsum l1 + Qsum l2)%Q.
Proof.
  induction l1 as [|x t IH]; simpl.
  - ring.
  - rewrite IH. ring.
Qed.

Lemma Qsum_repeat_zero (n : nat) : (Qsum (repeat 0%Q n) == 0)%Q.
Proof. induction n as [|n IH]; simpl; [reflexivity|]. rewrite IH. ring. Qed.

Lemma Qsum_fractions {A : Type} (c : A -> nat) (d : Q) (l : list A) :
  (Qsum (map (fun k => Qnat (c k) / d) l) == Qnat (list_sum (map c l)) / d)%Q.
Proof.
  induction l as [|x t IH]; simpl.
  - unfold Qnat. simpl. unfold Qdiv. ring.
  - rewrite IH. unfold Qnat. rewrite Nat2Z.inj_add, inject_Z_plus.
    unfold Qdiv. ring.
Qed.

(* ------------------------------------------------------------------ *)
(** ** What the reducer returns *)

Lemma first_index_key {A : Type} (f : A -> key) (d : A) (l : list A) (k : key) :
  In k (map f l) -> f (nth (first_index k (map f l)) l d) = k.
Proof.
  induction l as [|x t IH]; intros H; [contradiction|].
  simpl. destruct (key_eqb k (f x)) eqn:E.
  - apply key_eqb_eq in E. symmetry. exact E.
  - apply IH. destruct H as [H|H]; [|exact H].
    rewrite H, key_eqb_refl in E. discriminate.
Qed.

Lemma retained_in_unique (FY : list event) (A_compound : Z) (k : key) :
  In k (retained_splits FY A_compound) ->
  In k (map split_of (surviving FY A_compound)).
Proof.
  unfold retained_splits, unique_splits. intros H.
  apply filter_In in H. destruct H as [H _].
  apply (proj1 (unique_In _ _)) in H. exact H.
Qed.

Lemma reduced_row_key (np_sqrt : Q -> Q) (columns : nat) (FY : list event)
    (A_compound : Z) (k : key) :
  In k (retained_splits FY A_compound) ->
  row_key (reduced_row np_sqrt columns FY A_compound k) = k.
Proof.
  intros H. apply retained_in_unique in H.
  unfold reduced_row, row_key, summary_row; simpl.
  unfold split_of in *. rewrite <- (map_map canonical key_of) in *.
  apply (first_index_key key_of zero_event) in H.
  unfold key_of in H at 1. exact H.
Qed.

Lemma firstn_map_app {A B : Type} (g : A -> B) (l : list A) (rest : list B) :
  firstn (List.length l) (map g l ++ rest) = map g l.
Proof.
  induction l as [|x t IH]; simpl; [reflexivity|]. rewrite IH. reflexivity.
Qed.

Lemma Forall2_map_r {A B : Type} (P : A -> B -> Prop) (g : A -> B) (l : list A) :
  (forall x, In x l -> P x (g x)) -> Forall2 P l (map g l).
Proof.
  induction l as [|x t IH]; intros H; simpl; constructor.
  - apply H. left. reflexivity.
  - apply IH. intros y Hy. apply H. right. exact Hy.
Qed.

(** A call that returns has written one row for each retained split and
    left the other rows zero. *)
Lemma GEF_FY_for_TALYS_returns (np_sqrt : Q -> Q) (columns : nat)
    (FY : list event) (A_compound : Z) (num_of_events : nat)
    (t : list ff_row) (ign : nat) :
  GEF_FY_for_TALYS np_sqrt columns FY A_compound num_of_events = Returns (t, ign) ->
  (0 < List.length (retained_splits FY A_compound) <= 300)%nat
  /\ ign = singleton_count FY A_compound
  /\ t = map (reduced_row np_sqrt columns FY A_compound)
             (retained_splits FY A_compound)
         ++ repeat (zero_row (if (columns =? 7)%nat then 0 else 8))
                   (300 - List.length (retained_splits FY A_compound)).
Proof.
  rewrite GEF_FY_for_TALYS_closed. cbv zeta.
  destruct (300 <? List.length (retained_splits FY A_compound))%nat eqn:E1;
    [discriminate|].
  destruct (List.length (retained_splits FY A_compound) =? 0)%nat eqn:E0;
    [discriminate|].
  intros H. inversion H; subst.
  apply Nat.ltb_ge in E1. apply Nat.eqb_neq in E0.
  repeat split; lia.
Qed.

(** The reducer returns exactly when between 1 and 300 splits are
    retained. *)
Lemma GEF_FY_for_TALYS_total (np_sqrt : Q -> Q) (columns : nat)
    (FY : list event) (A_compound : Z) (num_of_events : nat) :
  (0 < List.length (retained_splits FY A_compound) <= 300)%nat ->
  exists t,
    GEF_FY_for_TALYS np_sqrt columns FY A_compound num_of_events
    = Returns (t, singleton_count FY A_compound).
Proof.
  intros [H0 H1]. rewrite GEF_FY_for_TALYS_closed. cbv zeta.
  destruct (300 <? List.length (retained_splits FY A_compound))%nat eqn:E1.
  { apply Nat.ltb_lt in E1. lia. }
  destruct (List.length (retained_splits FY A_compound) =? 0)%nat eqn:E0.
  { apply Nat.eqb_eq in E0. lia. }
  eexists. reflexivity.
Qed.

Lemma written_rows_returned (np_sqrt : Q -> Q) (columns : nat)
    (FY : list event) (A_compound : Z) (num_of_events : nat)
    (t : list ff_row) (ign : nat) :
  GEF_FY_for_TALYS np_sqrt columns FY A_compound num_of_events = Returns (t, ign) ->
  written_rows (List.length (retained_splits FY A_compound)) t
  = map (reduced_row np_sqrt columns FY A_compound)
        (retained_splits FY A_compound).
Proof.
  intros H. apply GEF_FY_for_TALYS_returns in H. destruct H as [_ [_ ->]].
  unfold written_rows. apply firstn_map_app.
Qed.

(** Ten events, three splits occurring 5, 4 and 1 times: two rows are
    written, with the yields 4/9 and 5/9, and one singleton is ignored. *)
Example ten_events_reduced :
  exists t,
    GEF_FY_for_TALYS sqrt_9 7 FY_ten_events 236 10 = Returns (t, 1%nat)
    /\ List.length t = 300%nat
    /\ map row_key (written_rows 2 t) = [(38, 96, 54, 140); (40, 100, 52, 136)]
    /\ Forall2 Qeq (map ff_yield (written_rows 2 t)) [(4 # 9)%Q; (5 # 9)%Q]
    /\ skipn 2 t = repeat (zero_row 0) 298.
Proof.
  eexists. split; [vm_compute; reflexivity|].
  split; [reflexivity|]. split; [reflexivity|]. split.
  - repeat constructor.
  - vm_compute. reflexivity.
Qed.

(** A table without a split that occurs twice: the [del] of the loop
    variables fails. *)
Example no_retained_split_raises :
  GEF_FY_for_TALYS sqrt_9 7 [lmd_event 40 100 52 136 170 10 20] 236 1
  = Raises UnboundLocalError.
Proof. reflexivity. Qed.

(** 300 retained splits fill the table; 301 cannot be broadcast into it. *)
Example table_capacity :
  (exists t, GEF_FY_for_TALYS sqrt_9 7 (FY_many_splits 300) 236 600
             = Returns (t, 0%nat))
  /\ GEF_FY_for_TALYS sqrt_9 7 (FY_many_splits 301) 236 602 = Raises ValueError.
Proof.
  split.
  - apply GEF_FY_for_TALYS_total. vm_compute. lia.
  - rewrite GEF_FY_for_TALYS_closed. cbv zeta.
    assert (E : List.length (retained_splits (FY_many_splits 301) 236) = 301%nat)
      by (vm_compute; reflexivity).
    rewrite E. reflexivity.
Qed.

(* ------------------------------------------------------------------ *)
(** ** The yield column *)

(** C1 (as amended).  Whenever the reducer returns a summary, the yield of
    each retained split is its occurrence count divided by the number of
    events that remain after the multi-chance filter minus the number of
    singleton splits; and the reducer returns a summary whenever between 1
    and 300 splits are retained. *)
Theorem yield_is_count_over_surviving_events (np_sqrt : Q -> Q)
    (columns : nat) (FY : list event) (A_compound : Z) (num_of_events : nat) :
  (forall t ign,
     GEF_FY_for_TALYS np_sqrt columns FY A_compound num_of_events
     = Returns (t, ign) ->
     ign = singleton_count FY A_compound
     /\ Forall2
          (fun k r =>
             row_key r = k
             /\ (ff_yield r
                 == Qnat (occurrence_count FY A_compound k)
                    / inject_Z (Z.of_nat (List.length (surviving FY A_compound))
                                - Z.of_nat ign))%Q)
          (retained_splits FY A_compound)
          (written_rows (List.length (retained_splits FY A_compound)) t))
  /\ ((0 < List.length (retained_splits FY A_compound) <= 300)%nat ->
      exists t,
        GEF_FY_for_TALYS np_sqrt columns FY A_compound num_of_events
        = Returns (t, singleton_count FY A_compound)).
Proof.
  split; [|apply GEF_FY_for_TALYS_total].
  intros t ign H.
  rewrite (written_rows_returned _ _ _ _ _ _ _ H).
  apply GEF_FY_for_TALYS_returns in H. destruct H as [_ [-> _]].
  split; [reflexivity|].
  apply Forall2_map_r. intros k Hk. split.
  - apply reduced_row_key. exact Hk.
  - unfold reduced_row, summary_row. simpl. reflexivity.
Qed.

(** With the two fissions and the multi-chance event: the one retained
    split has yield 2/(2-0). *)
Lemma yield_is_count_over_surviving_events_witness :
  exists t,
    GEF_FY_for_TALYS sqrt_9 7 FY_with_multichance 236 3 = Returns (t, 0%nat)
    /\ Forall2
         (fun k r =>
            row_key r = k
            /\ (ff_yield r
                == Qnat (occurrence_count FY_with_multichance 236 k)
                   / inject_Z (Z.of_nat (List.length
                                 (surviving FY_with_multichance 236))
                               - Z.of_nat 0))%Q)
         (retained_splits FY_with_multichance 236)
         (written_rows (List.length (retained_splits FY_with_multichance 236)) t).
Proof.
  destruct (yield_is_count_over_surviving_events sqrt_9 7 FY_with_multichance
              236 3) as [Hyield Hret].
  destruct Hret as [t Ht]; [vm_compute; lia|].
  exists t. split; [exact Ht|].
  exact (proj2 (Hyield t _ Ht)).
Defined.

(** C1 (as stated) fails.  Of three raw events one is a multi-chance event:
    the split that occurs twice gets the yield 2/2, not 2/(3-0). *)
Lemma yield_denominator_is_not_raw_count :
  exists t,
    GEF_FY_for_TALYS sqrt_9 7 FY_with_multichance 236 3 = Returns (t, 0%nat)
    /\ retained_splits FY_with_multichance 236 = [(40, 100, 52, 136)]
    /\ occurrence_count FY_with_multichance 236 (40, 100, 52, 136) = 2%nat
    /\ row_key (nth 0 t (zero_row 0)) = (40, 100, 52, 136)
    /\ (ff_yield (nth 0 t (zero_row 0)) == 1)%Q
    /\ ~ (ff_yield (nth 0 t (zero_row 0))
          == Qnat 2 / inject_Z (Z.of_nat (List.length FY_with_multichance)
                                - Z.of_nat 0))%Q.
Proof.
  eexists. split; [vm_compute; reflexivity|].
  repeat split; try (vm_compute; reflexivity).
  vm_compute. discriminate.
Qed.

Lemma yield_column_sum (np_sqrt : Q -> Q) (columns : nat) (FY : list event)
    (A_compound : Z) :
  (0 < List.length (retained_splits FY A_compound))%nat ->
  (Qsum (map ff_yield
           (map (reduced_row np_sqrt columns FY A_compound)
                (retained_splits FY A_compound))) == 1)%Q.
Proof.
  intros Hpos. rewrite map_map. unfold reduced_row, summary_row. simpl.
  rewrite Qsum_fractions, retained_events.
  apply retained_events_positive in Hpos.
  unfold Qnat. apply Qmult_inv_r.
  intros H. unfold Qeq in H. simpl in H. lia.
Qed.

Lemma zero_rows_yield (plus n : nat) :
  map ff_yield (repeat (zero_row plus) n) = repeat 0%Q n.
Proof. induction n as [|n IH]; simpl; [reflexivity|]. rewrite IH. reflexivity. Qed.

Lemma yields_nonnegative (np_sqrt : Q -> Q) (columns : nat) (FY : list event)
    (A_compound : Z) :
  (0 < List.length (retained_splits FY A_compound))%nat ->
  Forall (fun y => 0 <= y)%Q
    (map ff_yield
       (map (reduced_row np_sqrt columns FY A_compound)
            (retained_splits FY A_compound)
        ++ repeat (zero_row (if (columns =? 7)%nat then 0 else 8))
             (300 - List.length (retained_splits FY A_compound)))).
Proof.
  intros Hpos. rewrite map_app, zero_rows_yield. apply Forall_app. split.
  - rewrite map_map. apply Forall_forall. intros y Hy.
    apply in_map_iff in Hy. destruct Hy as [k [<- _]].
    unfold reduced_row, summary_row. simpl.
    rewrite retained_events. apply retained_events_positive in Hpos.
    apply Qle_shift_div_l.
    + change 0%Q with (inject_Z 0). rewrite <- Zlt_Qlt. lia.
    + rewrite Qmult_0_l. unfold Qnat. change 0%Q with (inject_Z 0).
      rewrite <- Zle_Qle. lia.
  - apply Forall_forall. intros y Hy. apply repeat_spec in Hy. subst y.
    apply Qle_refl.
Qed.

(** Storing nonnegative numbers with a relative error of at most [eps]
    moves their sum by at most [eps] times the sum. *)
Lemma stored_sum_close (store : Q -> Q) (eps : Q) (l : list Q) :
  (forall x, 0 <= x -> Qabs (store x - x) <= eps * x)%Q ->
  Forall (fun y => 0 <= y)%Q l ->
  (Qabs (Qsum (map store l) - Qsum l) <= eps * Qsum l)%Q.
Proof.
  intros Hstore Hall. induction Hall as [|y t Hy Ht IH].
  - change (Qabs (0 - 0) <= eps * 0)%Q.
    apply (proj2 (Qabs_Qle_condition _ _)). split; lra.
  - change (Qabs (store y + Qsum (map store t) - (y + Qsum t))
            <= eps * (y + Qsum t))%Q.
    specialize (Hstore y Hy).
    apply (proj1 (Qabs_Qle_condition _ _)) in Hstore.
    apply (proj1 (Qabs_Qle_condition _ _)) in IH.
    apply (proj2 (Qabs_Qle_condition _ _)).
    assert (E : (eps * (y + Qsum t) == eps * y + eps * Qsum t)%Q) by ring.
    rewrite E. split; lra.
Qed.



(* ------------------------------------------------------------------ *)
(** ** The multi-chance filter *)

Lemma GEF_FY_for_TALYS_surviving (np_sqrt : Q -> Q) (columns : nat)
    (FY FY' : list event) (A_compound : Z) (n n' : nat) :
  surviving FY' A_compound = surviving FY A_compound ->
  GEF_FY_for_TALYS np_sqrt columns FY' A_compound n'
  = GEF_FY_for_TALYS np_sqrt columns FY A_compound n.
Proof.
  intros H. unfold GEF_FY_for_TALYS.
  rewrite !delete_multichance_surviving, H. reflexivity.
Qed.

(** C3.  The first step of the reducer deletes exactly the events whose
    two mass numbers, in the columns as recorded, do not add up to the
    compound mass number, and keeps the others in order; the swap loop and
    everything after it run on the table that is left; and the result is
    the same for two raw tables that leave the same events, so that no
    deleted event contributes to the summary or to the singleton count. *)
Theorem multichance_events_removed_first (np_sqrt : Q -> Q) (columns : nat)
    (FY : list event) (A_compound : Z) (num_of_events : nat) :
  delete_multichance FY A_compound
  = filter (fun e => A1sci e + A2sci e =? A_compound) FY
  /\ (forall e, In e (delete_multichance FY A_compound)
                <-> In e FY /\ A1sci e + A2sci e = A_compound)
  /\ GEF_FY_for_TALYS np_sqrt columns FY A_compound num_of_events
     = populate_FY_TALYS np_sqrt columns
         (repeat (zero_row (if (columns =? 7)%nat then 0 else 8)) 300)
         (swap_Al_larger_than_Ah (delete_multichance FY A_compound))
  /\ swap_Al_larger_than_Ah (delete_multichance FY A_compound)
     = map canonical (filter (fun e => A1sci e + A2sci e =? A_compound) FY)
  /\ (forall FY' n',
        filter (fun e => A1sci e + A2sci e =? A_compound) FY'
        = filter (fun e => A1sci e + A2sci e =? A_compound) FY ->
        GEF_FY_for_TALYS np_sqrt columns FY' A_compound n'
        = GEF_FY_for_TALYS np_sqrt columns FY A_compound num_of_events).
Proof.
  assert (Hdel : delete_multichance FY A_compound
                 = filter (fun e => A1sci e + A2sci e =? A_compound) FY)
    by apply delete_multichance_surviving.
  split; [exact Hdel|]. split.
  { intros e. rewrite Hdel, filter_In, Z.eqb_eq. reflexivity. }
  split; [reflexivity|]. split.
  { rewrite swap_Al_larger_than_Ah_canonical, Hdel. reflexivity. }
  intros FY' n' H. apply GEF_FY_for_TALYS_surviving. exact H.
Qed.

(** The table with the multi-chance event and the table without it leave
    the same events, and are reduced to the same summary. *)
Lemma multichance_events_removed_first_witness :
  GEF_FY_for_TALYS sqrt_9 7 FY_with_multichance 236 3
  = GEF_FY_for_TALYS sqrt_9 7 FY_without_multichance 236 2.
Proof.
  apply (proj2 (proj2 (proj2 (proj2
           (multichance_events_removed_first sqrt_9 7 FY_without_multichance
              236 2))))).
  reflexivity.
Defined.

(* ------------------------------------------------------------------ *)
(** ** Canonicalisation and the energy columns *)

Lemma canonical_energies (e : event) :
  TKEpre (canonical e) = TKEpre e
  /\ Eexc1 (canonical e) = Eexc1 e /\ Eexc2 (canonical e) = Eexc2 e
  /\ En_light (canonical e) = En_light e /\ En_heavy (canonical e) = En_heavy e
  /\ Eg_light (canonical e) = Eg_light e /\ Eg_heavy (canonical e) = Eg_heavy e.
Proof. unfold canonical. destruct (A1sci e >? A2sci e); simpl; tauto. Qed.

Lemma map_canonical_column {B : Type} (col : event -> B) (l : list event) :
  (forall e, col (canonical e) = col e) ->
  map col (map canonical l) = map col l.
Proof. intros H. rewrite map_map. apply map_ext. exact H. Qed.

(** C9.  An event recorded with the larger mass first has its two (Z, A)
    pairs exchanged and every energy column left where it was; and in a
    returned summary the energy columns of the row of a split are the
    means and standard deviations of the columns, as recorded, of the
    surviving events that count for the split: column 5 of the raw table
    gives the light-fragment mean and standard deviation also where it
    holds the values of the fragment that was listed first and is the
    heavier one. *)
Theorem swap_leaves_energy_columns (np_sqrt : Q -> Q) (columns : nat)
    (FY : list event) (A_compound : Z) (num_of_events : nat) :
  (forall e, A1sci e > A2sci e ->
     Z1 (canonical e) = Z2 e /\ A1sci (canonical e) = A2sci e
     /\ Z2 (canonical e) = Z1 e /\ A2sci (canonical e) = A1sci e
     /\ TKEpre (canonical e) = TKEpre e
     /\ Eexc1 (canonical e) = Eexc1 e /\ Eexc2 (canonical e) = Eexc2 e
     /\ En_light (canonical e) = En_light e
     /\ En_heavy (canonical e) = En_heavy e
     /\ Eg_light (canonical e) = Eg_light e
     /\ Eg_heavy (canonical e) = Eg_heavy e)
  /\ (forall t ign,
        GEF_FY_for_TALYS np_sqrt columns FY A_compound num_of_events
        = Returns (t, ign) ->
        Forall2
          (fun k r =>
             let sel := events_of_split FY A_compound k in
             row_key r = k
             /\ ff_TKE r = np_mean (map TKEpre sel)
             /\ ff_Eexc1 r = np_mean (map Eexc1 sel)
             /\ ff_W1 r = np_std np_sqrt (map Eexc1 sel)
             /\ ff_Eexc2 r = np_mean (map Eexc2 sel)
             /\ ff_W2 r = np_std np_sqrt (map Eexc2 sel)
             /\ (columns = 11%nat ->
                 ff_plus r
                 = [ np_mean (map En_light sel); np_std np_sqrt (map En_light sel);
                     np_mean (map En_heavy sel); np_std np_sqrt (map En_heavy sel);
                     np_mean (map Eg_light sel); np_std np_sqrt (map Eg_light sel);
                     np_mean (map Eg_heavy sel); np_std np_sqrt (map Eg_heavy sel) ]))
          (retained_splits FY A_compound)
          (written_rows (List.length (retained_splits FY A_compound)) t)).
Proof.
  split.
  - intros e H. unfold canonical.
    apply Z.gt_lt, Z.gtb_lt in H. rewrite H. simpl. tauto.
  - intros t ign H.
    rewrite (written_rows_returned _ _ _ _ _ _ _ H).
    apply Forall2_map_r. intros k Hk. cbv zeta.
    split; [apply reduced_row_key; exact Hk|].
    unfold reduced_row, summary_row. simpl.
    rewrite !(map_canonical_column TKEpre), !(map_canonical_column Eexc1),
      !(map_canonical_column Eexc2)
      by (intros e; apply (canonical_energies e)).
    repeat (split; [reflexivity|]).
    intros ->. simpl.
    rewrite !(map_canonical_column En_light), !(map_canonical_column En_heavy),
      !(map_canonical_column Eg_light), !(map_canonical_column Eg_heavy)
      by (intros e; apply (canonical_energies e)).
    reflexivity.
Qed.

(** The split (40,100)+(52,136) recorded once in each order, with the
    excitation energies 10 and 22 in column 5: the light-fragment mean of
    the summary is the mean of column 5, which is 16, although the 22 is
    the excitation energy of the fragment of mass 136. *)
Lemma swap_leaves_energy_columns_witness :
  exists t,
    GEF_FY_for_TALYS sqrt_9 7 FY_swapped 236 2 = Returns (t, 0%nat)
    /\ Forall2
         (fun k r =>
            row_key r = k
            /\ ff_Eexc1 r = np_mean (map Eexc1 (events_of_split FY_swapped 236 k)))
         (retained_splits FY_swapped 236)
         (written_rows (List.length (retained_splits FY_swapped 236)) t)
    /\ retained_splits FY_swapped 236 = [(40, 100, 52, 136)]
    /\ map Eexc1 (events_of_split FY_swapped 236 (40, 100, 52, 136))
       = [10%Q; 22%Q]
    /\ (np_mean [10%Q; 22%Q] == 16)%Q.
Proof.
  destruct (GEF_FY_for_TALYS_total sqrt_9 7 FY_swapped 236 2) as [t Ht];
    [vm_compute; lia|].
  exists t. split; [exact Ht|]. split.
  - pose proof (proj2 (swap_leaves_energy_columns sqrt_9 7 FY_swapped 236 2)
                  t _ Ht) as H.
    revert H. apply Forall2_impl. intros k r H. cbv zeta in H. tauto.
  - repeat split; vm_compute; reflexivity.
Defined.

(* ------------------------------------------------------------------ *)
(** ** Rounding *)

Local Open Scope Q_scope.

Lemma inject_Z_le (a b : Z) : (a <= b)%Z -> inject_Z a <= inject_Z b.
Proof. intros H. rewrite <- Zle_Qle. exact H. Qed.

Lemma inject_Z_lt (a b : Z) : (a < b)%Z -> inject_Z a < inject_Z b.
Proof. intros H. rewrite <- Zlt_Qlt. exact H. Qed.

Lemma round_half_even_between (q : Q) :
  round_half_even q = Qfloor q \/ round_half_even q = (Qfloor q + 1)%Z.
Proof.
  unfold round_half_even.
  destruct (q - inject_Z (Qfloor q) ?= 1 # 2); auto.
  destruct (Z.even (Qfloor q)); auto.
Qed.

(** The rounded value is at most one half away. *)
Lemma round_half_even_close (q : Q) :
  Qabs (inject_Z (round_half_even q) - q) <= 1 # 2.
Proof.
  pose proof (Qfloor_le q) as Hlo. pose proof (Qlt_floor q) as Hhi.
  rewrite inject_Z_plus in Hhi. change (inject_Z 1) with 1 in Hhi.
  apply Qabs_Qle_condition. unfold round_half_even.
  destruct (Qcompare_spec (q - inject_Z (Qfloor q)) (1 # 2)) as [E|E|E].
  - destruct (Z.even (Qfloor q)).
    + lra.
    + rewrite inject_Z_plus. change (inject_Z 1) with 1. lra.
  - lra.
  - rewrite inject_Z_plus. change (inject_Z 1) with 1. lra.
Qed.

(** Rounding does not cross an integer. *)
Lemma round_half_even_ge (q : Q) (m : Z) :
  inject_Z m <= q -> (m <= round_half_even q)%Z.
Proof.
  intros H. apply Qfloor_resp_le in H. rewrite Qfloor_Z in H.
  destruct (round_half_even_between q) as [-> | ->]; lia.
Qed.

Lemma round_half_even_le (q : Q) (m : Z) :
  q <= inject_Z m -> (round_half_even q <= m)%Z.
Proof.
  intros H. destruct (Qlt_le_dec q (inject_Z m)) as [Hlt|Hge].
  - assert (Hf : (Qfloor q < m)%Z).
    { rewrite Zlt_Qlt. eapply Qle_lt_trans; [apply Qfloor_le|exact Hlt]. }
    destruct (round_half_even_between q) as [-> | ->]; lia.
  - assert (E : q == inject_Z m) by (apply Qle_antisym; assumption).
    assert (Hf : Qfloor q = m).
    { rewrite <- (Qfloor_Z m). apply Z.le_antisymm;
        apply Qfloor_resp_le; rewrite E; apply Qle_refl. }
    unfold round_half_even. rewrite Hf.
    assert (Hc : (q - inject_Z m ?= 1 # 2) = Lt).
    { apply (proj1 (Qlt_alt _ _)). lra. }
    rewrite Hc. lia.
Qed.

Lemma round_half_even_above_half (q : Q) :
  1 # 2 < q -> (1 <= round_half_even q)%Z.
Proof.
  intros H.
  assert (H0 : (0 <= Qfloor q)%Z).
  { rewrite <- (Qfloor_Z 0). apply Qfloor_resp_le.
    change (inject_Z 0) with 0. lra. }
  unfold round_half_even.
  destruct (Qcompare_spec (q - inject_Z (Qfloor q)) (1 # 2)) as [E|E|E].
  - destruct (Z.eq_dec (Qfloor q) 0) as [Hz|Hz].
    + rewrite Hz in E. change (inject_Z 0) with 0 in E. lra.
    + destruct (Z.even (Qfloor q)); lia.
  - destruct (Z.eq_dec (Qfloor q) 0) as [Hz|Hz]; [|lia].
    rewrite Hz in E. change (inject_Z 0) with 0 in E. lra.
  - lia.
Qed.

Lemma round_half_even_below_minus_half (q : Q) :
  q < - (1 # 2) -> (round_half_even q <= -1)%Z.
Proof.
  intros H.
  assert (H0 : (Qfloor q <= -1)%Z).
  { assert (Hf : (Qfloor q < 0)%Z).
    { rewrite Zlt_Qlt. eapply Qle_lt_trans; [apply Qfloor_le|].
      change (inject_Z 0) with 0. lra. }
    lia. }
  pose proof (Qfloor_le q) as Hlo.
  unfold round_half_even.
  destruct (Qcompare_spec (q - inject_Z (Qfloor q)) (1 # 2)) as [E|E|E].
  - destruct (Z.eq_dec (Qfloor q) (-1)) as [Hz|Hz].
    + rewrite Hz in E. change (inject_Z (-1)) with (-1 # 1) in E. lra.
    + destruct (Z.even (Qfloor q)); lia.
  - lia.
  - destruct (Z.eq_dec (Qfloor q) (-1)) as [Hz|Hz]; [|lia].
    rewrite Hz in E. change (inject_Z (-1)) with (-1 # 1) in E. lra.
Qed.

Lemma py_round_9 (x : Q) :
  py_round x 9 = inject_Z (round_half_even (x * (1000000000 # 1))) / (1000000000 # 1).
Proof. reflexivity. Qed.

(** Rounding to nine decimals moves a value by at most 5e-10. *)
Lemma py_round_close (x : Q) :
  Qabs (py_round x 9 - x) <= 1 # 2000000000.
Proof.
  rewrite py_round_9.
  pose proof (round_half_even_close (x * (1000000000 # 1))) as H.
  apply Qabs_Qle_condition in H. apply Qabs_Qle_condition.
  set (r := inject_Z (round_half_even (x * (1000000000 # 1)))) in *.
  unfold Qdiv. change (/ (1000000000 # 1)) with (1 # 1000000000).
  lra.
Qed.

Lemma py_round_ge (x : Q) (m : Z) :
  inject_Z m / (1000000000 # 1) <= x ->
  inject_Z m / (1000000000 # 1) <= py_round x 9.
Proof.
  intros H. rewrite py_round_9.
  assert (Hm : inject_Z m <= x * (1000000000 # 1)).
  { unfold Qdiv in H. change (/ (1000000000 # 1)) with (1 # 1000000000) in H.
    lra. }
  apply round_half_even_ge, inject_Z_le in Hm.
  unfold Qdiv. change (/ (1000000000 # 1)) with (1 # 1000000000). lra.
Qed.

Lemma py_round_le (x : Q) (m : Z) :
  x <= inject_Z m / (1000000000 # 1) ->
  py_round x 9 <= inject_Z m / (1000000000 # 1).
Proof.
  intros H. rewrite py_round_9.
  assert (Hm : x * (1000000000 # 1) <= inject_Z m).
  { unfold Qdiv in H. change (/ (1000000000 # 1)) with (1 # 1000000000) in H.
    lra. }
  apply round_half_even_le, inject_Z_le in Hm.
  unfold Qdiv. change (/ (1000000000 # 1)) with (1 # 1000000000). lra.
Qed.

Lemma py_round_nonneg (x : Q) : 0 <= x -> 0 <= py_round x 9.
Proof.
  intros H. pose proof (py_round_ge x 0) as H0.
  change (inject_Z 0 / (1000000000 # 1)) with (0 # 1000000000) in H0.
  assert (E : 0 # 1000000000 == 0) by reflexivity.
  rewrite E in H0. apply H0. exact H.
Qed.

Lemma py_round_nonpos (x : Q) : x <= 0 -> py_round x 9 <= 0.
Proof.
  intros H. pose proof (py_round_le x 0) as H0.
  change (inject_Z 0 / (1000000000 # 1)) with (0 # 1000000000) in H0.
  assert (E : 0 # 1000000000 == 0) by reflexivity.
  rewrite E in H0. apply H0. exact H.
Qed.

(** A value above 5e-10 does not round to zero. *)
Lemma py_round_pos (x : Q) : 1 # 2000000000 < x -> 0 < py_round x 9.
Proof.
  intros H. rewrite py_round_9.
  assert (Hm : 1 # 2 < x * (1000000000 # 1)) by lra.
  apply round_half_even_above_half, inject_Z_le in Hm.
  change (inject_Z 1) with 1 in Hm.
  unfold Qdiv. change (/ (1000000000 # 1)) with (1 # 1000000000). lra.
Qed.

Lemma py_round_neg (x : Q) : x < - (1 # 2000000000) -> py_round x 9 < 0.
Proof.
  intros H. rewrite py_round_9.
  assert (Hm : x * (1000000000 # 1) < - (1 # 2)) by lra.
  apply round_half_even_below_minus_half, inject_Z_le in Hm.
  change (inject_Z (-1)) with (-1 # 1) in Hm.
  unfold Qdiv. change (/ (1000000000 # 1)) with (1 # 1000000000). lra.
Qed.

(* ------------------------------------------------------------------ *)
(** ** Uniform sampling of an ordinary parameter *)

Lemma mem_In (x : string) (l : list string) : mem x l = true <-> In x l.
Proof.
  unfold mem. rewrite existsb_exists. split.
  - intros [y [Hy E]]. apply String.eqb_eq in E. subst y. exact Hy.
  - intros H. exists x. split; [exact H|apply String.eqb_refl].
Qed.

Lemma mem_not_In (x : string) (l : list string) : ~ In x l -> mem x l = false.
Proof.
  intros H. destruct (mem x l) eqn:E; [|reflexivity].
  apply mem_In in E. contradiction.
Qed.

Lemma Qabs_nonzero (u : Q) : ~ u == 0 -> 0 < Qabs u.
Proof.
  intros H. apply Qabs_case; intros H0.
  - destruct (Qlt_le_dec 0 u) as [Hlt|Hle]; [exact Hlt|].
    exfalso. apply H. apply Qle_antisym; assumption.
  - destruct (Qlt_le_dec u 0) as [Hlt|Hle]; [lra|].
    exfalso. apply H. apply Qle_antisym; assumption.
Qed.

Lemma create_uniform_ordinary (g : rng) (name : string) (rand_num u : Q) :
  mem name special_case_parameters = false -> ~ u == 0 ->
  create_perturbed_parameter_value g name rand_num u "uniform"
  = Some (Num (py_round (u / Qabs u * rand_num) 9)).
Proof.
  intros Hname Hu. unfold create_perturbed_parameter_value.
  rewrite String.eqb_refl, Hname. unfold float_div.
  destruct (Qeq_bool (Qabs u) 0) eqn:E.
  - apply Qeq_bool_iff in E. apply Qabs_nonzero in Hu. lra.
  - reflexivity.
Qed.

Lemma rng_uniform_In (g : rng) (low high : Q) (size : nat) (r : Q) :
  In r (rng_uniform g low high size) ->
  exists i, r = low + (high - low) * random g i.
Proof.
  unfold rng_uniform. intros H. apply in_map_iff in H.
  destruct H as [i [Hi _]]. exists i. symmetry. exact Hi.
Qed.

(** A draw of the uniform sampler lies between half and one and a half
    times the magnitude of the nominal value. *)
Lemma uniform_draw_range (a r : Q) :
  0 <= a -> 0 <= r <= 1 ->
  a * (1 - (1 # 2))
  <= (a - (1 # 2) * a) + ((a + (1 # 2) * a) - (a - (1 # 2) * a)) * r
  <= a * (1 + (1 # 2)).
Proof.
  intros Ha [Hr0 Hr1].
  assert (H0 : 0 <= a * r) by (apply Qmult_le_0_compat; assumption).
  assert (H1 : a * r <= a).
  { setoid_replace a with (a * 1) at 2 by ring.
    rewrite (Qmult_comm a r), (Qmult_comm a 1).
    apply Qmult_le_compat_r; assumption. }
  split.
  - setoid_replace ((a - (1 # 2) * a) + ((a + (1 # 2) * a) - (a - (1 # 2) * a)) * r)
      with (a * (1 - (1 # 2)) + a * r) by ring. lra.
  - setoid_replace ((a - (1 # 2) * a) + ((a + (1 # 2) * a) - (a - (1 # 2) * a)) * r)
      with (a * (1 - (1 # 2)) + a * r) by ring. lra.
Qed.

Lemma sign_times (u r : Q) :
  ~ u == 0 ->
  (0 < u -> u / Qabs u * r == r) /\ (u < 0 -> u / Qabs u * r == - r).
Proof.
  intros Hu. split; intros H.
  - rewrite Qabs_pos by lra. field. exact Hu.
  - rewrite Qabs_neg by lra. field. exact Hu.
Qed.

(** What holds of a magnitude in the range of the uniform sampler. *)
Lemma uniform_value_of_magnitude (g : rng) (name : string)
    (nominal rand_num : Q) :
  ~ In name special_case_parameters ->
  ~ nominal == 0 ->
  Qabs nominal * (1 - (1 # 2)) <= rand_num <= Qabs nominal * (1 + (1 # 2)) ->
  let v := nominal / Qabs nominal * rand_num in
  create_perturbed_parameter_value g name rand_num nominal "uniform"
  = Some (Num (py_round v 9))
  /\ (0 < nominal -> 0 < v) /\ (nominal < 0 -> v < 0)
  /\ Qabs nominal * (1 - (1 # 2)) <= Qabs v <= Qabs nominal * (1 + (1 # 2))
  /\ Qabs (py_round v 9 - v) <= 1 # 2000000000
  /\ (0 < nominal -> 0 <= py_round v 9)
  /\ (nominal < 0 -> py_round v 9 <= 0)
  /\ (1 # 1000000000 < Qabs nominal ->
      (0 < nominal -> 0 < py_round v 9)
      /\ (nominal < 0 -> py_round v 9 < 0)).
Proof.
  intros Hname Hu Hr v. apply mem_not_In in Hname.
  pose proof (Qabs_nonzero nominal Hu) as Ha.
  destruct (sign_times nominal rand_num Hu) as [Hpos Hneg].
  fold v in Hpos, Hneg.
  assert (Hv : Qabs v == rand_num).
  { destruct (Qlt_le_dec 0 nominal) as [H|H].
    - rewrite (Hpos H). apply Qabs_pos. lra.
    - assert (H' : nominal < 0).
      { destruct (Qlt_le_dec nominal 0) as [Hlt|Hge]; [exact Hlt|].
        exfalso. apply Hu. apply Qle_antisym; assumption. }
      rewrite (Hneg H'), Qabs_opp. apply Qabs_pos. lra. }
  split; [apply create_uniform_ordinary; assumption|].
  split; [intros H; rewrite (Hpos H); lra|].
  split; [intros H; rewrite (Hneg H); lra|].
  split; [rewrite Hv; exact Hr|].
  split; [apply py_round_close|].
  split; [intros H; apply py_round_nonneg; rewrite (Hpos H); lra|].
  split; [intros H; apply py_round_nonpos; rewrite (Hneg H); lra|].
  intros Hbig. split; intros H.
  - apply py_round_pos. rewrite (Hpos H). lra.
  - apply py_round_neg. rewrite (Hneg H). lra.
Qed.

Lemma uniform_magnitude_range (g : rng) (nominal rand_num : Q) (size : nat) :
  (forall i, 0 <= random g i <= 1) ->
  In rand_num
     (rng_uniform g (Qabs nominal - (1 # 2) * Qabs nominal)
        (Qabs nominal + (1 # 2) * Qabs nominal) size) ->
  Qabs nominal * (1 - (1 # 2)) <= rand_num <= Qabs nominal * (1 + (1 # 2)).
Proof.
  intros Hdraw Hin. apply rng_uniform_In in Hin. destruct Hin as [i Hi].
  rewrite Hi. apply uniform_draw_range; [apply Qabs_nonneg|apply Hdraw].
Qed.




(* ------------------------------------------------------------------ *)
(** ** Special-case parameters *)

Local Open Scope string_scope.

(** C7.  For a parameter of the special set the perturbed value is the
    same for any two nominal values, under every distribution name; under
    uniform and normal sampling it does not depend on the magnitude
    either and is the rounding of a fresh draw, from [-0.5, 0.5] for
    uniform and of 0.03 times a standard normal draw for normal; under
    max-min it is the rounding of the magnitude minus 1. *)
Theorem special_case_value_ignores_nominal (g : rng) (name : string)
    (rand_num nominal1 nominal2 : Q) (dist : string) :
  In name special_case_parameters ->
  create_perturbed_parameter_value g name rand_num nominal1 dist
  = create_perturbed_parameter_value g name rand_num nominal2 dist
  /\ (forall rand_num',
        create_perturbed_parameter_value g name rand_num nominal1 "uniform"
        = create_perturbed_parameter_value g name rand_num' nominal2 "uniform"
        /\ create_perturbed_parameter_value g name rand_num nominal1 "normal"
           = create_perturbed_parameter_value g name rand_num' nominal2 "normal")
  /\ create_perturbed_parameter_value g name rand_num nominal1 "uniform"
     = Some (Num (py_round (- (1 # 2) + random g 0 * 2 * (1 # 2)) 9))
  /\ (0 <= random g 0 <= 1 ->
      - (1 # 2) <= py_round (- (1 # 2) + random g 0 * 2 * (1 # 2)) 9 <= 1 # 2)%Q
  /\ create_perturbed_parameter_value g name rand_num nominal1 "normal"
     = Some (Num (py_round (0 + (3 # 100) * standard_normal g 0) 9))
  /\ create_perturbed_parameter_value g name rand_num nominal1 "max-min"
     = Some (Num (py_round (rand_num - 1) 9)).
Proof.
  intros Hin. apply mem_In in Hin.
  unfold create_perturbed_parameter_value. rewrite Hin. simpl.
  split.
  { destruct (dist =? "uniform"); [reflexivity|].
    destruct (dist =? "normal"); [reflexivity|].
    destruct (dist =? "max-min"); reflexivity. }
  split; [intros r'; split; reflexivity|].
  split; [reflexivity|].
  split; [|split; reflexivity].
  intros [H0 H1].
  assert (Elo : (inject_Z (-500000000) / (1000000000 # 1) == - (1 # 2))%Q)
    by reflexivity.
  assert (Ehi : (inject_Z 500000000 / (1000000000 # 1) == 1 # 2)%Q)
    by reflexivity.
  split.
  - apply Qle_trans with (inject_Z (-500000000) / (1000000000 # 1))%Q.
    + rewrite Elo. apply Qle_refl.
    + apply py_round_ge. rewrite Elo. lra.
  - apply Qle_trans with (inject_Z 500000000 / (1000000000 # 1))%Q.
    + apply py_round_le. rewrite Ehi. lra.
    + rewrite Ehi. apply Qle_refl.
Qed.

(** Max-min with the list [1, 1.5] and the nominal value 10: the perturbed
    values are 10 and 15. *)
Example max_min_scales_nominal :
  exists mp,
    Modified_Parameter_init rng_example "_betaH0" 10 2 "max-min" = Returns mp
    /\ Forall2
         (fun rand_num v =>
            exists w,
              create_perturbed_parameter_value rng_example "_betaH0" rand_num
                10 "max-min" = Some (Num w) /\ (w == v)%Q)
         (list_of_rand_num mp) [10%Q; 15%Q].
Proof.
  eexists. split; [reflexivity|].
  repeat constructor; eexists; (split; [vm_compute; reflexivity|reflexivity]).
Qed.

(** "kappa" under max-min, magnitude 1.5: the value is 0.5 for the
    nominal values 0 and 7. *)
Lemma special_case_value_ignores_nominal_witness :
  In "kappa" special_case_parameters
  /\ create_perturbed_parameter_value rng_example "kappa" (3 # 2) 0 "max-min"
     = create_perturbed_parameter_value rng_example "kappa" (3 # 2) 7 "max-min"
  /\ create_perturbed_parameter_value rng_example "kappa" (3 # 2) 0 "max-min"
     = Some (Num (py_round ((3 # 2) - 1) 9))
  /\ (py_round ((3 # 2) - 1) 9 == 1 # 2)%Q.
Proof.
  assert (H : In "kappa" special_case_parameters) by (simpl; tauto).
  split; [exact H|].
  destruct (special_case_value_ignores_nominal rng_example "kappa" (3 # 2) 0 7
              "max-min" H) as [H1 [_ [_ [_ [_ H6]]]]].
  split; [exact H1|]. split; [exact H6|]. reflexivity.
Defined.

(* ------------------------------------------------------------------ *)
(** ** Collecting the tasks of a pool *)

Lemma mapM_Returns {A B : Type} (f : A -> outcome B) (l : list A) (ys : list B) :
  mapM f l = Returns ys -> Forall2 (fun x y => f x = Returns y) l ys.
Proof.
  revert ys. induction l as [|x t IH]; intros ys H; simpl in H.
  - inversion H. constructor.
  - destruct (f x) as [y|e] eqn:E; simpl in H; [|discriminate].
    destruct (mapM f t) as [ys'|e] eqn:E'; simpl in H; [|discriminate].
    inversion H; subst. constructor; [exact E|]. apply IH. reflexivity.
Qed.

Lemma mapM_Raises_head {A B : Type} (f : A -> outcome B) (x : A) (t : list A)
    (e : error) :
  f x = Raises e -> mapM f (x :: t) = Raises e.
Proof. intros H. simpl. rewrite H. reflexivity. Qed.

Lemma Forall2_length_eq {A B : Type} (P : A -> B -> Prop) (l : list A)
    (l' : list B) :
  Forall2 P l l' -> List.length l = List.length l'.
Proof. induction 1; simpl; congruence. Qed.

Lemma or_exit_Returns {A : Type} (m : outcome A) (a : A) :
  or_exit m = Returns a -> m = Returns a.
Proof. destruct m; simpl; intros H; [exact H|discriminate]. Qed.

Lemma with_pool_Returns {A : Type} (w : Z) (m : outcome A) (a : A) :
  with_pool w m = Returns a -> m = Returns a.
Proof. unfold with_pool. destruct (w <=? 0)%Z; [discriminate|auto]. Qed.

Lemma with_pool_exit {A : Type} (w : Z) (m : outcome A) :
  m = Raises SystemExit -> with_pool w m = Raises SystemExit.
Proof. unfold with_pool. intros ->. destruct (w <=? 0)%Z; reflexivity. Qed.

Lemma remove_nth_perm {A : Type} (d : A) (l : list A) (i : nat) :
  (i < List.length l)%nat -> Permutation (nth i l d :: remove_nth i l) l.
Proof.
  revert i. induction l as [|x t IH]; intros i H; simpl in H; [lia|].
  destruct i as [|j]; simpl.
  - apply Permutation_refl.
  - eapply perm_trans; [apply perm_swap|].
    apply perm_skip. apply IH. lia.
Qed.

(** Whatever the completion choices, the tasks collected are the tasks
    submitted, in some order. *)
Lemma complete_perm {A : Type} (choices : list nat) (pending : list A) :
  Permutation (complete choices pending) pending.
Proof.
  revert pending. induction choices as [|c cs IH]; intros pending; simpl.
  - apply Permutation_refl.
  - destruct pending as [|d t] eqn:E; [apply perm_nil|]. rewrite <- E.
    eapply perm_trans; [apply perm_skip, IH|].
    apply remove_nth_perm. apply Nat.mod_upper_bound. rewrite E. simpl. lia.
Qed.

Lemma complete_length {A : Type} (choices : list nat) (pending : list A) :
  List.length (complete choices pending) = List.length pending.
Proof. apply Permutation_length, complete_perm. Qed.

Lemma complete_In {A : Type} (choices : list nat) (pending : list A) (x : A) :
  In x (complete choices pending) -> In x pending.
Proof. apply Permutation_in, complete_perm. Qed.

(** The objects collected from a pool whose tasks all returned: as many
    as tasks submitted, each the result of a submitted task. *)
Lemma collected {A : Type} (choices : list nat) (futures : list (outcome A))
    (objs : list A) :
  or_exit (results (complete choices futures)) = Returns objs ->
  List.length objs = List.length futures
  /\ forall o, In o objs -> In (Returns o) futures.
Proof.
  intros H. apply or_exit_Returns in H. unfold results in H.
  apply mapM_Returns in H. split.
  - rewrite <- (complete_length choices futures).
    symmetry. eapply Forall2_length_eq. exact H.
  - intros o Ho.
    assert (Hin : In (Returns o) (complete choices futures)).
    { clear -H Ho. induction H as [|x y l l' Hxy Hrest IH]; [contradiction|].
      destruct Ho as [Ho|Ho].
      - subst y. left. exact Hxy.
      - right. apply IH. exact Ho. }
    eapply complete_In. exact Hin.
Qed.

(** A pool with a task, all of whose tasks fail, makes the program exit. *)
Lemma collected_exit {A : Type} (choices : list nat)
    (futures : list (outcome A)) :
  futures <> [] ->
  (forall f, In f futures -> exists e, f = Raises e) ->
  or_exit (results (complete choices futures)) = Raises SystemExit.
Proof.
  intros Hne Hall.
  destruct (complete choices futures) as [|f t] eqn:E.
  - exfalso. apply Hne. apply length_zero_iff_nil.
    rewrite <- (complete_length choices futures), E. reflexivity.
  - assert (Hf : In f futures).
    { apply (complete_In choices). rewrite E. left. reflexivity. }
    destruct (Hall f Hf) as [e ->]. reflexivity.
Qed.

Lemma enumerate_length {A : Type} (l : list A) :
  List.length (enumerate l) = List.length l.
Proof.
  unfold enumerate. rewrite length_combine, length_seq. apply Nat.min_id.
Qed.

(* ------------------------------------------------------------------ *)
(** ** The number of trials *)

Lemma Modified_Parameter_init_Returns (g : rng) (name : string) (u : Q)
    (n : nat) (dist : string) (mp : Modified_Parameter) :
  Modified_Parameter_init g name u n dist = Returns mp ->
  param_name mp = name
  /\ list_of_Random_Parameter_Value_objects mp = []
  /\ (((dist = "uniform" \/ dist = "normal")
       /\ List.length (list_of_rand_num mp) = n)
      \/ (dist = "max-min" /\ list_of_rand_num mp = [1%Q; (3 # 2)%Q])).
Proof.
  unfold Modified_Parameter_init.
  destruct (dist =? "uniform") eqn:E1.
  { apply String.eqb_eq in E1. intros H. inversion H; subst. simpl.
    repeat split. left. split; [left; reflexivity|].
    unfold rng_uniform. rewrite length_map, length_seq. reflexivity. }
  destruct (dist =? "normal") eqn:E2.
  { apply String.eqb_eq in E2.
    destruct (gaussian_st_dev_for_parameter name u) as [sd|e]; simpl;
      [|discriminate].
    intros H. inversion H; subst. simpl.
    repeat split. left. split; [right; reflexivity|].
    unfold rng_normal. rewrite length_map, length_seq. reflexivity. }
  destruct (dist =? "max-min") eqn:E3; [|discriminate].
  apply String.eqb_eq in E3. intros H. inversion H; subst. simpl.
  repeat split. right. split; reflexivity.
Qed.

(** A Parameter Group that is returned holds one trial for each sampled
    magnitude. *)
Lemma group_trials (np_sqrt : Q -> Q) (env : environment) (key : string)
    (dict : param_dict) (A_compound : Z) (n : nat) (workers : Z)
    (talys : bool) (dist : string) (mp : Modified_Parameter) :
  perturbed_calculations_single_parameter np_sqrt env key dict A_compound n
    workers talys dist = Returns mp ->
  param_name mp = key
  /\ List.length (list_of_Random_Parameter_Value_objects mp)
     = List.length (list_of_rand_num mp)
  /\ (((dist = "uniform" \/ dist = "normal")
       /\ List.length (list_of_rand_num mp) = n)
      \/ (dist = "max-min" /\ list_of_rand_num mp = [1%Q; (3 # 2)%Q])).
Proof.
  unfold perturbed_calculations_single_parameter.
  destruct (lookup key dict) as [u|e]; simpl; [|discriminate].
  destruct (Modified_Parameter_init (default_rng env key 0) key u n dist)
    as [mp0|e] eqn:E0; simpl; [|discriminate].
  apply Modified_Parameter_init_Returns in E0.
  destruct E0 as [Hname [Hnil Hcount]].
  match goal with
  | |- bind ?m _ = _ -> _ => destruct m as [objs|e] eqn:E
  end; simpl; [|discriminate].
  intros H. inversion H; subst. simpl.
  apply with_pool_Returns, collected in E. destruct E as [Hlen _].
  rewrite length_map, enumerate_length in Hlen.
  split; [reflexivity|]. split; [|exact Hcount].
  rewrite Hnil. simpl. exact Hlen.
Qed.

Lemma TMC_trial_parameters (np_sqrt : Q -> Q) (env : environment)
    (dict : param_dict) (k : nat) (A_compound : Z) (talys : bool)
    (dist : string) (t : TMC_Object) :
  create_perturbed_TMC_FY np_sqrt env dict k A_compound talys dist = Returns t ->
  enumeration_rand_val t = k
  /\ List.length (list_of_TMC_Mod_Param_objects t) = List.length dict.
Proof.
  unfold create_perturbed_TMC_FY.
  match goal with
  | |- bind ?m _ = _ -> _ => destruct m as [objs|e] eqn:E
  end; simpl; [|discriminate].
  match goal with
  | |- bind ?m _ = _ -> _ => destruct m as [[fy ign]|e]
  end; simpl; [|discriminate].
  intros H. inversion H; subst. simpl. split; [reflexivity|].
  apply mapM_Returns in E. symmetry. eapply Forall2_length_eq. exact E.
Qed.

Lemma In_map_Returns {A B : Type} (f : A -> outcome B) (l : list A) (o : B) :
  In (Returns o) (map f l) -> exists x, In x l /\ f x = Returns o.
Proof.
  intros H. apply in_map_iff in H. destruct H as [x [Hx Hin]].
  exists x. split; assumption.
Qed.

(** C4 (as amended).  In a campaign that returns, parameter-at-a-time mode
    leaves one Parameter Group for each parameter, and each group holds
    exactly the requested number of trials under uniform and normal
    sampling, and exactly two trials, one for each entry of the fixed list
    [1, 1.5], under max-min whatever the requested number; all-parameters
    mode leaves exactly the requested number of TMC trials, each with one
    perturbed value for each parameter; this for every completion order of
    the worker pools. *)
Theorem number_of_trials (np_sqrt : Q -> Q) (env : environment)
    (pickled : Type) (pickle_dump : Reaction -> pickled)
    (str_float : Q -> string) (dict : param_dict) (Z_target A_compound : Z)
    (E_reaction : Q) (runs_MC : Z) (requested : nat) (dist : string)
    (talys : bool) (prog : string) (r : Reaction) (file : dir_entry pickled) :
  Reaction_init np_sqrt env pickle_dump str_float dict Z_target A_compound
    E_reaction runs_MC requested dist talys prog = Returns (r, file) ->
  (prog = "Single_Parameters"
   /\ list_of_TMC_Objects r = []
   /\ List.length (list_of_Mod_Param_objects r) = List.length dict
   /\ Forall
        (fun group =>
           ((dist = "uniform" \/ dist = "normal")
            /\ List.length (list_of_Random_Parameter_Value_objects group)
               = requested)
           \/ (dist = "max-min"
               /\ list_of_rand_num group = [1%Q; (3 # 2)%Q]
               /\ List.length (list_of_Random_Parameter_Value_objects group)
                  = 2%nat))
        (list_of_Mod_Param_objects r))
  \/ (prog = "TMC"
      /\ list_of_Mod_Param_objects r = []
      /\ List.length (list_of_TMC_Objects r) = requested
      /\ Forall
           (fun trial =>
              List.length (list_of_TMC_Mod_Param_objects trial)
              = List.length dict)
           (list_of_TMC_Objects r)).
Proof.
  unfold Reaction_init.
  destruct (prog =? "Single_Parameters") eqn:E1.
  - apply String.eqb_eq in E1.
    match goal with
    | |- bind (bind ?m _) _ = _ -> _ => destruct m as [objs|e] eqn:E
    end; simpl; [|discriminate].
    intros H. inversion H; subst. simpl. left.
    apply with_pool_Returns, collected in E. destruct E as [Hlen Hall].
    rewrite length_map in Hlen.
    split; [reflexivity|]. split; [reflexivity|]. split; [exact Hlen|].
    apply Forall_forall. intros group Hin.
    apply Hall, In_map_Returns in Hin. destruct Hin as [[key v] [_ Hg]].
    apply group_trials in Hg. destruct Hg as [_ [Hlen' [[Hd Hn]|[Hd Hl]]]].
    + left. split; [exact Hd|]. rewrite Hlen'. exact Hn.
    + right. split; [exact Hd|]. split; [exact Hl|].
      rewrite Hlen', Hl. reflexivity.
  - destruct (prog =? "TMC") eqn:E2; simpl; [|discriminate].
    apply String.eqb_eq in E2.
    match goal with
    | |- bind (bind ?m _) _ = _ -> _ => destruct m as [objs|e] eqn:E
    end; simpl; [|discriminate].
    intros H. inversion H; subst. simpl. right.
    apply with_pool_Returns, collected in E. destruct E as [Hlen Hall].
    rewrite length_map, length_seq in Hlen.
    split; [reflexivity|]. split; [reflexivity|]. split; [exact Hlen|].
    apply Forall_forall. intros trial Hin.
    apply Hall, In_map_Returns in Hin. destruct Hin as [k [_ Ht]].
    apply TMC_trial_parameters in Ht. tauto.
Qed.

(** Three parameters and five trials for each under uniform sampling:
    three groups, each of five trials, with the second task of each pool
    completing first. *)
Lemma number_of_trials_witness :
  exists r file,
    campaign_example 5 "uniform" "Single_Parameters" = Returns (r, file)
    /\ List.length (list_of_Mod_Param_objects r) = 3%nat
    /\ Forall
         (fun group =>
            List.length (list_of_Random_Parameter_Value_objects group) = 5%nat)
         (list_of_Mod_Param_objects r).
Proof.
  destruct (campaign_example 5 "uniform" "Single_Parameters")
    as [[r file]|e] eqn:E; [|vm_compute in E; discriminate].
  exists r, file. split; [reflexivity|].
  unfold campaign_example in E.
  destruct (number_of_trials _ _ _ _ _ _ _ _ _ _ _ _ _ _ _ _ E)
    as [[_ [_ [Hlen Hall]]]|[Hprog _]]; [|discriminate].
  split; [exact Hlen|].
  revert Hall. apply Forall_impl. intros group [[_ H]|[H _]];
    [exact H|discriminate].
Defined.

(** C4 (as stated) fails.  Five trials for each parameter are requested
    under max-min in parameter-at-a-time mode: the campaign returns, and
    each of its three groups holds two trials. *)
Lemma max_min_groups_hold_two_trials :
  exists r file,
    campaign_example 5 "max-min" "Single_Parameters" = Returns (r, file)
    /\ num_of_rand (reaction_info r) = 5%nat
    /\ map (fun group =>
              List.length (list_of_Random_Parameter_Value_objects group))
           (list_of_Mod_Param_objects r)
       = [2%nat; 2%nat; 2%nat].
Proof.
  destruct (campaign_example 5 "max-min" "Single_Parameters")
    as [[r file]|e] eqn:E; [|vm_compute in E; discriminate].
  exists r, file. split; [reflexivity|].
  vm_compute in E. inversion E. split; reflexivity.
Qed.

(* ------------------------------------------------------------------ *)
(** ** The max-min list *)

(** C5 (as amended).  Under max-min the sampler of parameter-at-a-time mode
    returns the fixed list [1, 1.5] for every requested trial count: it
    raises no error when the count differs from the length of the list, it
    neither truncates nor pads the list, and a Parameter Group that is
    returned holds one trial for each of the two entries. *)
Theorem max_min_list_is_fixed (g : rng) (name : string) (nominal : Q)
    (requested : nat) :
  Modified_Parameter_init g name nominal requested "max-min"
  = Returns (mkModified_Parameter name nominal [] [1%Q; (3 # 2)%Q])
  /\ forall np_sqrt env dict A_compound workers talys group,
       perturbed_calculations_single_parameter np_sqrt env name dict
         A_compound requested workers talys "max-min" = Returns group ->
       list_of_rand_num group = [1%Q; (3 # 2)%Q]
       /\ List.length (list_of_Random_Parameter_Value_objects group) = 2%nat.
Proof.
  split; [reflexivity|].
  intros np_sqrt env dict A_compound workers talys group H.
  apply group_trials in H. destruct H as [_ [Hlen [[[Hd|Hd] _]|[_ Hl]]]];
    try discriminate.
  split; [exact Hl|]. rewrite Hlen, Hl. reflexivity.
Qed.

(** "T_low_S11" with seven trials requested: the group is returned and
    holds two trials. *)
Lemma max_min_list_is_fixed_witness :
  exists group,
    perturbed_calculations_single_parameter sqrt_9 env_example "T_low_S11"
      dict_example 236 7 2 false "max-min" = Returns group
    /\ list_of_rand_num group = [1%Q; (3 # 2)%Q]
    /\ List.length (list_of_Random_Parameter_Value_objects group) = 2%nat.
Proof.
  destruct (perturbed_calculations_single_parameter sqrt_9 env_example
              "T_low_S11" dict_example 236 7 2 false "max-min")
    as [group|e] eqn:E; [|vm_compute in E; discriminate].
  exists group. split; [reflexivity|].
  exact (proj2 (max_min_list_is_fixed rng_example "T_low_S11" (36 # 100) 7)
           sqrt_9 env_example dict_example 236%Z 2%Z false group E).
Defined.

(** C5 (as stated) fails.  One trial is requested under max-min while the
    list has two entries: the sampler returns, the campaign returns, and
    no error is raised. *)
Lemma max_min_count_mismatch_is_no_error :
  (1 <> List.length [1%Q; (3 # 2)%Q])%nat
  /\ Modified_Parameter_init rng_example "T_low_S11" (36 # 100) 1 "max-min"
     = Returns (mkModified_Parameter "T_low_S11" (36 # 100) [] [1%Q; (3 # 2)%Q])
  /\ exists r file,
       campaign_example 1 "max-min" "Single_Parameters" = Returns (r, file)
       /\ map (fun group => list_of_rand_num group)
              (list_of_Mod_Param_objects r)
          = [[1%Q; (3 # 2)%Q]; [1%Q; (3 # 2)%Q]; [1%Q; (3 # 2)%Q]].
Proof.
  split; [simpl; lia|]. split; [reflexivity|].
  destruct (campaign_example 1 "max-min" "Single_Parameters")
    as [[r file]|e] eqn:E; [|vm_compute in E; discriminate].
  exists r, file. split; [reflexivity|].
  vm_compute in E. inversion E. reflexivity.
Qed.

(* ------------------------------------------------------------------ *)
(** ** Max-min in all-parameters mode *)

Lemma TMC_Mod_Param_object_init_other (g : rng) (name : string) (u : Q)
    (dist : string) :
  dist <> "uniform" -> dist <> "normal" ->
  TMC_Mod_Param_object_init g name u dist = Raises SystemExit.
Proof.
  intros H1 H2. unfold TMC_Mod_Param_object_init.
  apply String.eqb_neq in H1. apply String.eqb_neq in H2.
  rewrite H1, H2. reflexivity.
Qed.

Lemma create_perturbed_TMC_FY_other (np_sqrt : Q -> Q) (env : environment)
    (dict : param_dict) (k : nat) (A_compound : Z) (talys : bool)
    (dist : string) :
  dist <> "uniform" -> dist <> "normal" -> dict <> [] ->
  create_perturbed_TMC_FY np_sqrt env dict k A_compound talys dist
  = Raises SystemExit.
Proof.
  intros H1 H2 Hd. unfold create_perturbed_TMC_FY.
  destruct dict as [|[name u] t]; [contradiction|].
  rewrite (mapM_Raises_head _ _ _ SystemExit); [reflexivity|].
  rewrite TMC_Mod_Param_object_init_other by assumption. reflexivity.
Qed.




(* ------------------------------------------------------------------ *)
(** ** Persisting and reloading a campaign *)

Lemma Reaction_init_file (np_sqrt : Q -> Q) (env : environment)
    (pickled : Type) (pickle_dump : Reaction -> pickled)
    (str_float : Q -> string) (dict : param_dict) (Z_target A_compound : Z)
    (E_reaction : Q) (runs_MC : Z) (requested : nat) (dist : string)
    (talys : bool) (prog : string) (r : Reaction) (file : dir_entry pickled) :
  Reaction_init np_sqrt env pickle_dump str_float dict Z_target A_compound
    E_reaction runs_MC requested dist talys prog = Returns (r, file) ->
  name file = pickle_file_name str_float Z_target A_compound E_reaction
  /\ is_file file = true
  /\ content file = pickle_dump r.
Proof.
  unfold Reaction_init.
  match goal with
  | |- bind ?m _ = _ -> _ => destruct m as [lists|e]
  end; simpl; [|discriminate].
  intros H. inversion H; subst. simpl. repeat split.
Qed.

Lemma pickle_file_name_prefix (str_float : Q -> string) (Z_target A_compound : Z)
    (E_reaction : Q) :
  String.prefix "TMC" (pickle_file_name str_float Z_target A_compound E_reaction)
  = false
  /\ String.prefix "Single"
       (pickle_file_name str_float Z_target A_compound E_reaction)
     = false.
Proof. split; reflexivity. Qed.




(* ================================================================== *)
(** * More about the yield reducer *)

Local Open Scope Z_scope.
Local Open Scope list_scope.

(* ------------------------------------------------------------------ *)
(** ** The order of the summary rows *)

Lemma key_leb_refl (a : key) : key_leb a a = true.
Proof.
  destruct a as [[[a0 a1] a2] a3]. unfold key_leb.
  rewrite !Z.ltb_irrefl. apply Z.leb_refl.
Qed.

Lemma key_leb_total (a b : key) : key_leb a b = false -> key_leb b a = true.
Proof.
  destruct a as [[[a0 a1] a2] a3], b as [[[b0 b1] b2] b3]. unfold key_leb.
  destruct (a0 <? b0) eqn:E0; [discriminate|].
  destruct (b0 <? a0) eqn:E0'; [reflexivity|].
  destruct (a1 <? b1) eqn:E1; [discriminate|].
  destruct (b1 <? a1) eqn:E1'; [reflexivity|].
  destruct (a2 <? b2) eqn:E2; [discriminate|].
  destruct (b2 <? a2) eqn:E2'; [reflexivity|].
  intros H. apply Z.leb_gt in H. apply Z.leb_le. lia.
Qed.

Lemma key_leb_antisym (a b : key) :
  key_leb a b = true -> key_leb b a = true -> a = b.
Proof.
  destruct a as [[[a0 a1] a2] a3], b as [[[b0 b1] b2] b3]. unfold key_leb.
  destruct (a0 <? b0) eqn:E0; destruct (b0 <? a0) eqn:E0';
    try discriminate;
    try (apply Z.ltb_lt in E0; apply Z.ltb_lt in E0'; lia).
  destruct (a1 <? b1) eqn:E1; destruct (b1 <? a1) eqn:E1';
    try discriminate;
    try (apply Z.ltb_lt in E1; apply Z.ltb_lt in E1'; lia).
  destruct (a2 <? b2) eqn:E2; destruct (b2 <? a2) eqn:E2';
    try discriminate;
    try (apply Z.ltb_lt in E2; apply Z.ltb_lt in E2'; lia).
  intros H H'. apply Z.leb_le in H. apply Z.leb_le in H'.
  apply Z.ltb_ge in E0, E0', E1, E1', E2, E2'.
  repeat f_equal; lia.
Qed.

Lemma key_leb_trans (a b c : key) :
  key_leb a b = true -> key_leb b c = true -> key_leb a c = true.
Proof.
  destruct a as [[[a0 a1] a2] a3], b as [[[b0 b1] b2] b3],
           c as [[[c0 c1] c2] c3]. unfold key_leb.
  repeat match goal with
         | |- context [?x <? ?y] => destruct (Z.ltb_spec x y)
         | |- context [?x <=? ?y] => destruct (Z.leb_spec x y)
         end; try discriminate; try reflexivity; try lia.
Qed.

Lemma insert_row_sorted (k : key) (l : list key) :
  StronglySorted (fun a b => key_leb a b = true) l ->
  StronglySorted (fun a b => key_leb a b = true) (insert_row k l).
Proof.
  induction l as [|h t IH]; intros Hs; simpl.
  - constructor; constructor.
  - apply StronglySorted_inv in Hs. destruct Hs as [Ht Hh].
    destruct (key_leb k h) eqn:E.
    + constructor; [constructor; assumption|].
      constructor; [exact E|].
      revert Hh. apply Forall_impl. intros x Hx.
      eapply key_leb_trans; eassumption.
    + constructor; [apply IH; exact Ht|].
      apply key_leb_total in E.
      eapply Permutation_Forall; [apply Permutation_sym, insert_row_perm|].
      constructor; assumption.
Qed.

Lemma sort_rows_sorted (l : list key) :
  StronglySorted (fun a b => key_leb a b = true) (sort_rows l).
Proof.
  induction l as [|h t IH]; simpl; [constructor|].
  apply insert_row_sorted. exact IH.
Qed.

(** Two sorted lists with the same elements are equal. *)
Lemma sorted_perm_eq (l l' : list key) :
  StronglySorted (fun a b => key_leb a b = true) l ->
  StronglySorted (fun a b => key_leb a b = true) l' ->
  Permutation l l' -> l = l'.
Proof.
  revert l'. induction l as [|a t IH]; intros l' Hs Hs' Hp.
  - apply Permutation_nil in Hp. symmetry. exact Hp.
  - destruct l' as [|a' t'].
    { apply Permutation_sym, Permutation_nil in Hp. discriminate. }
    apply StronglySorted_inv in Hs. destruct Hs as [Ht Ha].
    apply StronglySorted_inv in Hs'. destruct Hs' as [Ht' Ha'].
    assert (E : a = a').
    { assert (H1 : In a (a' :: t'))
        by (eapply Permutation_in; [exact Hp|left; reflexivity]).
      assert (H2 : In a' (a :: t))
        by (eapply Permutation_in;
            [apply Permutation_sym; exact Hp|left; reflexivity]).
      destruct H1 as [H1|H1]; [symmetry; exact H1|].
      destruct H2 as [H2|H2]; [exact H2|].
      apply key_leb_antisym.
      - eapply Forall_forall in Ha; [exact Ha|exact H2].
      - eapply Forall_forall in Ha'; [exact Ha'|exact H1]. }
    subst a'. f_equal. apply IH; try assumption.
    eapply Permutation_cons_inv. exact Hp.
Qed.

Lemma sort_rows_of_perm (l l' : list key) :
  Permutation l l' -> sort_rows l = sort_rows l'.
Proof.
  intros H. apply sorted_perm_eq; try apply sort_rows_sorted.
  eapply perm_trans; [apply sort_rows_perm|].
  eapply perm_trans; [exact H|]. apply Permutation_sym, sort_rows_perm.
Qed.

Lemma nodup_of_perm (l l' : list key) :
  Permutation l l' ->
  Permutation (nodup key_eq_dec l) (nodup key_eq_dec l').
Proof.
  intros H. apply NoDup_Permutation; try apply NoDup_nodup.
  intros x. rewrite !nodup_In. split; apply Permutation_in;
    [exact H|apply Permutation_sym; exact H].
Qed.

Lemma filter_of_perm {A : Type} (p : A -> bool) (l l' : list A) :
  Permutation l l' -> Permutation (filter p l) (filter p l').
Proof.
  induction 1 as [|x l l' _ IH|x y l|l l' l'' _ IH1 _ IH2]; simpl.
  - apply perm_nil.
  - destruct (p x); [apply perm_skip|]; exact IH.
  - destruct (p x), (p y); try apply Permutation_refl. apply perm_swap.
  - eapply perm_trans; eassumption.
Qed.

Lemma filter_sorted {A : Type} (R : A -> A -> Prop) (p : A -> bool) (l : list A) :
  StronglySorted R l -> StronglySorted R (filter p l).
Proof.
  induction 1 as [|a l Hl IH Ha]; simpl; [constructor|].
  destruct (p a); [|exact IH].
  constructor; [exact IH|].
  apply Forall_forall. intros x Hx. apply filter_In in Hx.
  eapply Forall_forall in Ha; [exact Ha|tauto].
Qed.

(* ------------------------------------------------------------------ *)
(** ** What the summary depends on *)

Lemma occurrence_count_rows (FY : list event) (A_compound : Z) (k : key) :
  occurrence_count FY A_compound k
  = count_rows k (map split_of (surviving FY A_compound)).
Proof.
  unfold occurrence_count, events_of_split, count_rows.
  rewrite filter_map_comm, length_map. reflexivity.
Qed.

(** The retained splits, the counts and the singleton count are functions
    of the multiset of the splits of the surviving events. *)
Lemma splits_determine_counts (FY FY' : list event) (A_compound : Z) :
  Permutation (map split_of (surviving FY' A_compound))
              (map split_of (surviving FY A_compound)) ->
  (forall k, occurrence_count FY' A_compound k = occurrence_count FY A_compound k)
  /\ unique_splits FY' A_compound = unique_splits FY A_compound
  /\ retained_splits FY' A_compound = retained_splits FY A_compound
  /\ singleton_count FY' A_compound = singleton_count FY A_compound
  /\ List.length (surviving FY' A_compound)
     = List.length (surviving FY A_compound).
Proof.
  intros H.
  assert (Hc : forall k, occurrence_count FY' A_compound k
                         = occurrence_count FY A_compound k).
  { intros k. rewrite !occurrence_count_rows. unfold count_rows.
    apply Permutation_length, filter_of_perm. exact H. }
  assert (Hu : unique_splits FY' A_compound = unique_splits FY A_compound).
  { unfold unique_splits. apply sort_rows_of_perm, nodup_of_perm. exact H. }
  split; [exact Hc|]. split; [exact Hu|].
  split; [|split].
  - unfold retained_splits. rewrite Hu. apply filter_ext.
    intros k. rewrite Hc. reflexivity.
  - unfold singleton_count. rewrite Hu. f_equal. apply filter_ext.
    intros k. rewrite Hc. reflexivity.
  - apply Permutation_length in H. rewrite !length_map in H. exact H.
Qed.

Lemma row_keys_of_summary (np_sqrt : Q -> Q) (columns : nat) (FY : list event)
    (A_compound : Z) (n : nat) (z : ff_row) :
  map row_key
      (map (reduced_row np_sqrt columns FY A_compound)
           (retained_splits FY A_compound) ++ repeat z n)
  = retained_splits FY A_compound ++ repeat (row_key z) n.
Proof.
  rewrite map_app, map_repeat. f_equal.
  rewrite map_map.
  rewrite <- (map_id (retained_splits FY A_compound)) at 2.
  apply map_ext_in. intros k Hk. apply reduced_row_key. exact Hk.
Qed.

Lemma yields_of_summary (np_sqrt : Q -> Q) (columns : nat) (FY : list event)
    (A_compound : Z) (n : nat) (z : ff_row) :
  map ff_yield
      (map (reduced_row np_sqrt columns FY A_compound)
           (retained_splits FY A_compound) ++ repeat z n)
  = map (fun k => (Qnat (occurrence_count FY A_compound k)
                   / inject_Z (Z.of_nat (List.length (surviving FY A_compound))
                               - Z.of_nat (singleton_count FY A_compound)))%Q)
        (retained_splits FY A_compound)
    ++ repeat (ff_yield z) n.
Proof. rewrite map_app, map_repeat, map_map. reflexivity. Qed.

(** Splits, yields and singleton count of two tables whose surviving
    events count for the same splits equally often. *)
Lemma same_splits_same_summary (np_sqrt : Q -> Q) (columns : nat)
    (FY FY' : list event) (A_compound : Z) (n n' : nat) :
  Permutation (map split_of (surviving FY' A_compound))
              (map split_of (surviving FY A_compound)) ->
  (forall t ign,
     GEF_FY_for_TALYS np_sqrt columns FY A_compound n = Returns (t, ign) ->
     exists t',
       GEF_FY_for_TALYS np_sqrt columns FY' A_compound n' = Returns (t', ign)
       /\ map row_key t' = map row_key t
       /\ map ff_yield t' = map ff_yield t)
  /\ (forall e,
        GEF_FY_for_TALYS np_sqrt columns FY A_compound n = Raises e ->
        GEF_FY_for_TALYS np_sqrt columns FY' A_compound n' = Raises e).
Proof.
  intros H. apply splits_determine_counts in H.
  destruct H as [Hc [_ [Hr [Hs Hl]]]].
  assert (Hk : forall m z,
             map row_key
               (map (reduced_row np_sqrt columns FY' A_compound)
                    (retained_splits FY A_compound) ++ repeat z m)
             = map row_key
                 (map (reduced_row np_sqrt columns FY A_compound)
                      (retained_splits FY A_compound) ++ repeat z m)).
  { intros m z. rewrite <- Hr at 1. rewrite !row_keys_of_summary, Hr.
    reflexivity. }
  assert (Hy : forall m z,
             map ff_yield
               (map (reduced_row np_sqrt columns FY' A_compound)
                    (retained_splits FY A_compound) ++ repeat z m)
             = map ff_yield
                 (map (reduced_row np_sqrt columns FY A_compound)
                      (retained_splits FY A_compound) ++ repeat z m)).
  { intros m z. rewrite <- Hr at 1. rewrite !yields_of_summary, Hr, Hs, Hl.
    f_equal. apply map_ext. intros k. rewrite Hc. reflexivity. }
  rewrite !GEF_FY_for_TALYS_closed. cbv zeta. rewrite Hr, Hs.
  destruct (300 <? List.length (retained_splits FY A_compound))%nat;
    [split; [discriminate|intros e He; exact He]|].
  destruct (List.length (retained_splits FY A_compound) =? 0)%nat;
    [split; [discriminate|intros e He; exact He]|].
  split; [|discriminate].
  intros t ign Ht. inversion Ht; subst. eexists. split; [reflexivity|].
  split; [apply Hk|apply Hy].
Qed.

(* ------------------------------------------------------------------ *)
(** ** Accounting of the events *)

Lemma filter_partition_length {A : Type} (p : A -> bool) (l : list A) :
  List.length l
  = (List.length (filter (fun x => negb (p x)) l) + List.length (filter p l))%nat.
Proof.
  induction l as [|x t IH]; [reflexivity|].
  simpl. destruct (p x); simpl; lia.
Qed.

(** X1.  Whenever the reducer returns, the ignored-events count it returns
    is the number of splits that occur exactly once among the events that
    pass the multi-chance filter, and every raw event is accounted for
    once: the raw events are the multi-chance events, the events of the
    written rows and the ignored events. *)
Theorem ignored_events_accounting (np_sqrt : Q -> Q) (columns : nat)
    (FY : list event) (A_compound : Z) (num_of_events : nat)
    (t : list ff_row) (ign : nat) :
  GEF_FY_for_TALYS np_sqrt columns FY A_compound num_of_events = Returns (t, ign) ->
  ign = List.length
          (filter (fun k => (occurrence_count FY A_compound k =? 1)%nat)
                  (unique_splits FY A_compound))
  /\ List.length FY
     = (List.length (filter (fun e => negb (A1sci e + A2sci e =? A_compound)%Z) FY)
        + list_sum (map (occurrence_count FY A_compound)
                        (retained_splits FY A_compound))
        + ign)%nat.
Proof.
  intros H. apply GEF_FY_for_TALYS_returns in H. destruct H as [_ [-> _]].
  split; [reflexivity|].
  pose proof (retained_events FY A_compound) as Hr.
  pose proof (filter_partition_length (mass_consistent A_compound) FY) as Hp.
  fold (surviving FY A_compound) in Hp. unfold mass_consistent in Hp at 1.
  assert (Hle : (singleton_count FY A_compound
                 <= List.length (surviving FY A_compound))%nat).
  { rewrite <- occurrence_count_total.
    rewrite (sum_multi_single (occurrence_count FY A_compound))
      by (intros k; apply occurrence_count_positive).
    unfold singleton_count. lia. }
  lia.
Qed.

(** Ten events without multi-chance fission: nine behind the two written
    rows, one ignored. *)
Lemma ignored_events_accounting_witness :
  exists t,
    GEF_FY_for_TALYS sqrt_9 7 FY_ten_events 236 10 = Returns (t, 1%nat)
    /\ List.length FY_ten_events
       = (List.length (filter (fun e => negb (A1sci e + A2sci e =? 236)%Z)
                              FY_ten_events)
          + list_sum (map (occurrence_count FY_ten_events 236)
                          (retained_splits FY_ten_events 236))
          + 1)%nat.
Proof.
  destruct (GEF_FY_for_TALYS_total sqrt_9 7 FY_ten_events 236 10) as [t Ht];
    [vm_compute; lia|].
  exists t. split; [exact Ht|].
  exact (proj2 (ignored_events_accounting sqrt_9 7 FY_ten_events 236 10 t _ Ht)).
Defined.

(* ------------------------------------------------------------------ *)
(** ** The shape of the summary table *)

Lemma sorted_nodup_strict (l : list key) :
  StronglySorted (fun a b => key_leb a b = true) l -> NoDup l ->
  StronglySorted (fun a b => key_leb a b = true /\ a <> b) l.
Proof.
  induction 1 as [|a l Hl IH Ha]; intros Hnd; [constructor|].
  inversion Hnd as [|x y Hnotin Hnd']; subst.
  constructor; [apply IH; exact Hnd'|].
  apply Forall_forall. intros x Hx. split.
  - eapply Forall_forall in Ha; [exact Ha|exact Hx].
  - intros ->. contradiction.
Qed.

Lemma canonical_light_first (e : event) :
  A1sci (canonical e) <= A2sci (canonical e)
  /\ A1sci (canonical e) + A2sci (canonical e) = A1sci e + A2sci e.
Proof.
  unfold canonical. destruct (A1sci e >? A2sci e) eqn:E; simpl.
  - apply Z.gtb_lt in E. lia.
  - rewrite Z.gtb_ltb in E. apply Z.ltb_ge in E. lia.
Qed.

(** X2.  A summary table that is returned has 300 rows.  Its first rows
    are the rows of the retained splits, in strictly increasing
    lexicographic order of (Z1, A1, Z2, A2); each of them has the lighter
    fragment first, mass numbers that add up to the compound mass, and at
    least two events behind it; every other row is zero. *)
Theorem summary_table_shape (np_sqrt : Q -> Q) (columns : nat)
    (FY : list event) (A_compound : Z) (num_of_events : nat)
    (t : list ff_row) (ign : nat) :
  GEF_FY_for_TALYS np_sqrt columns FY A_compound num_of_events = Returns (t, ign) ->
  let n := List.length (retained_splits FY A_compound) in
  List.length t = 300%nat
  /\ (1 <= n <= 300)%nat
  /\ map row_key (firstn n t) = retained_splits FY A_compound
  /\ skipn n t = repeat (zero_row (if (columns =? 7)%nat then 0 else 8)) (300 - n)
  /\ StronglySorted (fun a b => key_leb a b = true /\ a <> b) (map row_key (firstn n t))
  /\ Forall (fun r => ff_A1 r <= ff_A2 r /\ ff_A1 r + ff_A2 r = A_compound
                      /\ (2 <= occurrence_count FY A_compound (row_key r))%nat)
            (firstn n t).
Proof.
  intros H n.
  pose proof (written_rows_returned _ _ _ _ _ _ _ H) as Hw.
  unfold written_rows in Hw. fold n in Hw.
  apply GEF_FY_for_TALYS_returns in H. fold n in H.
  destruct H as [Hn [_ Ht]].
  assert (Hkeys : map row_key (firstn n t) = retained_splits FY A_compound).
  { rewrite Hw, map_map.
    rewrite <- (map_id (retained_splits FY A_compound)) at 2.
    apply map_ext_in. intros k Hk. apply reduced_row_key. exact Hk. }
  split.
  { rewrite Ht, length_app, length_map, repeat_length. fold n. lia. }
  split; [lia|]. split; [exact Hkeys|]. split.
  { rewrite Ht. rewrite skipn_app, length_map. fold n.
    rewrite Nat.sub_diag, skipn_all2 by (rewrite length_map; fold n; lia).
    reflexivity. }
  split.
  { rewrite Hkeys. apply sorted_nodup_strict.
    - unfold retained_splits, unique_splits.
      apply filter_sorted, sort_rows_sorted.
    - unfold retained_splits, unique_splits.
      apply NoDup_filter, unique_NoDup. }
  rewrite Hw. apply Forall_forall. intros r Hr.
  apply in_map_iff in Hr. destruct Hr as [k [Er Hk]].
  pose proof (reduced_row_key np_sqrt columns _ _ _ Hk) as Hrk.
  rewrite Er in Hrk. rewrite Hrk.
  assert (Hc : (2 <= occurrence_count FY A_compound k)%nat).
  { unfold retained_splits in Hk. apply filter_In in Hk.
    destruct Hk as [_ Hk]. apply Nat.ltb_lt in Hk. lia. }
  apply retained_in_unique, in_map_iff in Hk.
  destruct Hk as [e [He Hin]].
  apply filter_In in Hin. destruct Hin as [_ Hm].
  unfold mass_consistent in Hm. apply Z.eqb_eq in Hm.
  destruct (canonical_light_first e) as [Hle Hsum].
  unfold row_key in Hrk. rewrite <- He in Hrk. unfold split_of, key_of in Hrk.
  inversion Hrk as [[E0 E1 E2 E3]].
  split; [lia|]. split; [lia|exact Hc].
Qed.

(** The ten events: the rows (38,96,54,140) and (40,100,52,136), in this
    order, and 298 zero rows. *)
Lemma summary_table_shape_witness :
  exists t,
    GEF_FY_for_TALYS sqrt_9 7 FY_ten_events 236 10 = Returns (t, 1%nat)
    /\ List.length t = 300%nat
    /\ map row_key (firstn 2 t) = [(38, 96, 54, 140); (40, 100, 52, 136)]
    /\ skipn 2 t = repeat (zero_row 0) 298.
Proof.
  destruct (GEF_FY_for_TALYS_total sqrt_9 7 FY_ten_events 236 10) as [t Ht];
    [vm_compute; lia|].
  exists t. split; [exact Ht|].
  pose proof (summary_table_shape sqrt_9 7 FY_ten_events 236 10 t _ Ht) as H.
  cbv zeta in H. destruct H as [Hl [_ [Hk [Hs _]]]].
  split; [exact Hl|]. split; [exact Hk|exact Hs].
Defined.

(* ------------------------------------------------------------------ *)
(** ** The summary and the order of the events *)

(** X3.  The splits, the yields and the ignored-events count do not depend
    on the order of the events in the raw table: for two tables that are
    permutations of each other the reducer raises the same error, or
    returns the same count and tables with the same (Z1, A1, Z2, A2) and
    yield columns. *)
Theorem summary_independent_of_event_order (np_sqrt : Q -> Q) (columns : nat)
    (FY FY' : list event) (A_compound : Z) :
  Permutation FY FY' ->
  (forall t ign,
     GEF_FY_for_TALYS np_sqrt columns FY A_compound (List.length FY)
     = Returns (t, ign) ->
     exists t',
       GEF_FY_for_TALYS np_sqrt columns FY' A_compound (List.length FY')
       = Returns (t', ign)
       /\ map row_key t' = map row_key t
       /\ map ff_yield t' = map ff_yield t)
  /\ (forall e,
        GEF_FY_for_TALYS np_sqrt columns FY A_compound (List.length FY)
        = Raises e ->
        GEF_FY_for_TALYS np_sqrt columns FY' A_compound (List.length FY')
        = Raises e).
Proof.
  intros H. apply same_splits_same_summary.
  apply Permutation_map. unfold surviving. apply filter_of_perm.
  apply Permutation_sym. exact H.
Qed.

(** The ten events in reverse order. *)
Lemma summary_independent_of_event_order_witness :
  Permutation FY_ten_events (rev FY_ten_events)
  /\ exists t t',
       GEF_FY_for_TALYS sqrt_9 7 FY_ten_events 236 10 = Returns (t, 1%nat)
       /\ GEF_FY_for_TALYS sqrt_9 7 (rev FY_ten_events) 236 10
          = Returns (t', 1%nat)
       /\ map row_key t' = map row_key t
       /\ map ff_yield t' = map ff_yield t.
Proof.
  split; [apply Permutation_rev|].
  destruct (GEF_FY_for_TALYS_total sqrt_9 7 FY_ten_events 236 10) as [t Ht];
    [vm_compute; lia|].
  destruct (proj1 (summary_independent_of_event_order sqrt_9 7 FY_ten_events
                     (rev FY_ten_events) 236 (Permutation_rev _)) t _ Ht)
    as [t' [Ht' [Hk Hy]]].
  exists t, t'. split; [exact Ht|]. split; [exact Ht'|]. split; assumption.
Defined.

(* ------------------------------------------------------------------ *)
(** ** Mirrored records *)

Lemma mirror_split (e : event) :
  A1sci e <> A2sci e -> split_of (swap_light_heavy e) = split_of e.
Proof.
  intros H. unfold split_of, canonical, key_of. simpl.
  destruct (A2sci e >? A1sci e) eqn:E1; destruct (A1sci e >? A2sci e) eqn:E2;
    simpl; try reflexivity.
  - apply Z.gtb_lt in E1. apply Z.gtb_lt in E2. lia.
  - rewrite Z.gtb_ltb in E1, E2. apply Z.ltb_ge in E1. apply Z.ltb_ge in E2. lia.
Qed.

Lemma mirror_mass_consistent (A_compound : Z) (e : event) :
  mass_consistent A_compound (swap_light_heavy e) = mass_consistent A_compound e.
Proof. unfold mass_consistent. simpl. rewrite Z.add_comm. reflexivity. Qed.

(** X4.  A record and its mirror image (the two fragments exchanged) count
    for the same split when the two mass numbers differ: exchanging the
    fragments of any such events of the raw table changes neither the
    error the reducer raises nor the ignored-events count, the splits and
    the yields it returns.  With equal mass numbers and different charges
    the record and its mirror image count for two different splits. *)
Theorem mirrored_records_count_for_one_split (np_sqrt : Q -> Q) (columns : nat)
    (FY FY' : list event) (A_compound : Z) :
  Forall2 (fun e e' =>
             e' = e \/ (e' = swap_light_heavy e /\ A1sci e <> A2sci e))
          FY FY' ->
  (forall t ign,
     GEF_FY_for_TALYS np_sqrt columns FY A_compound (List.length FY)
     = Returns (t, ign) ->
     exists t',
       GEF_FY_for_TALYS np_sqrt columns FY' A_compound (List.length FY')
       = Returns (t', ign)
       /\ map row_key t' = map row_key t
       /\ map ff_yield t' = map ff_yield t)
  /\ (forall e,
        GEF_FY_for_TALYS np_sqrt columns FY A_compound (List.length FY)
        = Raises e ->
        GEF_FY_for_TALYS np_sqrt columns FY' A_compound (List.length FY')
        = Raises e)
  /\ (forall e, A1sci e = A2sci e -> Z1 e <> Z2 e ->
        split_of (swap_light_heavy e) <> split_of e).
Proof.
  intros H.
  assert (Hs : map split_of (surviving FY' A_compound)
               = map split_of (surviving FY A_compound)).
  { unfold surviving.
    induction H as [|e e' l l' He _ IH]; [reflexivity|].
    simpl. destruct He as [->|[-> Hne]].
    - destruct (mass_consistent A_compound e); simpl; rewrite IH; reflexivity.
    - rewrite mirror_mass_consistent.
      destruct (mass_consistent A_compound e); simpl; rewrite IH;
        [rewrite (mirror_split e Hne)|]; reflexivity. }
  pose proof (same_splits_same_summary np_sqrt columns FY FY' A_compound
                (List.length FY) (List.length FY')) as Hsame.
  rewrite Hs in Hsame. specialize (Hsame (Permutation_refl _)).
  split; [exact (proj1 Hsame)|]. split; [exact (proj2 Hsame)|].
  intros e Ha Hz Hk. unfold split_of, canonical, key_of in Hk. simpl in Hk.
  rewrite Ha in Hk. rewrite Z.gtb_ltb, Z.ltb_irrefl in Hk.
  inversion Hk. congruence.
Qed.

(** The split (40,100)+(52,136) recorded twice, and the same two events
    with the second one mirrored. *)
Lemma mirrored_records_count_for_one_split_witness :
  Forall2 (fun e e' =>
             e' = e \/ (e' = swap_light_heavy e /\ A1sci e <> A2sci e))
          [ lmd_event 40 100 52 136 170 10 20; lmd_event 40 100 52 136 172 22 12 ]
          FY_swapped
  /\ exists t t',
       GEF_FY_for_TALYS sqrt_9 7
         [ lmd_event 40 100 52 136 170 10 20; lmd_event 40 100 52 136 172 22 12 ]
         236 2 = Returns (t, 0%nat)
       /\ GEF_FY_for_TALYS sqrt_9 7 FY_swapped 236 2 = Returns (t', 0%nat)
       /\ map row_key t' = map row_key t
       /\ map ff_yield t' = map ff_yield t.
Proof.
  assert (HF : Forall2 (fun e e' =>
             e' = e \/ (e' = swap_light_heavy e /\ A1sci e <> A2sci e))
          [ lmd_event 40 100 52 136 170 10 20; lmd_event 40 100 52 136 172 22 12 ]
          FY_swapped).
  { constructor; [left; reflexivity|]. constructor; [|constructor].
    right. split; [reflexivity|]. simpl. lia. }
  split; [exact HF|].
  destruct (GEF_FY_for_TALYS_total sqrt_9 7
              [ lmd_event 40 100 52 136 170 10 20;
                lmd_event 40 100 52 136 172 22 12 ] 236 2) as [t Ht];
    [vm_compute; lia|].
  destruct (proj1 (mirrored_records_count_for_one_split sqrt_9 7 _ _ 236 HF)
              t _ Ht) as [t' [Ht' [Hk Hy]]].
  exists t, t'. split; [exact Ht|]. split; [exact Ht'|]. split; assumption.
Defined.

(* ------------------------------------------------------------------ *)
(** ** The filter and the swap *)

Lemma canonical_idempotent (e : event) : canonical (canonical e) = canonical e.
Proof.
  unfold canonical at 1.
  destruct (canonical_light_first e) as [Hle _].
  destruct (A1sci (canonical e) >? A2sci (canonical e)) eqn:E; [|reflexivity].
  apply Z.gtb_lt in E. lia.
Qed.

Lemma canonical_mass_consistent (A_compound : Z) (e : event) :
  mass_consistent A_compound (canonical e) = mass_consistent A_compound e.
Proof.
  unfold mass_consistent.
  destruct (canonical_light_first e) as [_ ->]. reflexivity.
Qed.

(** X5.  The two preparation steps of the reducer commute and each of
    them is idempotent: swapping after filtering gives the table that
    filtering after swapping gives; the swap keeps the number of rows and
    leaves every row with the lighter fragment first; the filter leaves
    only rows whose mass numbers add up to the compound mass. *)
Theorem filter_and_swap_commute (FY : list event) (A_compound : Z) :
  swap_Al_larger_than_Ah (delete_multichance FY A_compound)
  = delete_multichance (swap_Al_larger_than_Ah FY) A_compound
  /\ swap_Al_larger_than_Ah (swap_Al_larger_than_Ah FY) = swap_Al_larger_than_Ah FY
  /\ delete_multichance (delete_multichance FY A_compound) A_compound
     = delete_multichance FY A_compound
  /\ List.length (swap_Al_larger_than_Ah FY) = List.length FY
  /\ Forall (fun e => A1sci e <= A2sci e) (swap_Al_larger_than_Ah FY)
  /\ Forall (fun e => A1sci e + A2sci e = A_compound)
            (delete_multichance FY A_compound).
Proof.
  rewrite !delete_multichance_surviving, !swap_Al_larger_than_Ah_canonical.
  unfold surviving.
  split.
  { rewrite filter_map_comm. f_equal. apply filter_ext.
    intros e. symmetry. apply canonical_mass_consistent. }
  split.
  { rewrite map_map. apply map_ext. apply canonical_idempotent. }
  split.
  { induction FY as [|e l IH]; [reflexivity|]. simpl.
    destruct (mass_consistent A_compound e) eqn:E; [|exact IH].
    simpl. rewrite E, IH. reflexivity. }
  split; [apply length_map|]. split.
  - apply Forall_forall. intros e He. apply in_map_iff in He.
    destruct He as [x [<- _]]. apply canonical_light_first.
  - apply Forall_forall. intros e He. apply filter_In in He.
    destruct He as [_ He]. apply Z.eqb_eq. exact He.
Qed.

(* ================================================================== *)
(** * More about the worker pools *)

Local Open Scope Z_scope.
Local Open Scope list_scope.

Lemma results_Returns {A : Type} (l : list (outcome A)) (objs : list A) :
  results l = Returns objs -> l = map Returns objs.
Proof.
  unfold results. intros H. apply mapM_Returns in H.
  induction H as [|x y l l' Hxy _ IH]; [reflexivity|].
  simpl. rewrite Hxy, IH. reflexivity.
Qed.

(** The objects collected from a pool, read through a tag that every
    task copies from its input, are the inputs in some order. *)
Lemma collected_tags {A B C : Type} (d : C) (choices : list nat)
    (f : A -> outcome B) (g : B -> C) (h : A -> C) (xs : list A)
    (objs : list B) :
  (forall x o, f x = Returns o -> g o = h x) ->
  or_exit (results (complete choices (map f xs))) = Returns objs ->
  Permutation (map g objs) (map h xs).
Proof.
  intros Htag H. apply or_exit_Returns, results_Returns in H.
  pose proof (complete_perm choices (map f xs)) as Hp. rewrite H in Hp.
  set (phi := fun r : outcome B =>
                match r with Returns o => g o | Raises _ => d end).
  assert (E : map phi (map f xs) = map h xs).
  { rewrite map_map. apply map_ext_in. intros x Hx.
    assert (Hin : In (f x) (map Returns objs)).
    { eapply Permutation_in; [apply Permutation_sym; exact Hp|].
      apply in_map. exact Hx. }
    apply in_map_iff in Hin. destruct Hin as [o [Ho _]].
    unfold phi. rewrite <- Ho. apply Htag. symmetry. exact Ho. }
  rewrite <- E. apply (Permutation_map phi) in Hp.
  rewrite map_map in Hp. exact Hp.
Qed.

(** A pool one of whose tasks fails makes the program exit. *)
Lemma one_failure_exits {A : Type} (choices : list nat)
    (futures : list (outcome A)) (e : error) :
  In (Raises e) futures ->
  or_exit (results (complete choices futures)) = Raises SystemExit.
Proof.
  intros Hin.
  destruct (results (complete choices futures)) as [objs|e'] eqn:E;
    [|reflexivity].
  exfalso. apply results_Returns in E.
  assert (H : In (Raises e) (map Returns objs)).
  { rewrite <- E. eapply Permutation_in;
      [apply Permutation_sym, complete_perm|exact Hin]. }
  apply in_map_iff in H. destruct H as [o [Ho _]]. discriminate.
Qed.

Lemma with_pool_or_exit {A : Type} (w : Z) (m : outcome A) (e : error) :
  m = Raises e -> with_pool w (or_exit m) = Raises SystemExit.
Proof. intros ->. apply with_pool_exit. reflexivity. Qed.

(* ------------------------------------------------------------------ *)
(** ** The sizes of the pools *)



(* ------------------------------------------------------------------ *)
(** ** The trials that are collected *)

Lemma create_perturbed_FY_tags (np_sqrt : Q -> Q) (env : environment)
    (key : string) (u r : Q) (n : nat) (A_compound : Z) (talys : bool)
    (dist : string) (o : Random_Parameter_value) :
  create_perturbed_FY np_sqrt env key u r n A_compound talys dist = Returns o ->
  rpv_enumeration_rand_num o = n /\ rpv_random_value o = r
  /\ rpv_param_name o = key
  /\ rpv_pert_param_val o
     = create_perturbed_parameter_value (special_rng env key n) key r u dist.
Proof.
  unfold create_perturbed_FY.
  match goal with
  | |- bind ?m _ = _ -> _ => destruct m as [[fy ign]|e]
  end; simpl; [|discriminate].
  intros H. inversion H; subst. simpl. repeat split.
Qed.

Lemma group_trial_tags (np_sqrt : Q -> Q) (env : environment) (key : string)
    (dict : param_dict) (A_compound : Z) (n : nat) (workers : Z)
    (talys : bool) (dist : string) (mp : Modified_Parameter) :
  perturbed_calculations_single_parameter np_sqrt env key dict A_compound n
    workers talys dist = Returns mp ->
  param_name mp = key
  /\ Permutation
       (map (fun o => (rpv_enumeration_rand_num o, rpv_random_value o))
            (list_of_Random_Parameter_Value_objects mp))
       (enumerate (list_of_rand_num mp))
  /\ Forall (fun o => rpv_param_name o = key)
            (list_of_Random_Parameter_Value_objects mp).
Proof.
  unfold perturbed_calculations_single_parameter.
  destruct (lookup key dict) as [u|e]; simpl; [|discriminate].
  destruct (Modified_Parameter_init (default_rng env key 0) key u n dist)
    as [mp0|e] eqn:E0; simpl; [|discriminate].
  apply Modified_Parameter_init_Returns in E0.
  destruct E0 as [Hname [Hnil _]].
  match goal with
  | |- bind ?m _ = _ -> _ => destruct m as [objs|e] eqn:E
  end; simpl; [|discriminate].
  intros H. inversion H; subst. simpl. rewrite Hnil. simpl.
  apply with_pool_Returns in E.
  split; [reflexivity|]. split.
  - rewrite <- (map_id (enumerate (list_of_rand_num mp0))).
    eapply (collected_tags (O, 0%Q)); [|exact E].
    intros [i r] o Ho. apply create_perturbed_FY_tags in Ho.
    destruct Ho as [-> [-> _]]. reflexivity.
  - apply collected in E. destruct E as [_ Hall].
    apply Forall_forall. intros o Ho.
    apply Hall, In_map_Returns in Ho. destruct Ho as [[i r] [_ Ho]].
    apply create_perturbed_FY_tags in Ho. tauto.
Qed.

(** X7.  In a campaign that returns no trial is lost and none is
    collected twice, whatever the order in which the pools complete their
    tasks.  Parameter-at-a-time mode: the groups are the groups of the
    parameters of the dictionary, in some order, and the trials of a group
    carry the numbers 0, 1, ... of the sampled magnitudes of the group,
    each once and each with its own magnitude.  All-parameters mode: the
    trials carry the numbers 0, ..., requested-1, each once. *)
Theorem no_trial_lost_or_duplicated (np_sqrt : Q -> Q) (env : environment)
    (pickled : Type) (pickle_dump : Reaction -> pickled)
    (str_float : Q -> string) (dict : param_dict) (Z_target A_compound : Z)
    (E_reaction : Q) (runs_MC : Z) (requested : nat) (dist : string)
    (talys : bool) (prog : string) (r : Reaction) (file : dir_entry pickled) :
  Reaction_init np_sqrt env pickle_dump str_float dict Z_target A_compound
    E_reaction runs_MC requested dist talys prog = Returns (r, file) ->
  (prog = "Single_Parameters"%string
   /\ Permutation (map param_name (list_of_Mod_Param_objects r)) (map fst dict)
   /\ Forall
        (fun group =>
           Permutation
             (map (fun o => (rpv_enumeration_rand_num o, rpv_random_value o))
                  (list_of_Random_Parameter_Value_objects group))
             (enumerate (list_of_rand_num group))
           /\ Forall (fun o => rpv_param_name o = param_name group)
                     (list_of_Random_Parameter_Value_objects group))
        (list_of_Mod_Param_objects r))
  \/ (prog = "TMC"%string
      /\ Permutation (map enumeration_rand_val (list_of_TMC_Objects r))
                     (seq 0 requested)).
Proof.
  unfold Reaction_init.
  destruct (String.eqb prog "Single_Parameters") eqn:E1.
  - apply String.eqb_eq in E1.
    match goal with
    | |- bind (bind ?m _) _ = _ -> _ => destruct m as [objs|e] eqn:E
    end; simpl; [|discriminate].
    intros H. inversion H; subst. simpl. left.
    apply with_pool_Returns in E.
    split; [reflexivity|]. split.
    + eapply (collected_tags ""%string); [|exact E].
      intros [key v] o Ho. apply group_trial_tags in Ho. simpl. tauto.
    + apply collected in E. destruct E as [_ Hall].
      apply Forall_forall. intros group Hin.
      apply Hall, In_map_Returns in Hin. destruct Hin as [[key v] [_ Hg]].
      apply group_trial_tags in Hg. destruct Hg as [-> [Hp Hn]].
      split; assumption.
  - destruct (String.eqb prog "TMC") eqn:E2; simpl; [|discriminate].
    apply String.eqb_eq in E2.
    match goal with
    | |- bind (bind ?m _) _ = _ -> _ => destruct m as [objs|e] eqn:E
    end; simpl; [|discriminate].
    intros H. inversion H; subst. simpl. right.
    apply with_pool_Returns in E.
    split; [reflexivity|].
    rewrite <- (map_id (seq 0 requested)).
    eapply (collected_tags O); [|exact E].
    intros k o Ho. apply TMC_trial_parameters in Ho. tauto.
Qed.

(** Four trials in all-parameters mode, the second task completing
    first: the trials carry the numbers 0, 1, 2, 3 in some order. *)
Lemma no_trial_lost_or_duplicated_witness :
  exists r file,
    campaign_example 4 "uniform" "TMC" = Returns (r, file)
    /\ Permutation (map enumeration_rand_val (list_of_TMC_Objects r))
                   [0; 1; 2; 3]%nat.
Proof.
  destruct (campaign_example 4 "uniform" "TMC")
    as [[r file]|e] eqn:E; [|vm_compute in E; discriminate].
  exists r, file. split; [reflexivity|].
  unfold campaign_example in E.
  destruct (no_trial_lost_or_duplicated _ _ _ _ _ _ _ _ _ _ _ _ _ _ _ _ E)
    as [[Hprog _]|[_ H]]; [discriminate|exact H].
Defined.

(* ------------------------------------------------------------------ *)
(** ** A trial that fails *)

Lemma enumerate_In {A : Type} (l : list A) (i : nat) (x : A) :
  nth_error l i = Some x -> In (i, x) (enumerate l).
Proof.
  unfold enumerate. change i with (0 + i)%nat at 2. generalize 0%nat as s.
  revert i. induction l as [|y t IH]; intros i s H.
  - destruct i; discriminate.
  - destruct i as [|j]; simpl in H.
    + inversion H; subst. left. f_equal. lia.
    + right. replace (s + S j)%nat with (S s + j)%nat by lia.
      apply IH. exact H.
Qed.



Local Open Scope string_scope.

Lemma known_distribution_value (g : rng) (name : string) (rand_num u : Q)
    (dist : string) :
  dist = "uniform" \/ dist = "normal" \/ dist = "max-min" ->
  exists v, create_perturbed_parameter_value g name rand_num u dist = Some v.
Proof.
  unfold create_perturbed_parameter_value.
  intros [-> | [-> | ->]];
    destruct (mem name special_case_parameters); eexists; reflexivity.
Qed.

Lemma TMC_Mod_Param_object_init_Returns (g : rng) (name : string) (u : Q)
    (dist : string) (o : TMC_Mod_Param_object) :
  TMC_Mod_Param_object_init g name u dist = Returns o ->
  (dist = "uniform" \/ dist = "normal")
  /\ tmp_param_name o = name /\ tmp_unpert_param_val o = u.
Proof.
  unfold TMC_Mod_Param_object_init.
  destruct (dist =? "uniform") eqn:E1.
  { apply String.eqb_eq in E1. intros H. inversion H; subst. simpl. tauto. }
  destruct (dist =? "normal") eqn:E2; [|discriminate].
  apply String.eqb_eq in E2.
  destruct (gaussian_st_dev_for_parameter name u); simpl; [|discriminate].
  intros H. inversion H; subst. simpl. tauto.
Qed.

Lemma TMC_trial_values (np_sqrt : Q -> Q) (env : environment)
    (dict : param_dict) (k : nat) (A_compound : Z) (talys : bool)
    (dist : string) (t : TMC_Object) :
  create_perturbed_TMC_FY np_sqrt env dict k A_compound talys dist = Returns t ->
  map (fun o => (tmp_param_name o, tmp_unpert_param_val o))
      (list_of_TMC_Mod_Param_objects t) = dict
  /\ Forall (fun o => exists v, tmp_pert_param_val o = Some v)
            (list_of_TMC_Mod_Param_objects t).
Proof.
  unfold create_perturbed_TMC_FY.
  match goal with
  | |- bind ?m _ = _ -> _ => destruct m as [objs|e] eqn:E
  end; simpl; [|discriminate].
  match goal with
  | |- bind ?m _ = _ -> _ => destruct m as [[fy ign]|e]
  end; simpl; [|discriminate].
  intros H. inversion H; subst. simpl.
  apply mapM_Returns in E. clear H.
  induction E as [|[name u] o l l' Ho _ IH]; [split; [reflexivity|constructor]|].
  destruct (TMC_Mod_Param_object_init (default_rng env name k) name u dist)
    as [o0|e] eqn:E0; simpl in Ho; [|discriminate].
  inversion Ho; subst. simpl.
  apply TMC_Mod_Param_object_init_Returns in E0.
  destruct E0 as [Hd [-> ->]]. destruct IH as [IH1 IH2].
  split; [rewrite IH1; reflexivity|].
  constructor; [|exact IH2]. simpl.
  apply known_distribution_value. tauto.
Qed.

(** X13.  No trial of a campaign that returns holds [None] as a perturbed
    value: the constructors of the samplers exit on every distribution
    name for which the perturber would return [None], so that a trial is
    built only for the names the perturber knows.  In all-parameters mode
    every trial holds one perturbed value for each parameter of the
    dictionary, in the order of the dictionary. *)
Theorem perturbed_values_are_never_None (np_sqrt : Q -> Q) (env : environment)
    (pickled : Type) (pickle_dump : Reaction -> pickled)
    (str_float : Q -> string) (dict : param_dict) (Z_target A_compound : Z)
    (E_reaction : Q) (runs_MC : Z) (requested : nat) (dist : string)
    (talys : bool) (prog : string) (r : Reaction) (file : dir_entry pickled) :
  Reaction_init np_sqrt env pickle_dump str_float dict Z_target A_compound
    E_reaction runs_MC requested dist talys prog = Returns (r, file) ->
  Forall (fun group =>
            Forall (fun o => exists v, rpv_pert_param_val o = Some v)
                   (list_of_Random_Parameter_Value_objects group))
         (list_of_Mod_Param_objects r)
  /\ Forall (fun trial =>
               map (fun o => (tmp_param_name o, tmp_unpert_param_val o))
                   (list_of_TMC_Mod_Param_objects trial) = dict
               /\ Forall (fun o => exists v, tmp_pert_param_val o = Some v)
                         (list_of_TMC_Mod_Param_objects trial))
            (list_of_TMC_Objects r).
Proof.
  unfold Reaction_init.
  destruct (prog =? "Single_Parameters") eqn:E1.
  - match goal with
    | |- bind (bind ?m _) _ = _ -> _ => destruct m as [objs|e] eqn:E
    end; simpl; [|discriminate].
    intros H. inversion H; subst. simpl. split; [|constructor].
    apply with_pool_Returns, collected in E. destruct E as [_ Hall].
    apply Forall_forall. intros group Hin.
    apply Hall, In_map_Returns in Hin. destruct Hin as [[key v] [_ Hg]].
    revert Hg. unfold perturbed_calculations_single_parameter.
    destruct (lookup key dict) as [u|e]; simpl; [|discriminate].
    destruct (Modified_Parameter_init (default_rng env key 0) key u requested
                dist) as [mp0|e] eqn:E0; simpl; [|discriminate].
    apply Modified_Parameter_init_Returns in E0.
    destruct E0 as [_ [Hnil Hd]].
    match goal with
    | |- bind ?m _ = _ -> _ => destruct m as [objs'|e] eqn:E'
    end; simpl; [|discriminate].
    intros Hg. inversion Hg; subst. simpl. rewrite Hnil. simpl.
    apply with_pool_Returns, collected in E'. destruct E' as [_ Hall'].
    apply Forall_forall. intros o Ho.
    apply Hall', In_map_Returns in Ho. destruct Ho as [[i x] [_ Ho]].
    apply create_perturbed_FY_tags in Ho. destruct Ho as [_ [_ [_ ->]]].
    apply known_distribution_value. tauto.
  - destruct (prog =? "TMC") eqn:E2; simpl; [|discriminate].
    match goal with
    | |- bind (bind ?m _) _ = _ -> _ => destruct m as [objs|e] eqn:E
    end; simpl; [|discriminate].
    intros H. inversion H; subst. simpl. split; [constructor|].
    apply with_pool_Returns, collected in E. destruct E as [_ Hall].
    apply Forall_forall. intros trial Hin.
    apply Hall, In_map_Returns in Hin. destruct Hin as [k [_ Ht]].
    apply TMC_trial_values in Ht. exact Ht.
Qed.

(** Two trials for each of the three parameters under max-min. *)
Lemma perturbed_values_are_never_None_witness :
  exists r file,
    campaign_example 2 "max-min" "Single_Parameters" = Returns (r, file)
    /\ Forall (fun group =>
                 Forall (fun o => exists v, rpv_pert_param_val o = Some v)
                        (list_of_Random_Parameter_Value_objects group))
              (list_of_Mod_Param_objects r).
Proof.
  destruct (campaign_example 2 "max-min" "Single_Parameters")
    as [[r file]|e] eqn:E; [|vm_compute in E; discriminate].
  exists r, file. split; [reflexivity|].
  unfold campaign_example in E.
  exact (proj1 (perturbed_values_are_never_None _ _ _ _ _ _ _ _ _ _ _ _ _ _ _ _ E)).
Defined.

(* ================================================================== *)
(** * More about the loader *)

Local Open Scope Z_scope.
Local Open Scope list_scope.

Section LoaderProperties.

Variable pickled : Type.
Variable pickle_load : pickled -> pyobject.

Lemma load_entry_Returns (self : McPUFF_Perturbed_Data) (f : dir_entry pickled) :
  readable f -> exists self', load_entry pickle_load self f = Returns self'.
Proof.
  intros [Hf Hn]. unfold load_entry. rewrite Hf. simpl.
  destruct (String.prefix "TMC" (name f)).
  - destruct (pickle_load (content f)); eexists; reflexivity.
  - destruct Hn as [Hn|Hn]; [discriminate|]. rewrite Hn.
    destruct (pickle_load (content f)); eexists; reflexivity.
Qed.

Lemma load_entry_Raises (self : McPUFF_Perturbed_Data) (f : dir_entry pickled) :
  ~ readable f -> load_entry pickle_load self f = Raises SystemExit.
Proof.
  intros H. unfold load_entry, readable in *.
  destruct (is_file f); simpl; [|reflexivity].
  destruct (String.prefix "TMC" (name f)); [exfalso; apply H; auto|].
  destruct (String.prefix "Single" (name f)); [exfalso; apply H; auto|].
  reflexivity.
Qed.

Lemma readable_dec (f : dir_entry pickled) : readable f \/ ~ readable f.
Proof.
  unfold readable.
  destruct (is_file f); [|right; intros [H _]; discriminate].
  destruct (String.prefix "TMC" (name f)); [left; auto|].
  destruct (String.prefix "Single" (name f)); [left; auto|].
  right. intros [_ [H|H]]; discriminate.
Qed.

Lemma load_entries_outcome (l : list (dir_entry pickled))
    (self : McPUFF_Perturbed_Data) :
  (Forall readable l -> exists mpd, load_entries pickle_load self l = Returns mpd)
  /\ (~ Forall readable l -> load_entries pickle_load self l = Raises SystemExit).
Proof.
  revert self. induction l as [|f t IH]; intros self; simpl.
  - split; [intros _; eexists; reflexivity|].
    intros H. exfalso. apply H. constructor.
  - destruct (readable_dec f) as [Hf|Hf].
    + destruct (load_entry_Returns self f Hf) as [self' ->]. simpl.
      split.
      * intros H. inversion H; subst. apply (proj1 (IH self')). assumption.
      * intros H. apply (proj2 (IH self')). intros Ht. apply H.
        constructor; assumption.
    + rewrite (load_entry_Raises self f Hf). simpl.
      split; [|reflexivity].
      intros H. inversion H; subst. contradiction.
Qed.

Lemma load_entry_lists (self self' : McPUFF_Perturbed_Data)
    (f : dir_entry pickled) :
  load_entry pickle_load self f = Returns self' ->
  mpd_list_of_Mod_Param_objects self'
  = mpd_list_of_Mod_Param_objects self ++ Mod_Param_objects_of pickle_load f
  /\ mpd_list_of_TMC_Objects self'
     = mpd_list_of_TMC_Objects self ++ TMC_Objects_of pickle_load f
  /\ mpd_list_of_Reac_objects self'
     = mpd_list_of_Reac_objects self ++ Reac_objects_of pickle_load f
  /\ (forall r, assigns pickle_load f r -> copied_from r self')
  /\ (assigns_nothing pickle_load f -> same_attributes self' self).
Proof.
  unfold load_entry, Mod_Param_objects_of, TMC_Objects_of, Reac_objects_of,
    assigns, assigns_nothing, copied_from, same_attributes.
  destruct (is_file f); simpl; [|discriminate].
  destruct (String.prefix "TMC" (name f)).
  - destruct (pickle_load (content f)) as [r0|]; intros H; inversion H; subst;
      simpl; rewrite ?app_nil_r;
      (split; [reflexivity|]); (split; [reflexivity|]);
      (split; [reflexivity|]); split.
    + intros rr [_ Hr]. inversion Hr; subst. repeat split.
    + intros [Hc|Hc]; discriminate.
    + intros rr [_ Hr]. discriminate.
    + intros _. repeat split.
  - destruct (String.prefix "Single" (name f)); [|discriminate].
    destruct (pickle_load (content f)) as [r0|]; intros H; inversion H; subst;
      simpl; rewrite ?app_nil_r;
      (split; [reflexivity|]); (split; [reflexivity|]);
      (split; [reflexivity|]); split;
      try (intros rr [Hc _]; discriminate); intros _; repeat split.
Qed.

Lemma load_entries_lists (l : list (dir_entry pickled))
    (self mpd : McPUFF_Perturbed_Data) :
  load_entries pickle_load self l = Returns mpd ->
  mpd_list_of_Mod_Param_objects mpd
  = mpd_list_of_Mod_Param_objects self ++ flat_map (Mod_Param_objects_of pickle_load) l
  /\ mpd_list_of_TMC_Objects mpd
     = mpd_list_of_TMC_Objects self ++ flat_map (TMC_Objects_of pickle_load) l
  /\ mpd_list_of_Reac_objects mpd
     = mpd_list_of_Reac_objects self ++ flat_map (Reac_objects_of pickle_load) l
  /\ (Forall (assigns_nothing pickle_load) l -> same_attributes mpd self).
Proof.
  revert self. induction l as [|f t IH]; intros self; simpl.
  - intros H. inversion H; subst. rewrite !app_nil_r.
    split; [reflexivity|]. split; [reflexivity|]. split; [reflexivity|].
    intros _. repeat split.
  - destruct (load_entry pickle_load self f) as [self'|e] eqn:E; simpl;
      [|discriminate].
    intros H. apply IH in H. apply load_entry_lists in E.
    destruct H as [H1 [H2 [H3 H4]]]. destruct E as [E1 [E2 [E3 [_ E5]]]].
    rewrite H1, H2, H3, E1, E2, E3, <- !app_assoc.
    split; [reflexivity|]. split; [reflexivity|]. split; [reflexivity|].
    intros Hall. inversion Hall; subst.
    specialize (H4 H6). specialize (E5 H5).
    unfold same_attributes in *.
    destruct H4 as [A1 [A2 [A3 [A4 [A5 [A6 [A7 A8]]]]]]].
    destruct E5 as [B1 [B2 [B3 [B4 [B5 [B6 [B7 B8]]]]]]].
    repeat split; congruence.
Qed.

End LoaderProperties.



(** X10.  Batches are concatenated.  When the loader returns, its list of
    TMC trials (and of parameter groups) is the concatenation, in the
    order of the folder, of the lists of the campaigns pickled in the
    "TMC" files, its list of campaigns holds the campaigns pickled in the
    "Single" files in the order of the folder, and a file that does not
    hold a campaign object adds nothing.  The other attributes are those
    of the campaign of the last "TMC" file that holds one. *)
Theorem loader_concatenates_batches (pickled : Type)
    (pickle_load : pickled -> pyobject) (pth_PKL : list (dir_entry pickled))
    (mpd : McPUFF_Perturbed_Data) :
  McPUFF_Perturbed_Data_init pickle_load pth_PKL = Returns mpd ->
  mpd_list_of_TMC_Objects mpd = flat_map (TMC_Objects_of pickle_load) pth_PKL
  /\ mpd_list_of_Mod_Param_objects mpd
     = flat_map (Mod_Param_objects_of pickle_load) pth_PKL
  /\ mpd_list_of_Reac_objects mpd
     = flat_map (Reac_objects_of pickle_load) pth_PKL
  /\ (forall before f after r,
        pth_PKL = before ++ f :: after ->
        assigns pickle_load f r ->
        Forall (assigns_nothing pickle_load) after ->
        mpd_reaction_info mpd = Some (reaction_info r)
        /\ mpd_dictionary_unpert_param_name_val mpd
           = Some (dictionary_unpert_param_name_val r)
        /\ mpd_program_flag mpd = Some (program_flag r)
        /\ mpd_With_TALYS_flag mpd = Some (With_TALYS_flag r)
        /\ mpd_unperturbed_FY mpd = unperturbed_FY r
        /\ mpd_unperturbed_ignored_events mpd = unperturbed_ignored_events r
        /\ mpd_unperturbed_GEF_results mpd = unperturbed_GEF_results r
        /\ mpd_unperturbed_TALYS_results mpd = unperturbed_TALYS_results r)
  /\ (Forall (assigns_nothing pickle_load) pth_PKL ->
      mpd_reaction_info mpd = None /\ mpd_unperturbed_FY mpd = None).
Proof.
  unfold McPUFF_Perturbed_Data_init. intros H.
  pose proof (load_entries_lists pickled pickle_load _ _ _ H) as [H1 [H2 [H3 H4]]].
  simpl in H1, H2, H3.
  split; [exact H2|]. split; [exact H1|]. split; [exact H3|]. split.
  - intros before f after r -> Hf Hafter.
    clear H1 H2 H3 H4. revert H.
    generalize (mkMPD [] [] [] None None None None None None None None).
    induction before as [|b t IH]; intros self; simpl.
    + destruct (load_entry pickle_load self f) as [self'|e] eqn:E; simpl;
        [|discriminate].
      intros H. apply load_entries_lists in H. destruct H as [_ [_ [_ H]]].
      specialize (H Hafter).
      apply load_entry_lists in E. destruct E as [_ [_ [_ [E _]]]].
      specialize (E r Hf). unfold copied_from, same_attributes in *.
      destruct H as [A1 [A2 [A3 [A4 [A5 [A6 [A7 A8]]]]]]].
      destruct E as [B1 [B2 [B3 [B4 [B5 [B6 [B7 B8]]]]]]].
      repeat split; congruence.
    + destruct (load_entry pickle_load self b) as [self'|e]; simpl;
        [|discriminate].
      apply IH.
  - intros Hall. specialize (H4 Hall). unfold same_attributes in H4.
    simpl in H4. tauto.
Qed.

(** Two batches of all-parameters mode, of two and of three trials, whose
    files were renamed and put in one folder. *)
Lemma loader_concatenates_batches_witness :
  exists r1 file1 r2 file2 mpd,
    campaign_example 2 "uniform" "TMC" = Returns (r1, file1)
    /\ campaign_example 3 "uniform" "TMC" = Returns (r2, file2)
    /\ McPUFF_Perturbed_Data_init Reaction_object
         [ mkEntry "TMC_batch_1.pkl"%string true (content file1);
           mkEntry "TMC_batch_2.pkl"%string true (content file2) ]
       = Returns mpd
    /\ mpd_list_of_TMC_Objects mpd
       = list_of_TMC_Objects r1 ++ list_of_TMC_Objects r2
    /\ List.length (mpd_list_of_TMC_Objects mpd) = 5%nat
    /\ mpd_reaction_info mpd = Some (reaction_info r2).
Proof.
  destruct (campaign_example 2 "uniform" "TMC")
    as [[r1 file1]|e] eqn:E1; [|vm_compute in E1; discriminate].
  destruct (campaign_example 3 "uniform" "TMC")
    as [[r2 file2]|e] eqn:E2; [|vm_compute in E2; discriminate].
  assert (C1 : content file1 = r1)
    by (vm_compute in E1; inversion E1; reflexivity).
  assert (C2 : content file2 = r2)
    by (vm_compute in E2; inversion E2; reflexivity).
  set (folder := [ mkEntry "TMC_batch_1.pkl"%string true (content file1);
                   mkEntry "TMC_batch_2.pkl"%string true (content file2) ]).
  destruct (McPUFF_Perturbed_Data_init Reaction_object folder)
    as [mpd|e] eqn:E; [|discriminate].
  exists r1, file1, r2, file2, mpd.
  split; [reflexivity|]. split; [reflexivity|]. split; [exact E|].
  destruct (loader_concatenates_batches Reaction Reaction_object folder mpd E)
    as [H1 [_ [_ [H4 _]]]].
  assert (HL : mpd_list_of_TMC_Objects mpd
               = list_of_TMC_Objects r1 ++ list_of_TMC_Objects r2).
  { rewrite H1. unfold folder. simpl. unfold TMC_Objects_of. simpl.
    rewrite C1, C2, app_nil_r. reflexivity. }
  split; [exact HL|]. split.
  - rewrite HL, length_app.
    vm_compute in E1. inversion E1; subst.
    vm_compute in E2. inversion E2; subst. reflexivity.
  - apply (H4 [mkEntry "TMC_batch_1.pkl"%string true (content file1)]
              (mkEntry "TMC_batch_2.pkl"%string true (content file2)) [] r2).
    + reflexivity.
    + split; [reflexivity|]. simpl. rewrite C2. reflexivity.
    + constructor.
Defined.

(* ================================================================== *)
(** * More about the sampler and the perturber *)

Local Open Scope list_scope.
Local Open Scope Q_scope.

Lemma py_round_zero (x : Q) : x == 0 -> py_round x 9 == 0.
Proof.
  intros H. apply Qle_antisym.
  - apply py_round_nonpos. rewrite H. apply Qle_refl.
  - apply py_round_nonneg. rewrite H. apply Qle_refl.
Qed.

Lemma rng_normal_In (g : rng) (loc scale : Q) (size : nat) (r : Q) :
  In r (rng_normal g loc scale size) ->
  exists i, r = loc + scale * standard_normal g i.
Proof.
  unfold rng_normal. intros H. apply in_map_iff in H.
  destruct H as [i [Hi _]]. exists i. symmetry. exact Hi.
Qed.

(** X11.  A parameter outside the special set whose nominal value is zero
    is never perturbed.  Under uniform sampling every magnitude drawn for
    it is zero and its perturbed value is not a number; under normal
    sampling every draw and every perturbed value is zero; under max-min
    every perturbed value is zero. *)
Theorem zero_nominal_is_not_perturbed (g g' : rng) (name : string)
    (nominal : Q) (count : nat) :
  ~ In name special_case_parameters ->
  nominal == 0 ->
  (exists mp,
     Modified_Parameter_init g name nominal count "uniform" = Returns mp
     /\ List.length (list_of_rand_num mp) = count
     /\ forall rand_num, In rand_num (list_of_rand_num mp) ->
          rand_num == 0
          /\ create_perturbed_parameter_value g' name rand_num nominal "uniform"
             = Some NaN)
  /\ (In name st_dev_param_keys ->
      exists mp,
        Modified_Parameter_init g name nominal count "normal" = Returns mp
        /\ List.length (list_of_rand_num mp) = count
        /\ forall rand_num, In rand_num (list_of_rand_num mp) ->
             rand_num == 0
             /\ exists v,
                  create_perturbed_parameter_value g' name rand_num nominal
                    "normal" = Some (Num v)
                  /\ v == 0)
  /\ (exists mp,
        Modified_Parameter_init g name nominal count "max-min" = Returns mp
        /\ forall rand_num, In rand_num (list_of_rand_num mp) ->
             exists v,
               create_perturbed_parameter_value g' name rand_num nominal
                 "max-min" = Some (Num v)
               /\ v == 0).
Proof.
  intros Hname Hz. apply mem_not_In in Hname.
  assert (Ha : Qabs nominal == 0) by (rewrite Hz; reflexivity).
  split; [|split].
  - eexists. split; [reflexivity|]. simpl. split.
    { unfold rng_uniform. rewrite length_map, length_seq. reflexivity. }
    intros rand_num Hin. split.
    + apply rng_uniform_In in Hin. destruct Hin as [i ->].
      rewrite Ha. ring.
    + unfold create_perturbed_parameter_value. rewrite Hname. simpl.
      unfold float_div.
      assert (E : Qeq_bool (Qabs nominal) 0 = true)
        by (apply Qeq_bool_iff; exact Ha).
      rewrite E. reflexivity.
  - intros Hkey. apply mem_In in Hkey.
    unfold Modified_Parameter_init, gaussian_st_dev_for_parameter.
    rewrite Hkey. simpl. eexists. split; [reflexivity|]. simpl. split.
    { unfold rng_normal. rewrite length_map, length_seq. reflexivity. }
    intros rand_num Hin. apply rng_normal_In in Hin. destruct Hin as [i Hi].
    assert (Hr : rand_num == 0).
    { rewrite Hi.
      assert (Hs : Qabs (nominal * perturbation_in_percent) == 0).
      { rewrite Hz. reflexivity. }
      rewrite Hs, Hz. ring. }
    split; [exact Hr|].
    unfold create_perturbed_parameter_value. rewrite Hname. simpl.
    eexists. split; [reflexivity|]. apply py_round_zero. exact Hr.
  - eexists. split; [reflexivity|]. simpl.
    intros rand_num Hin.
    unfold create_perturbed_parameter_value. rewrite Hname. simpl.
    eexists. split; [reflexivity|]. apply py_round_zero.
    rewrite Hz. ring.
Qed.

(** The parameter "Tscale" with the nominal value 0, three trials. *)
Lemma zero_nominal_is_not_perturbed_witness :
  ~ In "Tscale"%string special_case_parameters
  /\ 0 == 0
  /\ exists mp,
       Modified_Parameter_init rng_example "Tscale" 0 3 "uniform" = Returns mp
       /\ List.length (list_of_rand_num mp) = 3%nat
       /\ forall rand_num, In rand_num (list_of_rand_num mp) ->
            create_perturbed_parameter_value rng_example "Tscale" rand_num 0
              "uniform" = Some NaN.
Proof.
  assert (H1 : ~ In "Tscale"%string special_case_parameters).
  { intros H. apply mem_In in H. discriminate. }
  assert (H2 : 0 == 0) by reflexivity.
  split; [exact H1|]. split; [exact H2|].
  destruct (proj1 (zero_nominal_is_not_perturbed rng_example rng_example
                     "Tscale" 0 3 H1 H2)) as [mp [Hmp [Hlen Hall]]].
  exists mp. split; [exact Hmp|]. split; [exact Hlen|].
  intros rand_num Hin. exact (proj2 (Hall rand_num Hin)).
Defined.



(* ================================================================== *)
(** * Identifiers and the files named after them *)

Local Close Scope Q_scope.
Local Close Scope Z_scope.
Local Open Scope list_scope.
Local Open Scope string_scope.

Lemma string_of_uint_digits (d : Decimal.uint) :
  occurs "_" (NilEmpty.string_of_uint d) = false.
Proof. induction d; simpl; [reflexivity|assumption..]. Qed.

Lemma str_nat_digits (n : nat) : occurs "_" (str_nat n) = false.
Proof. apply string_of_uint_digits. Qed.

Lemma str_nat_inj (n m : nat) : str_nat n = str_nat m -> n = m.
Proof.
  unfold str_nat. intros H.
  apply (f_equal NilEmpty.uint_of_string) in H.
  rewrite !NilEmpty.usu in H. inversion H as [H'].
  apply (f_equal Nat.of_uint) in H'.
  rewrite !DecimalNat.Unsigned.of_to in H'. exact H'.
Qed.

(** A text is cut in one way only at its last underscore. *)
Lemma cut_at_last_underscore (p p' d d' : string) :
  occurs "_" d = false -> occurs "_" d' = false ->
  p ++ "_" ++ d = p' ++ "_" ++ d' -> p = p' /\ d = d'.
Proof.
  intros Hd Hd'. revert p'.
  induction p as [|c t IH]; intros p' H.
  - destruct p' as [|c' t']; simpl in H.
    + inversion H. split; reflexivity.
    + inversion H as [[Hc Ht]]. exfalso.
      rewrite Ht in Hd. clear -Hd.
      induction t' as [|x r IHr]; simpl in Hd.
      * discriminate.
      * apply orb_false_elim in Hd. destruct Hd as [_ Hd]. apply IHr. exact Hd.
  - destruct p' as [|c' t']; simpl in H.
    + inversion H as [[Hc Ht]]. exfalso.
      rewrite <- Ht in Hd'. clear -Hd'.
      induction t as [|x r IHr]; simpl in Hd'.
      * discriminate.
      * apply orb_false_elim in Hd'. destruct Hd' as [_ Hd'].
        apply IHr. exact Hd'.
    + inversion H as [[Hc Ht]]. destruct (IH t' Ht) as [-> ->].
      split; reflexivity.
Qed.

Lemma append_cancel_l (a b c : string) : a ++ b = a ++ c -> b = c.
Proof.
  induction a as [|x t IH]; simpl; intros H; [exact H|].
  inversion H. apply IH. assumption.
Qed.

(** X14.  The identifiers of the runs of a campaign are pairwise
    different: the identifier of a trial of parameter-at-a-time mode
    determines the parameter and the number of the trial, the identifier
    of a trial of all-parameters mode determines its number, and no
    identifier of one kind is an identifier of another kind or the
    identifier of the unperturbed run. *)
Theorem thread_identifiers_are_unique :
  (forall p p' n n',
     Param_thread_ID p n = Param_thread_ID p' n' -> p = p' /\ n = n')
  /\ (forall n n', TMC_thread_ID n = TMC_thread_ID n' -> n = n')
  /\ (forall p n n', Param_thread_ID p n <> TMC_thread_ID n')
  /\ (forall p n, Param_thread_ID p n <> unique_unpert_thread_ID)
  /\ (forall n, TMC_thread_ID n <> unique_unpert_thread_ID).
Proof.
  split; [|split; [|split; [|split]]].
  - intros p p' n n' H. unfold Param_thread_ID in H.
    apply (append_cancel_l "Param_") in H.
    apply cut_at_last_underscore in H; try apply str_nat_digits.
    destruct H as [Hp Hn]. split; [exact Hp|]. apply str_nat_inj. exact Hn.
  - intros n n' H. unfold TMC_thread_ID in H.
    apply (append_cancel_l "TMC_") in H. apply str_nat_inj. exact H.
  - intros p n n' H. discriminate.
  - intros p n H. discriminate.
  - intros n H. discriminate.
Qed.

(** The trials 1 and 11, and the trial 5 of two parameters of which the
    name of the one begins with the name of the other. *)
Lemma thread_identifiers_are_unique_witness :
  TMC_thread_ID 1 <> TMC_thread_ID 11
  /\ Param_thread_ID "kappa" 1 <> Param_thread_ID "kappa" 11
  /\ Param_thread_ID "SIGDEFO_0" 5 <> Param_thread_ID "SIGDEFO" 5.
Proof.
  destruct thread_identifiers_are_unique as [HP [HT _]].
  split; [|split].
  - intros H. apply HT in H. discriminate H.
  - intros H. apply HP in H. destruct H as [_ H]. discriminate H.
  - intros H. apply HP in H. destruct H as [H _]. discriminate H.
Defined.

(* ================================================================== *)
(** * The ".ff" files *)

Lemma endswith_refl (s : string) : endswith s s = true.
Proof. destruct s; cbn [endswith]; rewrite String.eqb_refl; reflexivity. Qed.

Lemma endswith_append (a b : string) : endswith (a ++ b) b = true.
Proof.
  induction a as [|c t IH].
  - apply endswith_refl.
  - change (String c t ++ b) with (String c (t ++ b)). cbn [endswith].
    rewrite IH. apply orb_true_r.
Qed.

Lemma append_assoc (a b c : string) : (a ++ b) ++ c = a ++ b ++ c.
Proof. induction a as [|x t IH]; simpl; [reflexivity|]. rewrite IH. reflexivity. Qed.

Lemma elements_Returns (key element : string) :
  elements key = Returns element ->
  (key = "92" /\ element = "U") \/ (key = "94" /\ element = "Pu").
Proof.
  unfold elements.
  destruct (key =? "92") eqn:E1.
  - apply String.eqb_eq in E1. intros H. inversion H. left. tauto.
  - destruct (key =? "94") eqn:E2; [|discriminate].
    apply String.eqb_eq in E2. intros H. inversion H. right. tauto.
Qed.

Lemma str_int_92 (z : Z) : str_int z = "92" <-> z = 92%Z.
Proof.
  split; [|intros ->; reflexivity].
  unfold str_int. intros H.
  apply (f_equal NilEmpty.int_of_string) in H.
  rewrite NilEmpty.isi in H. simpl in H. inversion H as [H'].
  apply (f_equal Z.of_int) in H'. rewrite DecimalZ.of_to in H'. exact H'.
Qed.

Lemma str_int_94 (z : Z) : str_int z = "94" <-> z = 94%Z.
Proof.
  split; [|intros ->; reflexivity].
  unfold str_int. intros H.
  apply (f_equal NilEmpty.int_of_string) in H.
  rewrite NilEmpty.isi in H. simpl in H. inversion H as [H'].
  apply (f_equal Z.of_int) in H'. rewrite DecimalZ.of_to in H'. exact H'.
Qed.

Lemma ff_file_name_suffix (Z_target A_compound : Z) (energy id n : string) :
  ff_file_name Z_target A_compound energy id = Returns n ->
  endswith n (ff_suffix id) = true.
Proof.
  unfold ff_file_name.
  destruct (elements (str_int Z_target)) as [el|e]; cbn [bind];
    [|discriminate].
  intros H.
  assert (E : n = el ++ str_int A_compound ++ "_" ++ energy
                  ++ ".00e+00MeV_gef_" ++ ff_suffix id)
    by (unfold ff_suffix; congruence).
  rewrite E, <- !append_assoc. apply endswith_append.
Qed.

Lemma ff_file_names_differ (Z_target A_compound : Z) (id n6 n7 : string) :
  ff_file_name Z_target A_compound "6" id = Returns n6 ->
  ff_file_name Z_target A_compound "7" id = Returns n7 ->
  n6 <> n7.
Proof.
  unfold ff_file_name.
  destruct (elements (str_int Z_target)) as [el|e]; cbn [bind];
    [|discriminate].
  intros H6 H7 E.
  assert (E' : el ++ str_int A_compound ++ "_" ++ "6" ++ ".00e+00MeV_gef_"
                  ++ lower id ++ ".ff"
               = el ++ str_int A_compound ++ "_" ++ "7" ++ ".00e+00MeV_gef_"
                    ++ lower id ++ ".ff") by congruence.
  apply append_cancel_l, append_cancel_l in E'. discriminate.
Qed.

Lemma ff_file_name_Returns (Z_target A_compound : Z) (energy id : string) :
  Z_target = 92%Z \/ Z_target = 94%Z ->
  exists n, ff_file_name Z_target A_compound energy id = Returns n.
Proof.
  unfold ff_file_name. intros [-> | ->]; eexists; reflexivity.
Qed.

Lemma ff_file_name_Raises (Z_target A_compound : Z) (energy id : string) :
  Z_target <> 92%Z -> Z_target <> 94%Z ->
  ff_file_name Z_target A_compound energy id = Raises KeyError.
Proof.
  intros H92 H94. unfold ff_file_name, elements.
  destruct (str_int Z_target =? "92") eqn:E1.
  { apply String.eqb_eq, str_int_92 in E1. contradiction. }
  destruct (str_int Z_target =? "94") eqn:E2.
  { apply String.eqb_eq, str_int_94 in E2. contradiction. }
  reflexivity.
Qed.

Lemma write_file_Some (d : folder) (n text : string) :
  Forall (fun f => is_file f = false -> name f <> n) d ->
  exists d', write_file d n text = Some d'.
Proof.
  induction 1 as [|e t He _ IH]; simpl; [eexists; reflexivity|].
  destruct (name e =? n) eqn:E.
  - apply String.eqb_eq in E. destruct (is_file e) eqn:Ef.
    + eexists; reflexivity.
    + exfalso. apply He; [reflexivity|exact E].
  - destruct IH as [t' ->]. eexists; reflexivity.
Qed.

Lemma write_file_kept (id : string) (d d' : folder) (n text : string) :
  endswith n (ff_suffix id) = true ->
  write_file d n text = Some d' ->
  filter (ff_kept id) d' = filter (ff_kept id) d.
Proof.
  intros Hn.
  assert (K1 : ff_kept id (mkEntry n true text) = false).
  { unfold ff_kept. cbn [is_file name]. rewrite Hn. reflexivity. }
  revert d'. induction d as [|e t IH]; intros d' H; cbn [write_file] in H.
  - inversion H. cbn [filter]. rewrite K1. reflexivity.
  - destruct (name e =? n) eqn:E.
    + apply String.eqb_eq in E. destruct (is_file e) eqn:Ef; [|discriminate].
      inversion H. cbn [filter]. rewrite K1.
      assert (K2 : ff_kept id e = false).
      { unfold ff_kept. rewrite Ef, E, Hn. reflexivity. }
      rewrite K2. reflexivity.
    + destruct (write_file t n text) as [t'|]; [|discriminate].
      inversion H. cbn [filter]. rewrite (IH t' eq_refl). reflexivity.
Qed.

Lemma write_file_In (d d' : folder) (n text : string) :
  write_file d n text = Some d' ->
  In (mkEntry n true text) d'
  /\ forall f, In f d -> name f <> n -> In f d'.
Proof.
  revert d'. induction d as [|e t IH]; intros d' H; simpl in H.
  - inversion H. split; [left; reflexivity|]. intros f [].
  - destruct (name e =? n) eqn:E.
    + apply String.eqb_eq in E. destruct (is_file e); [|discriminate].
      inversion H. split; [left; reflexivity|].
      intros f [Hf|Hf] Hne; [subst; contradiction|right; exact Hf].
    + destruct (write_file t n text) as [t'|]; [|discriminate].
      inversion H. destruct (IH t' eq_refl) as [IH1 IH2].
      split; [right; exact IH1|].
      intros f [Hf|Hf] Hne; [left; exact Hf|right; apply IH2; assumption].
Qed.

Lemma write_file_folders (d d' : folder) (n text : string) (P : string -> Prop) :
  write_file d n text = Some d' ->
  Forall (fun f => is_file f = false -> P (name f)) d ->
  Forall (fun f => is_file f = false -> P (name f)) d'.
Proof.
  revert d'. induction d as [|e t IH]; intros d' H Hall; simpl in H.
  - inversion H. constructor; [simpl; discriminate|constructor].
  - inversion Hall as [|x l He Ht]; subst.
    destruct (name e =? n); [destruct (is_file e); [|discriminate]|].
    + inversion H. constructor; [simpl; discriminate|exact Ht].
    + destruct (write_file t n text) as [t'|]; [|discriminate].
      inversion H. constructor; [exact He|]. apply IH; [reflexivity|exact Ht].
Qed.

(** X15.  The ".ff" files printed for a run are the files deleted for it.
    For a target that is uranium or plutonium, a summary table with a row
    and a library folder without a subfolder named like a file of the run,
    printing leaves two files, named after the energies 6 and 7 and the
    identifier of the run in lower case, with the same text; deleting for
    the same identifier then leaves exactly the entries of the library
    that do not end with the identifier in lower case and ".ff": the
    library is as before when it held no such file.  For every other
    target printing raises KeyError and writes nothing; deleting in an
    empty folder raises UnboundLocalError. *)
Theorem printed_ff_files_are_deleted (format_2e format_4e : Q -> string)
    (library : folder) (FY_TALYS_format : list ff_row) (Z_target A_compound : Z)
    (E_reaction : Q) (unique_thread_ID : string) :
  (Z_target <> 92%Z -> Z_target <> 94%Z ->
   print_TALYS_ff_files format_2e format_4e library FY_TALYS_format Z_target
     A_compound E_reaction unique_thread_ID = (library, Error KeyError))
  /\ (Z_target = 92%Z \/ Z_target = 94%Z ->
      FY_TALYS_format <> [] ->
      Forall (fun f => is_file f = false ->
                       endswith (name f) (ff_suffix unique_thread_ID) = false)
             library ->
      exists printed n6 n7,
        print_TALYS_ff_files format_2e format_4e library FY_TALYS_format
          Z_target A_compound E_reaction unique_thread_ID = (printed, Nothing)
        /\ ff_file_name Z_target A_compound "6" unique_thread_ID = Returns n6
        /\ ff_file_name Z_target A_compound "7" unique_thread_ID = Returns n7
        /\ n6 <> n7
        /\ In (mkEntry n6 true
                 (ff_text format_2e format_4e FY_TALYS_format Z_target
                    A_compound E_reaction)) printed
        /\ In (mkEntry n7 true
                 (ff_text format_2e format_4e FY_TALYS_format Z_target
                    A_compound E_reaction)) printed
        /\ delete_TALYS_ff_files printed unique_thread_ID
           = (filter (ff_kept unique_thread_ID) library, Nothing)
        /\ (Forall (fun f => endswith (name f) (ff_suffix unique_thread_ID)
                             = false) library ->
            delete_TALYS_ff_files printed unique_thread_ID
            = (library, Nothing)))
  /\ delete_TALYS_ff_files [] unique_thread_ID = ([], Error UnboundLocalError).
Proof.
  split; [|split; [|reflexivity]].
  - intros H92 H94. unfold print_TALYS_ff_files. simpl.
    rewrite !(ff_file_name_Raises _ _ _ _ H92 H94). reflexivity.
  - intros HZ Ht Hlib.
    destruct (ff_file_name_Returns Z_target A_compound "6" unique_thread_ID HZ)
      as [n6 H6].
    destruct (ff_file_name_Returns Z_target A_compound "7" unique_thread_ID HZ)
      as [n7 H7].
    pose proof (ff_file_name_suffix _ _ _ _ _ H6) as S6.
    pose proof (ff_file_name_suffix _ _ _ _ _ H7) as S7.
    pose proof (ff_file_names_differ _ _ _ _ _ H6 H7) as Hne.
    set (text := ff_text format_2e format_4e FY_TALYS_format Z_target
                   A_compound E_reaction).
    assert (Hno : forall n (d : folder),
              endswith n (ff_suffix unique_thread_ID) = true ->
              Forall (fun f => is_file f = false ->
                        endswith (name f) (ff_suffix unique_thread_ID) = false) d ->
              Forall (fun f => is_file f = false -> name f <> n) d).
    { intros n d Hn. apply Forall_impl. intros f Hf Hd E.
      rewrite E, Hn in Hf. specialize (Hf Hd). discriminate. }
    destruct (write_file_Some library n6 text (Hno n6 _ S6 Hlib)) as [d1 W1].
    pose proof (write_file_folders _ _ _ _
                  (fun s => endswith s (ff_suffix unique_thread_ID) = false)
                  W1 Hlib) as Hd1.
    destruct (write_file_Some d1 n7 text (Hno n7 _ S7 Hd1)) as [d2 W2].
    exists d2, n6, n7.
    assert (Hp : print_TALYS_ff_files format_2e format_4e library
                   FY_TALYS_format Z_target A_compound E_reaction
                   unique_thread_ID = (d2, Nothing)).
    { unfold print_TALYS_ff_files. simpl. rewrite H6. fold text. rewrite W1.
      rewrite H7, W2. destruct FY_TALYS_format; [contradiction|reflexivity]. }
    split; [exact Hp|]. split; [exact H6|]. split; [exact H7|].
    split; [exact Hne|].
    destruct (write_file_In _ _ _ _ W1) as [I1 _].
    destruct (write_file_In _ _ _ _ W2) as [I2 K2].
    split; [apply K2; [exact I1|exact Hne]|]. split; [exact I2|].
    assert (Hdel : delete_TALYS_ff_files d2 unique_thread_ID
                   = (filter (ff_kept unique_thread_ID) library, Nothing)).
    { unfold delete_TALYS_ff_files.
      fold (ff_suffix unique_thread_ID). fold (ff_kept unique_thread_ID).
      rewrite (write_file_kept _ _ _ _ _ S7 W2), (write_file_kept _ _ _ _ _ S6 W1).
      destruct d2; [destruct I2|reflexivity]. }
    split; [exact Hdel|].
    intros Hnone. rewrite Hdel. f_equal.
    clear -Hnone. induction Hnone as [|f l Hf _ IH]; [reflexivity|].
    simpl. unfold ff_kept at 1. rewrite Hf, andb_false_r. simpl.
    rewrite IH. reflexivity.
Qed.

(** The library holds the default file of U236; the files of the run
    "TMC_5" are printed and deleted again. *)
Lemma printed_ff_files_are_deleted_witness :
  exists printed,
    print_TALYS_ff_files (fun _ => "2.53e-08") (fun _ => "0.0000e+00")
      [ mkEntry "U236_6.00e+00MeV_gef.ff" true "default" ]
      [zero_row 0] 92 236 (253 # 10000000000) "TMC_5" = (printed, Nothing)
    /\ map name printed
       = [ "U236_6.00e+00MeV_gef.ff"; "U236_6.00e+00MeV_gef_tmc_5.ff";
           "U236_7.00e+00MeV_gef_tmc_5.ff" ]
    /\ delete_TALYS_ff_files printed "TMC_5"
       = ([ mkEntry "U236_6.00e+00MeV_gef.ff" true "default" ], Nothing).
Proof.
  set (library := [ mkEntry "U236_6.00e+00MeV_gef.ff" true "default" ]).
  assert (HZ : 92%Z = 92%Z \/ 92%Z = 94%Z) by (left; reflexivity).
  assert (Ht : [zero_row 0] <> []) by discriminate.
  assert (Hlib : Forall (fun f : dir_entry string =>
                           is_file f = false ->
                           endswith (name f) (ff_suffix "TMC_5") = false)
                        library).
  { constructor; [intros H; discriminate|constructor]. }
  destruct (proj1 (proj2 (printed_ff_files_are_deleted (fun _ => "2.53e-08")
                     (fun _ => "0.0000e+00") library [zero_row 0] 92 236
                     (253 # 10000000000) "TMC_5")) HZ Ht Hlib)
    as [printed [n6 [n7 [Hp [_ [_ [_ [_ [_ [_ Hd]]]]]]]]]].
  exists printed. split; [exact Hp|]. split.
  - vm_compute in Hp. inversion Hp. reflexivity.
  - apply Hd. constructor; [reflexivity|constructor].
Defined.

(* ------------------------------------------------------------------ *)
(** ** The rows that are printed *)

Lemma np_where_length {A : Type} (p : A -> bool) (l : list A) :
  List.length (np_where p l) = List.length (filter p l).
Proof.
  induction l as [|x t IH]; [reflexivity|].
  simpl. destruct (p x); simpl; rewrite length_map, IH; reflexivity.
Qed.

Lemma filter_all {A : Type} (p : A -> bool) (l : list A) :
  Forall (fun x => p x = true) l -> filter p l = l.
Proof.
  induction 1 as [|x t Hx _ IH]; [reflexivity|].
  simpl. rewrite Hx, IH. reflexivity.
Qed.

Lemma filter_none {A : Type} (p : A -> bool) (l : list A) :
  Forall (fun x => p x = false) l -> filter p l = [].
Proof.
  induction 1 as [|x t Hx _ IH]; [reflexivity|].
  simpl. rewrite Hx, IH. reflexivity.
Qed.

(** X16.  The rows of a summary table are told from its padding by their
    first column.  When no event of the raw table has a zero charge, the
    rows of a returned table whose column Z1 is not zero are exactly the
    rows written for the retained splits: the number "Ntotal" of the
    ".ff" file is the number of retained splits, and the file lists the
    written rows and nothing else. *)
Theorem printed_rows_are_the_written_rows (np_sqrt : Q -> Q)
    (format_2e format_4e : Q -> string) (columns : nat) (FY : list event)
    (A_compound : Z) (num_of_events : nat) (t : list ff_row) (ign : nat)
    (Z_target : Z) (E_reaction : Q) :
  GEF_FY_for_TALYS np_sqrt columns FY A_compound num_of_events = Returns (t, ign) ->
  Forall (fun e => Z1 e <> 0%Z /\ Z2 e <> 0%Z) FY ->
  let n := List.length (retained_splits FY A_compound) in
  filter (fun row => negb (ff_Z1 row =? 0)%Z) t = firstn n t
  /\ List.length (np_where (fun row => negb (ff_Z1 row =? 0)%Z) t) = n
  /\ ff_text format_2e format_4e t Z_target A_compound E_reaction
     = "# Z        =   " ++ rjust 3 (str_int Z_target) ++ newline
       ++ "# A        =   " ++ rjust 3 (str_int A_compound) ++ newline
       ++ "# Ex (MeV) =   " ++ rjust 3 (format_2e E_reaction) ++ newline
       ++ "# Ntotal   =   " ++ rjust 3 (str_nat n) ++ newline
       ++ "# " ++ structure ++ newline
       ++ String.concat "" (map (ff_line format_4e) (firstn n t)).
Proof.
  intros H Hz n.
  pose proof (written_rows_returned _ _ _ _ _ _ _ H) as Hw.
  unfold written_rows in Hw. fold n in Hw.
  pose proof H as H'. apply GEF_FY_for_TALYS_returns in H'. fold n in H'.
  destruct H' as [Hn [_ Ht]].
  assert (Hf : filter (fun row => negb (ff_Z1 row =? 0)%Z) t = firstn n t).
  { rewrite Hw. rewrite Ht at 1. rewrite filter_app.
    rewrite (filter_none _ (repeat _ _)), app_nil_r.
    - apply filter_all. apply Forall_forall. intros r Hr.
      apply in_map_iff in Hr. destruct Hr as [k [Er Hk]].
      pose proof (reduced_row_key np_sqrt columns _ _ _ Hk) as Hrk.
      rewrite Er in Hrk.
      apply retained_in_unique, in_map_iff in Hk.
      destruct Hk as [e [He Hin]]. apply filter_In in Hin.
      destruct Hin as [Hin _].
      eapply Forall_forall in Hz; [|exact Hin]. destruct Hz as [Hz1 Hz2].
      unfold row_key in Hrk. rewrite <- He in Hrk.
      unfold split_of, key_of, canonical in Hrk.
      destruct (A1sci e >? A2sci e)%Z; simpl in Hrk;
        inversion Hrk as [[E0 E1 E2 E3]]; rewrite E0;
        apply negb_true_iff, Z.eqb_neq; assumption.
    - apply Forall_forall. intros r Hr. apply repeat_spec in Hr. subst r.
      reflexivity. }
  assert (Hc : List.length (np_where (fun row => negb (ff_Z1 row =? 0)%Z) t) = n).
  { rewrite np_where_length, Hf, length_firstn.
    rewrite Ht, length_app, length_map, repeat_length. fold n. lia. }
  split; [exact Hf|]. split; [exact Hc|].
  unfold ff_text. rewrite Hc, Hf. reflexivity.
Qed.

(** The ten events: two rows are printed. *)
Lemma printed_rows_are_the_written_rows_witness :
  Forall (fun e => Z1 e <> 0%Z /\ Z2 e <> 0%Z) FY_ten_events
  /\ exists t,
       GEF_FY_for_TALYS sqrt_9 7 FY_ten_events 236 10 = Returns (t, 1%nat)
       /\ List.length (np_where (fun row => negb (ff_Z1 row =? 0)%Z) t) = 2%nat
       /\ filter (fun row => negb (ff_Z1 row =? 0)%Z) t = firstn 2 t.
Proof.
  assert (Hz : Forall (fun e => Z1 e <> 0%Z /\ Z2 e <> 0%Z) FY_ten_events).
  { repeat constructor; discriminate. }
  split; [exact Hz|].
  destruct (GEF_FY_for_TALYS_total sqrt_9 7 FY_ten_events 236 10) as [t Ht];
    [vm_compute; lia|].
  exists t. split; [exact Ht|].
  pose proof (printed_rows_are_the_written_rows sqrt_9 (fun _ => "") (fun _ => "")
                7 FY_ten_events 236 10 t _ 92 0 Ht Hz) as H.
  cbv zeta in H. destruct H as [Hf [Hc _]].
  split; [exact Hc|exact Hf].
Defined.

(* ================================================================== *)
(** * Paths, folders and input files *)

Lemma append_nil_r (a : string) : a ++ "" = a.
Proof. induction a as [|c t IH]; simpl; [reflexivity|]. rewrite IH. reflexivity. Qed.

Lemma append_eq_nil (a b : string) : a ++ b = "" -> a = "" /\ b = "".
Proof. destruct a; simpl; intros H; [split; [reflexivity|exact H]|discriminate]. Qed.

(** Whether a text ends with a slash is decided by its last part. *)
Lemma endswith_slash_append (a b : string) :
  b <> "" -> endswith (a ++ b) "/" = endswith b "/".
Proof.
  intros Hb. induction a as [|c t IH]; [reflexivity|].
  change (String c t ++ b) with (String c (t ++ b)). cbn [endswith].
  rewrite IH.
  assert (E : (String c (t ++ b) =? "/") = false).
  { apply String.eqb_neq. intros H. inversion H as [[Hc Ht]].
    apply append_eq_nil in Ht. destruct Ht as [_ Ht]. contradiction. }
  rewrite E. reflexivity.
Qed.

Lemma path_join_dir (a : string) :
  path_join a "" = if (a =? "") || endswith a "/" then a else a ++ "/".
Proof.
  unfold path_join. cbn [startswith String.prefix].
  destruct ((a =? "") || endswith a "/"); [apply append_nil_r|reflexivity].
Qed.

Lemma path_join_dir_slash (a : string) :
  a <> "" -> endswith (path_join a "") "/" = true.
Proof.
  intros Ha. rewrite path_join_dir.
  apply String.eqb_neq in Ha. rewrite Ha. cbn [orb].
  destruct (endswith a "/") eqn:E; [exact E|apply endswith_append].
Qed.

Lemma path_join_relative (a b : string) :
  startswith b "/" = false ->
  path_join a b = if (a =? "") || endswith a "/" then a ++ b else a ++ "/" ++ b.
Proof. intros H. unfold path_join. rewrite H. reflexivity. Qed.

Lemma path_join_nonempty (a b : string) : b <> "" -> path_join a b <> "".
Proof.
  intros Hb. unfold path_join.
  destruct (startswith b "/"); [exact Hb|].
  destruct ((a =? "") || endswith a "/"); intros H;
    apply append_eq_nil in H; destruct H as [_ H].
  - contradiction.
  - discriminate.
Qed.

(** A folder with and without its closing slash joins alike. *)
Lemma path_join_through_dir (a b : string) :
  a <> "" -> startswith b "/" = false ->
  path_join (path_join a "") b = path_join a b.
Proof.
  intros Ha Hb. rewrite (path_join_relative _ b Hb), (path_join_relative a b Hb).
  rewrite (path_join_dir_slash a Ha), orb_true_r.
  rewrite path_join_dir. apply String.eqb_neq in Ha. rewrite Ha. cbn [orb].
  destruct (endswith a "/"); [reflexivity|].
  rewrite append_assoc. reflexivity.
Qed.

Lemma path_join_under_dir (a b : string) :
  endswith a "/" = true -> startswith b "/" = false -> path_join a b = a ++ b.
Proof.
  intros Ha Hb. rewrite (path_join_relative a b Hb), Ha, orb_true_r. reflexivity.
Qed.

Lemma endswith_nonempty (a s : string) :
  s <> "" -> endswith a s = true -> a <> "".
Proof.
  intros Hs H ->. cbn [endswith] in H. rewrite orb_false_r in H.
  apply String.eqb_eq in H. symmetry in H. contradiction.
Qed.

(** A sub-folder of a folder, closed by a slash. *)
Lemma path_join_sub_dir (a b : string) :
  endswith a "/" = true -> startswith b "/" = false -> b <> "" ->
  endswith b "/" = false ->
  path_join (path_join a b) "" = a ++ b ++ "/".
Proof.
  intros Ha Hb Hne Hs. rewrite (path_join_under_dir a b Ha Hb), path_join_dir.
  rewrite (endswith_slash_append a b Hne), Hs, orb_false_r.
  assert (E : (a ++ b =? "") = false).
  { apply String.eqb_neq. intros H. apply append_eq_nil in H. tauto. }
  rewrite E. apply append_assoc.
Qed.


(* ------------------------------------------------------------------ *)
(** ** The folders of a campaign *)

Lemma Z_eqb_neither (Z_target : Z) :
  Z_target <> 92%Z -> Z_target <> 94%Z ->
  (Z_target =? 92)%Z = false /\ (Z_target =? 94)%Z = false.
Proof. intros H1 H2. split; apply Z.eqb_neq; assumption. Qed.

(** Case analysis on the next answer of the file system. *)
Ltac ask f :=
  match goal with
  | |- context [f ?p] => destruct (f p) eqn:?
  end;
  cbn [negb lbind call ret raise fst snd app].

(** The paths returned for uranium and plutonium, whatever folders were
    there. *)
Lemma paths_returned (isdir : string -> bool) (Z_target A_compound : Z)
    (pth_GEF_program pth_TALYS_program pth_main : string) :
  Z_target = 92%Z \/ Z_target = 94%Z ->
  let O := path_join (path_join (dirname pth_main) "Output_McPUFF") "" in
  let T := path_join (path_join O "TALYS_working_directory") "" in
  snd (create_paths_and_directories isdir Z_target A_compound
         pth_GEF_program pth_TALYS_program pth_main)
  = Returns
      {| GEF_program_path := path_join pth_GEF_program "";
         TALYS_program_path := path_join pth_TALYS_program "";
         Output_McPUFF_path := O;
         GEF_working_dir_path :=
           path_join (path_join O "GEF_working_directory") "";
         TALYS_working_dir_path := T;
         TALYS_input_path := path_join T "TALYS_folder_";
         PKL_path := path_join (path_join O "pickle_results") "";
         TALYS_ff_file_path :=
           path_join_all (dirname pth_TALYS_program)
             ["structure"; "fission"; "ff"; "gef";
              (if (Z_target =? 92)%Z then "U" else "Pu") ++ str_int A_compound;
              ""] |}.
Proof.
  intros HZ O T. unfold create_paths_and_directories.
  cbn [path_join_all fold_left]. fold O.
  destruct HZ as [-> | ->]; cbn [Z.eqb Pos.eqb];
    repeat ask isdir; reflexivity.
Qed.

(** X17.  The folders of a campaign.  [create_paths_and_directories]
    creates only folders that are not there yet, at most four, and the
    same ones for every target.  For a target that is neither uranium nor
    plutonium it then raises UnboundLocalError.  For uranium and plutonium
    it returns paths that do not depend on which folders were there: the
    output folder, closed by a slash, the two working folders and the
    folder of the pickle files directly under it, each closed by a slash,
    and the prefix of the TALYS folders under the TALYS working folder;
    the paths of the two programs are closed by a slash when they are not
    empty, and so is the path of the ".ff" library. *)
Theorem folders_of_a_campaign (isdir isdir' : string -> bool)
    (Z_target A_compound : Z)
    (pth_GEF_program pth_TALYS_program pth_main : string) :
  Forall (fun c => exists p, c = Mkdir p /\ isdir p = false)
         (fst (create_paths_and_directories isdir Z_target A_compound
                 pth_GEF_program pth_TALYS_program pth_main))
  /\ (List.length
        (fst (create_paths_and_directories isdir Z_target A_compound
                pth_GEF_program pth_TALYS_program pth_main)) <= 4)%nat
  /\ fst (create_paths_and_directories isdir Z_target A_compound
            pth_GEF_program pth_TALYS_program pth_main)
     = fst (create_paths_and_directories isdir 92 A_compound
              pth_GEF_program pth_TALYS_program pth_main)
  /\ (Z_target <> 92%Z -> Z_target <> 94%Z ->
      snd (create_paths_and_directories isdir Z_target A_compound
             pth_GEF_program pth_TALYS_program pth_main)
      = Raises UnboundLocalError)
  /\ (Z_target = 92%Z \/ Z_target = 94%Z ->
      exists paths,
        snd (create_paths_and_directories isdir Z_target A_compound
               pth_GEF_program pth_TALYS_program pth_main) = Returns paths
        /\ snd (create_paths_and_directories isdir' Z_target A_compound
                  pth_GEF_program pth_TALYS_program pth_main) = Returns paths
        /\ endswith (Output_McPUFF_path paths) "/" = true
        /\ GEF_working_dir_path paths
           = Output_McPUFF_path paths ++ "GEF_working_directory/"
        /\ TALYS_working_dir_path paths
           = Output_McPUFF_path paths ++ "TALYS_working_directory/"
        /\ TALYS_input_path paths
           = Output_McPUFF_path paths ++ "TALYS_working_directory/TALYS_folder_"
        /\ PKL_path paths = Output_McPUFF_path paths ++ "pickle_results/"
        /\ (pth_GEF_program <> "" -> endswith (GEF_program_path paths) "/" = true)
        /\ (pth_TALYS_program <> "" ->
            endswith (TALYS_program_path paths) "/" = true)
        /\ endswith (TALYS_ff_file_path paths) "/" = true).
Proof.
  unfold create_paths_and_directories.
  cbn [path_join_all fold_left].
  set (O := path_join (path_join (dirname pth_main) "Output_McPUFF") "").
  set (G := path_join (path_join O "GEF_working_directory") "").
  set (T := path_join (path_join O "TALYS_working_directory") "").
  set (P := path_join (path_join O "pickle_results") "").
  assert (HO : endswith O "/" = true).
  { apply path_join_dir_slash, path_join_nonempty. discriminate. }
  assert (HG : G = O ++ "GEF_working_directory/").
  { unfold G. rewrite path_join_sub_dir; try reflexivity; try discriminate.
    exact HO. }
  assert (HT : T = O ++ "TALYS_working_directory/").
  { unfold T. rewrite path_join_sub_dir; try reflexivity; try discriminate.
    exact HO. }
  assert (HP : P = O ++ "pickle_results/").
  { unfold P. rewrite path_join_sub_dir; try reflexivity; try discriminate.
    exact HO. }
  assert (HI : path_join T "TALYS_folder_"
               = O ++ "TALYS_working_directory/TALYS_folder_").
  { rewrite path_join_under_dir; [|apply path_join_dir_slash,
      path_join_nonempty; discriminate|reflexivity].
    rewrite HT, append_assoc. reflexivity. }
  split; [|split; [|split; [|split]]].
  - repeat ask isdir;
      destruct (Z_target =? 92)%Z; destruct (Z_target =? 94)%Z;
      cbn [raise ret fst app];
      repeat (constructor; [eexists; split; [reflexivity|assumption]|]);
      constructor.
  - repeat ask isdir;
      destruct (Z_target =? 92)%Z; destruct (Z_target =? 94)%Z;
      cbn [raise ret fst app List.length]; lia.
  - cbn [Z.eqb Pos.eqb]. repeat ask isdir;
      destruct (Z_target =? 92)%Z; destruct (Z_target =? 94)%Z;
      reflexivity.
  - intros H92 H94.
    destruct (Z_eqb_neither Z_target H92 H94) as [E92 E94].
    rewrite E92, E94. repeat ask isdir; reflexivity.
  - intros HZ.
    assert (Hff : forall el : string,
              el <> "" ->
              endswith
                (path_join
                   (path_join
                      (path_join
                         (path_join
                            (path_join
                               (path_join (dirname pth_TALYS_program)
                                  "structure") "fission") "ff") "gef")
                      (el ++ str_int A_compound)) "") "/" = true).
    { intros el Hel. apply path_join_dir_slash, path_join_nonempty.
      intros H. apply append_eq_nil in H. tauto. }
    assert (Hprog : forall p : string,
              p <> "" -> endswith (path_join p "") "/" = true)
      by apply path_join_dir_slash.
    pose proof (paths_returned isdir Z_target A_compound pth_GEF_program
                  pth_TALYS_program pth_main HZ) as R.
    pose proof (paths_returned isdir' Z_target A_compound pth_GEF_program
                  pth_TALYS_program pth_main HZ) as R'.
    cbv zeta in R, R'. unfold create_paths_and_directories in R, R'.
    cbn [path_join_all fold_left] in R, R'. fold O in R, R'.
    fold G in R, R'. fold T in R, R'. fold P in R, R'.
    eexists. split; [exact R|]. split; [exact R'|].
    cbn [Output_McPUFF_path GEF_working_dir_path TALYS_working_dir_path
         TALYS_input_path PKL_path GEF_program_path TALYS_program_path
         TALYS_ff_file_path].
    split; [exact HO|]. split; [exact HG|]. split; [exact HT|].
    split; [exact HI|]. split; [exact HP|].
    split; [apply Hprog|]. split; [apply Hprog|].
    apply Hff. destruct (Z_target =? 92)%Z; discriminate.
Qed.


(** The folders made for uranium 236 under "/home/user", whose output
    folder is not there yet; and the same call for thorium. *)
Lemma folders_of_a_campaign_witness :
  (exists paths,
     snd (create_paths_and_directories (fun _ => false) 92 236 "/opt/GEF"
            "/opt/talys" "/home/user/McPUFF_source_files") = Returns paths
     /\ Output_McPUFF_path paths = "/home/user/Output_McPUFF/"
     /\ PKL_path paths = "/home/user/Output_McPUFF/pickle_results/"
     /\ TALYS_ff_file_path paths = "/opt/structure/fission/ff/gef/U236/")
  /\ create_paths_and_directories (fun _ => false) 90 233 "/opt/GEF"
       "/opt/talys" "/home/user/McPUFF_source_files"
     = ([ Mkdir "/home/user/Output_McPUFF";
          Mkdir "/home/user/Output_McPUFF/GEF_working_directory";
          Mkdir "/home/user/Output_McPUFF/TALYS_working_directory";
          Mkdir "/home/user/Output_McPUFF/pickle_results" ],
        Raises UnboundLocalError).
Proof.
  pose proof (folders_of_a_campaign (fun _ => false) (fun _ => false) 92 236
                "/opt/GEF" "/opt/talys" "/home/user/McPUFF_source_files")
    as [_ [_ [_ [_ H]]]].
  destruct (H (or_introl eq_refl)) as [paths [Hp _]].
  pose proof (folders_of_a_campaign (fun _ => false) (fun _ => false) 90 233
                "/opt/GEF" "/opt/talys" "/home/user/McPUFF_source_files")
    as [_ [_ [_ [H' _]]]].
  assert (H90 : (90 <> 92)%Z) by discriminate.
  assert (H90' : (90 <> 94)%Z) by discriminate.
  specialize (H' H90 H90').
  split.
  - exists paths. split; [exact Hp|].
    vm_compute in Hp. inversion Hp. repeat split.
  - rewrite (surjective_pairing (create_paths_and_directories _ _ _ _ _ _)).
    rewrite H'. f_equal.
Defined.

(* ------------------------------------------------------------------ *)
(** ** The folder and the input file of a GEF run *)

Lemma lbind_log {A B : Type} (m : logged A) (k : A -> logged B) (a : A) :
  snd m = Returns a ->
  lbind m k = ((fst m ++ fst (k a))%list, snd (k a)).
Proof.
  destruct m as [l r]. simpl. intros ->. simpl.
  destruct (k a) as [l' r']. reflexivity.
Qed.

Lemma py_int_floor (x : Q) :
  (0 <= x -> inject_Z (py_int x) <= x /\ x < inject_Z (py_int x) + 1)%Q.
Proof.
  destruct x as [n d]. unfold py_int, Qle, Qlt. cbn [Qnum Qden inject_Z Qplus].
  intros H. rewrite Z.quot_div_nonneg by lia.
  pose proof (Z.mul_div_le n (Zpos d) eq_refl).
  pose proof (Z.mul_succ_div_gt n (Zpos d) eq_refl).
  split; nia.
Qed.

Lemma py_int_hundred_thousands (MC_runs : Q) :
  (0 <= MC_runs ->
   inject_Z (py_int (MC_runs / 100000)) * 100000 <= MC_runs
   /\ MC_runs < (inject_Z (py_int (MC_runs / 100000)) + 1) * 100000)%Q.
Proof.
  intros H.
  assert (H0 : (0 <= MC_runs / 100000)%Q).
  { apply Qle_shift_div_l; [reflexivity|]. rewrite Qmult_0_l. exact H. }
  destruct (py_int_floor _ H0) as [Hl Hu].
  split.
  - apply (Qmult_le_compat_r _ _ 100000) in Hl; [|discriminate].
    rewrite Qmult_comm in Hl.
    rewrite (Qmult_comm (MC_runs / 100000)), Qmult_div_r in Hl by discriminate.
    rewrite Qmult_comm. exact Hl.
  - apply (Qmult_lt_compat_r _ _ 100000) in Hu; [|reflexivity].
    rewrite (Qmult_comm (MC_runs / 100000)), Qmult_div_r in Hu by discriminate.
    exact Hu.
Qed.

Section GEF_folder.

Variable str_float : Q -> string.

(** The log and the outcome of [create_GEF_input_file_and_folder] depend
    on the folder of the run only up to its closing slash. *)
Lemma input_file_through_dir (exists_in_folder : bool)
    (scandir_in_folder : list (string * bool)) (cwd : string)
    (Z_target A_compound : Z) (E_reaction MC_runs : Q) :
  cwd <> "" ->
  create_GEF_input_file_and_folder str_float exists_in_folder scandir_in_folder
    (path_join cwd "") Z_target A_compound E_reaction MC_runs
  = create_GEF_input_file_and_folder str_float exists_in_folder
      scandir_in_folder cwd Z_target A_compound E_reaction MC_runs.
Proof.
  intros H. unfold create_GEF_input_file_and_folder.
  cbn [path_join_all fold_left].
  rewrite !(path_join_through_dir cwd _ H) by reflexivity.
  reflexivity.
Qed.

Lemma run_folder_nonempty (W ID : string) : path_join W ("GEF_" ++ ID) <> "".
Proof. apply path_join_nonempty. discriminate. Qed.

(** The loop that empties the folder of the input file. *)
Lemma remove_files_log (GEF_in_folder : string)
    (entries : list (string * bool)) (l : list fs_call) :
  fold_left
    (fun (acc : logged unit) (file_name : string * bool) =>
       _ <~ acc ;;
       if snd file_name
       then call (Remove (path_join GEF_in_folder (fst file_name)))
       else ret tt)
    entries (l, Returns tt)
  = ((l ++ map (fun e => Remove (path_join GEF_in_folder (fst e)))
             (filter snd entries))%list, Returns tt).
Proof.
  revert l. induction entries as [|[name is_file] entries IH]; intros l.
  - cbn [fold_left filter map]. rewrite app_nil_r. reflexivity.
  - cbn [fold_left filter map snd fst lbind]. destruct is_file.
    + cbn [call]. rewrite IH. cbn [map]. rewrite <- app_assoc. reflexivity.
    + cbn [ret]. rewrite IH. rewrite app_nil_r. reflexivity.
Qed.

(** What [create_GEF_input_file_and_folder] does once the element of the
    target is known. *)
Lemma input_file_calls (exists_in_folder : bool)
    (scandir_in_folder : list (string * bool)) (cwd element : string)
    (Z_target A_compound : Z) (E_reaction MC_runs : Q) :
  elements (str_int Z_target) = Returns element ->
  exists rest,
    create_GEF_input_file_and_folder str_float exists_in_folder
      scandir_in_folder cwd Z_target A_compound E_reaction MC_runs
    = (([ Write (path_join cwd "MyParameters.dat") "";
          Write (path_join cwd "file.in")
            (quote ++ "in/" ++ (element ++ str_int (A_compound - 1) ++ "EN.in")
             ++ quote ++ newline ++ "END") ]
        ++ (if exists_in_folder then [] else [Mkdir (path_join_all cwd ["in"; ""])])
        ++ map (fun e => Remove (path_join (path_join_all cwd ["in"; ""]) (fst e)))
             (filter snd (if exists_in_folder then scandir_in_folder else []))
        ++ [ Write (path_join (path_join_all cwd ["in"; ""])
                      (element ++ str_int (A_compound - 1) ++ "EN.in"))
               (str_int (py_int (MC_runs / 100000)) ++ newline ++ rest) ])%list,
       Returns tt).
Proof.
  intros He. unfold create_GEF_input_file_and_folder.
  rewrite He. unfold projectile_opt. eexists.
  pose proof (fun G e => remove_files_log G e []) as HR.
  destruct exists_in_folder; cbn [negb lbind call ret app] in HR |- *;
    rewrite HR; cbn [lbind call ret app]; reflexivity.
Qed.

(** X18.  The folder of a GEF run.  Whether the folder of the run was
    there or not, [create_GEF_workingdir_and_inputfile] makes the same
    calls but for the creation of the folder, and returns the same paths
    of the list-mode file, the ".dat" file and the ".dmp" file; the path
    of the folder itself is returned without a closing slash when the
    folder was created and with one when it was there.  For a target that
    is neither uranium nor plutonium the call raises KeyError after it
    has emptied "MyParameters.dat". *)
Theorem folder_of_a_GEF_run (exists_in_folder : bool)
    (scandir_in_folder : list (string * bool)) (unique_param_ID : string)
    (Z_target A_compound : Z) (E_reaction MC_runs : Q)
    (GEF_working_dir_path : string) :
  let created :=
    create_GEF_workingdir_and_inputfile str_float false exists_in_folder
      scandir_in_folder unique_param_ID Z_target A_compound E_reaction MC_runs
      GEF_working_dir_path in
  let found :=
    create_GEF_workingdir_and_inputfile str_float true exists_in_folder
      scandir_in_folder unique_param_ID Z_target A_compound E_reaction MC_runs
      GEF_working_dir_path in
  let cwd := path_join GEF_working_dir_path ("GEF_" ++ unique_param_ID) in
  fst created = Mkdir cwd :: fst found
  /\ (Z_target = 92%Z \/ Z_target = 94%Z ->
      exists paths paths',
        snd created = Returns paths /\ snd found = Returns paths'
        /\ GEF_cwd_path paths = cwd
        /\ GEF_cwd_path paths' = path_join cwd ""
        /\ endswith (GEF_cwd_path paths') "/" = true
        /\ GEF_LMD_path paths = GEF_LMD_path paths'
        /\ GEF_DAT_path paths = GEF_DAT_path paths'
        /\ GEF_DMP_EN_path paths = GEF_DMP_EN_path paths')
  /\ (Z_target <> 92%Z -> Z_target <> 94%Z ->
      found = ([Write (path_join cwd "MyParameters.dat") ""], Raises KeyError)).
Proof.
  intros created found cwd.
  pose proof (run_folder_nonempty GEF_working_dir_path unique_param_ID) as Hne.
  fold cwd in Hne.
  pose proof (input_file_through_dir exists_in_folder scandir_in_folder cwd
                Z_target A_compound E_reaction MC_runs Hne) as Hin.
  unfold created, found, create_GEF_workingdir_and_inputfile.
  cbn [negb path_join_all fold_left]. fold cwd.
  cbn [lbind call ret app fst snd].
  rewrite Hin.
  split; [|split].
  - destruct (create_GEF_input_file_and_folder str_float exists_in_folder
                scandir_in_folder cwd Z_target A_compound E_reaction MC_runs)
      as [l [[]|e]]; cbn [lbind ret app fst snd];
      rewrite ?app_nil_r; reflexivity.
  - intros HZ.
    assert (He : exists element, elements (str_int Z_target) = Returns element)
      by (destruct HZ as [-> | ->]; eexists; reflexivity).
    destruct He as [element He].
    destruct (input_file_calls exists_in_folder scandir_in_folder cwd element
                Z_target A_compound E_reaction MC_runs He) as [rest ->].
    cbn [lbind ret app fst snd].
    eexists. eexists.
    split; [reflexivity|]. split; [reflexivity|].
    cbn [GEF_cwd_path GEF_LMD_path GEF_DAT_path GEF_DMP_EN_path].
    split; [reflexivity|]. split; [reflexivity|].
    split; [apply path_join_dir_slash; exact Hne|].
    rewrite !(path_join_through_dir cwd _ Hne) by reflexivity.
    repeat split; reflexivity.
  - intros H92 H94.
    unfold create_GEF_input_file_and_folder.
    cbn [lbind call]. unfold elements.
    destruct (str_int Z_target =? "92") eqn:E1.
    { apply String.eqb_eq, str_int_92 in E1. contradiction. }
    destruct (str_int Z_target =? "94") eqn:E2.
    { apply String.eqb_eq, str_int_94 in E2. contradiction. }
    cbn [lbind app]. reflexivity.
Qed.


(** X19.  The input file of a GEF run.  For uranium and plutonium and a
    number of events that is not negative,
    [create_GEF_input_file_and_folder] returns after these calls, in this
    order: it empties "MyParameters.dat", writes "file.in", makes the
    folder "in" when it is missing, removes the files, and only the
    files, that the folder "in" lists, and writes the input file named
    after the element and the mass number of the target.  The first line
    of the input file is the number of whole hundreds of thousands in
    [MC_runs]. *)
Theorem input_file_of_a_GEF_run (exists_in_folder : bool)
    (scandir_in_folder : list (string * bool)) (pth_GEF_cwd : string)
    (Z_target A_compound : Z) (E_reaction MC_runs : Q) :
  Z_target = 92%Z \/ Z_target = 94%Z ->
  (0 <= MC_runs)%Q ->
  exists (element : string) (iterations : Z) (rest : string),
    elements (str_int Z_target) = Returns element
    /\ (inject_Z iterations * 100000 <= MC_runs
        /\ MC_runs < (inject_Z iterations + 1) * 100000)%Q
    /\ let GEF_in_file_name := element ++ str_int (A_compound - 1) ++ "EN.in" in
       let GEF_in_folder := path_join_all pth_GEF_cwd ["in"; ""] in
       create_GEF_input_file_and_folder str_float exists_in_folder
         scandir_in_folder pth_GEF_cwd Z_target A_compound E_reaction MC_runs
       = (([ Write (path_join pth_GEF_cwd "MyParameters.dat") "";
             Write (path_join pth_GEF_cwd "file.in")
               (quote ++ "in/" ++ GEF_in_file_name ++ quote ++ newline ++ "END") ]
           ++ (if exists_in_folder then [] else [Mkdir GEF_in_folder])
           ++ map (fun e => Remove (path_join GEF_in_folder (fst e)))
                (filter snd
                   (if exists_in_folder then scandir_in_folder else []))
           ++ [ Write (path_join GEF_in_folder GEF_in_file_name)
                  (str_int iterations ++ newline ++ rest) ])%list,
          Returns tt).
Proof.
  intros HZ HM.
  assert (He : exists element, elements (str_int Z_target) = Returns element)
    by (destruct HZ as [-> | ->]; eexists; reflexivity).
  destruct He as [element He].
  destruct (input_file_calls exists_in_folder scandir_in_folder pth_GEF_cwd
              element Z_target A_compound E_reaction MC_runs He) as [rest Hc].
  exists element, (py_int (MC_runs / 100000)), rest.
  split; [exact He|]. split; [|exact Hc].
  apply py_int_hundred_thousands. exact HM.
Qed.

End GEF_folder.

(** The run folder of trial "TMC_5" of uranium 236 at 2.53 MeV, printed
    as "2.53"; and the same call for thorium. *)
Lemma folder_of_a_GEF_run_witness :
  (exists paths paths',
     snd (create_GEF_workingdir_and_inputfile (fun _ => "2.53") false false []
            "TMC_5" 92 236 (253 # 100) 1000000 "/out/GEF") = Returns paths
     /\ snd (create_GEF_workingdir_and_inputfile (fun _ => "2.53") true false []
               "TMC_5" 92 236 (253 # 100) 1000000 "/out/GEF") = Returns paths'
     /\ GEF_cwd_path paths = "/out/GEF/GEF_TMC_5"
     /\ GEF_cwd_path paths' = "/out/GEF/GEF_TMC_5/"
     /\ GEF_DAT_path paths = GEF_DAT_path paths')
  /\ create_GEF_workingdir_and_inputfile (fun _ => "2.53") true false []
       "TMC_5" 90 233 (253 # 100) 1000000 "/out/GEF"
     = ([Write "/out/GEF/GEF_TMC_5/MyParameters.dat" ""], Raises KeyError).
Proof.
  pose proof (folder_of_a_GEF_run (fun _ => "2.53") false [] "TMC_5" 92 236 (253 # 100) 1000000
                "/out/GEF") as [_ [H _]].
  destruct (H (or_introl eq_refl)) as [p [p' [H1 [H2 [H3 [H4 [_ [_ [H7 _]]]]]]]]].
  pose proof (folder_of_a_GEF_run (fun _ => "2.53") false [] "TMC_5" 90 233 (253 # 100) 1000000
                "/out/GEF") as [_ [_ H']].
  assert (H90 : (90 <> 92)%Z) by discriminate.
  assert (H90' : (90 <> 94)%Z) by discriminate.
  split.
  - exists p, p'. repeat split; assumption.
  - exact (H' H90 H90').
Defined.


(** A folder "in" that lists a file and a folder, and a million events. *)
Lemma input_file_of_a_GEF_run_witness :
  (0 <= 1000000)%Q
  /\ exists (element : string) (iterations : Z) (rest : string),
       elements (str_int 92) = Returns element
       /\ (inject_Z iterations * 100000 <= 1000000
           /\ 1000000 < (inject_Z iterations + 1) * 100000)%Q
       /\ create_GEF_input_file_and_folder (fun _ => "2.53") true
            [("U235EN.in", true); ("old", false)] "/out/GEF/GEF_TMC_5" 92 236
            (253 # 100) 1000000
          = ([ Write "/out/GEF/GEF_TMC_5/MyParameters.dat" "";
               Write "/out/GEF/GEF_TMC_5/file.in"
                 (quote ++ "in/" ++ (element ++ "235EN.in") ++ quote
                  ++ newline ++ "END");
               Remove "/out/GEF/GEF_TMC_5/in/U235EN.in";
               Write (path_join "/out/GEF/GEF_TMC_5/in/" (element ++ "235EN.in"))
                 (str_int iterations ++ newline ++ rest) ],
             Returns tt).
Proof.
  assert (HM : (0 <= 1000000)%Q) by (unfold Qle; simpl; lia).
  split; [exact HM|].
  destruct (input_file_of_a_GEF_run (fun _ => "2.53") true
              [("U235EN.in", true); ("old", false)] "/out/GEF/GEF_TMC_5" 92 236
              (253 # 100) 1000000 (or_introl eq_refl) HM)
    as [element [iterations [rest [He [Hi H]]]]].
  exists element, iterations, rest.
  split; [exact He|]. split; [exact Hi|]. exact H.
Defined.

(* ================================================================== *)
(** * The files and folders of different runs *)

(* ------------------------------------------------------------------ *)
(** ** The files of the other runs *)

Lemma endswith_spec (s t : string) :
  endswith s t = true <-> exists u, s = u ++ t.
Proof.
  split.
  - induction s as [|c r IH]; cbn [endswith]; intros H.
    + rewrite orb_false_r in H. apply String.eqb_eq in H. exists "". exact H.
    + apply orb_true_iff in H. destruct H as [H|H].
      * apply String.eqb_eq in H. exists "". exact H.
      * destruct (IH H) as [u ->]. exists (String c u). reflexivity.
  - intros [u ->]. apply endswith_append.
Qed.

Lemma length_append (a b : string) :
  String.length (a ++ b) = String.length a + String.length b.
Proof. induction a as [|c t IH]; simpl; [reflexivity|]. rewrite IH. reflexivity. Qed.

Lemma append_cancel_r (a b c : string) : a ++ c = b ++ c -> a = b.
Proof.
  revert b. induction a as [|x t IH]; intros b H.
  - destruct b as [|y r]; [reflexivity|]. exfalso.
    apply (f_equal String.length) in H. rewrite !length_append in H.
    simpl in H. lia.
  - destruct b as [|y r].
    + exfalso. apply (f_equal String.length) in H. rewrite !length_append in H.
      simpl in H. lia.
    + simpl in H. inversion H. f_equal. apply IH. assumption.
Qed.

(** Two endings of one text: one of them is an ending of the other. *)
Lemma endings_compare (u Y P L : string) :
  u ++ Y = P ++ L -> endswith L Y = true \/ endswith Y L = true.
Proof.
  revert P. induction u as [|c t IH]; intros P H.
  - right. apply endswith_spec. exists P. exact H.
  - destruct P as [|c' P'].
    + left. apply endswith_spec. exists (String c t). symmetry. exact H.
    + simpl in H. inversion H. eapply IH. eassumption.
Qed.

Lemma lower_append (a b : string) : lower (a ++ b) = lower a ++ lower b.
Proof. induction a as [|c t IH]; simpl; [reflexivity|]. rewrite IH. reflexivity. Qed.

Lemma lower_string_of_uint (d : Decimal.uint) :
  lower (NilEmpty.string_of_uint d) = NilEmpty.string_of_uint d.
Proof. induction d; simpl; [reflexivity|rewrite IHd; reflexivity..]. Qed.

Lemma lower_str_nat (n : nat) : lower (str_nat n) = str_nat n.
Proof. apply lower_string_of_uint. Qed.

Lemma str_nat_not_param (n : nat) : str_nat n <> "param".
Proof.
  unfold str_nat. intros H.
  apply (f_equal NilEmpty.uint_of_string) in H.
  rewrite NilEmpty.usu in H. discriminate H.
Qed.

Lemma lower_Param_thread_ID (p : string) (n : nat) :
  lower (Param_thread_ID p n) = ("param_" ++ lower p) ++ "_" ++ str_nat n.
Proof.
  unfold Param_thread_ID. rewrite !lower_append, lower_str_nat.
  rewrite append_assoc. reflexivity.
Qed.

Lemma lower_TMC_thread_ID (n : nat) :
  lower (TMC_thread_ID n) = "tmc" ++ "_" ++ str_nat n.
Proof.
  unfold TMC_thread_ID. rewrite lower_append, lower_str_nat. reflexivity.
Qed.

(** What the names of the table of standard deviations never do. *)
Lemma table_names_apart :
  forallb (fun p =>
             negb (endswith ("param_" ++ lower p) "tmc")
             && negb (endswith "tmc" ("param_" ++ lower p))
             && forallb (fun q =>
                           negb (endswith ("param_" ++ lower q)
                                          ("param_" ++ lower p))
                           || (p =? q))
                        st_dev_param_keys)
          st_dev_param_keys = true.
Proof. vm_compute. reflexivity. Qed.

(** No identifier of a run, in lower case, is an ending of the identifier
    of another run. *)
Lemma run_identifiers_apart (id1 id2 : string) :
  run_identifier id1 -> run_identifier id2 ->
  endswith (lower id2) (lower id1) = true -> id1 = id2.
Proof.
  pose proof table_names_apart as T. rewrite forallb_forall in T.
  intros H1 H2 E. apply endswith_spec in E. destruct E as [v E].
  destruct H1 as [|p1 n1 Hp1|n1]; destruct H2 as [|p2 n2 Hp2|n2].
  - reflexivity.
  - exfalso. rewrite lower_Param_thread_ID in E.
    change (lower unique_unpert_thread_ID) with ("unperturbed" ++ "_" ++ "param") in E.
    rewrite <- (append_assoc v) in E.
    apply cut_at_last_underscore in E; [|apply str_nat_digits|reflexivity].
    destruct E as [_ E]. exact (str_nat_not_param _ E).
  - exfalso. rewrite lower_TMC_thread_ID in E.
    change (lower unique_unpert_thread_ID) with ("unperturbed" ++ "_" ++ "param") in E.
    rewrite <- (append_assoc v) in E.
    apply cut_at_last_underscore in E; [|apply str_nat_digits|reflexivity].
    destruct E as [_ E]. exact (str_nat_not_param _ E).
  - exfalso. rewrite lower_Param_thread_ID in E.
    change (lower unique_unpert_thread_ID) with ("unperturbed" ++ "_" ++ "param") in E.
    rewrite <- (append_assoc v) in E.
    apply cut_at_last_underscore in E; [|reflexivity|apply str_nat_digits].
    destruct E as [_ E]. symmetry in E. exact (str_nat_not_param _ E).
  - rewrite !lower_Param_thread_ID in E. rewrite <- (append_assoc v) in E.
    apply cut_at_last_underscore in E; try apply str_nat_digits.
    destruct E as [E En]. apply str_nat_inj in En. subst n2.
    specialize (T p1 Hp1). apply andb_true_iff in T. destruct T as [_ T].
    rewrite forallb_forall in T. specialize (T p2 Hp2).
    assert (Es : endswith ("param_" ++ lower p2) ("param_" ++ lower p1) = true)
      by (apply endswith_spec; exists v; exact E).
    rewrite Es in T. cbn [negb orb] in T. apply String.eqb_eq in T.
    subst p2. reflexivity.
  - exfalso. rewrite lower_Param_thread_ID, lower_TMC_thread_ID in E.
    rewrite <- (append_assoc v) in E.
    apply cut_at_last_underscore in E; try apply str_nat_digits.
    destruct E as [E _].
    specialize (T p1 Hp1). apply andb_true_iff in T. destruct T as [T _].
    apply andb_true_iff in T. destruct T as [_ T].
    assert (Es : endswith "tmc" ("param_" ++ lower p1) = true)
      by (apply endswith_spec; exists v; exact E).
    rewrite Es in T. discriminate T.
  - exfalso. rewrite lower_TMC_thread_ID in E.
    change (lower unique_unpert_thread_ID) with ("unperturbed" ++ "_" ++ "param") in E.
    rewrite <- (append_assoc v) in E.
    apply cut_at_last_underscore in E; [|reflexivity|apply str_nat_digits].
    destruct E as [_ E]. symmetry in E. exact (str_nat_not_param _ E).
  - exfalso. rewrite lower_Param_thread_ID, lower_TMC_thread_ID in E.
    rewrite <- (append_assoc v) in E.
    apply cut_at_last_underscore in E; try apply str_nat_digits.
    destruct E as [E _].
    specialize (T p2 Hp2). apply andb_true_iff in T. destruct T as [T _].
    apply andb_true_iff in T. destruct T as [T _].
    assert (Es : endswith ("param_" ++ lower p2) "tmc" = true)
      by (apply endswith_spec; exists v; exact E).
    rewrite Es in T. discriminate T.
  - rewrite !lower_TMC_thread_ID in E. rewrite <- (append_assoc v) in E.
    apply cut_at_last_underscore in E; try apply str_nat_digits.
    destruct E as [_ En]. apply str_nat_inj in En. subst n2. reflexivity.
Qed.

(** X20.  Deleting the ".ff" files of one run keeps the files of every
    other run.  For two different identifiers of runs, an entry of the
    library that carries the name of an ".ff" file printed for the second
    is still there after [delete_TALYS_ff_files] for the first. *)
Theorem deleting_keeps_the_files_of_other_runs (id1 id2 : string)
    (library : folder) (f : dir_entry string) (Z_target A_compound : Z)
    (energy_val : string) :
  run_identifier id1 -> run_identifier id2 -> id1 <> id2 ->
  In f library ->
  ff_file_name Z_target A_compound energy_val id2 = Returns (name f) ->
  In f (fst (delete_TALYS_ff_files library id1)).
Proof.
  intros H1 H2 Hne Hf Hn.
  assert (K : endswith (name f) (lower id1 ++ ".ff") = false).
  { destruct (endswith (name f) (lower id1 ++ ".ff")) eqn:E; [|reflexivity].
    exfalso. apply Hne.
    apply endswith_spec in E. destruct E as [u E].
    unfold ff_file_name in Hn.
    destruct (elements (str_int Z_target)) as [element|e]; [|discriminate].
    cbn [bind] in Hn.
    assert (Hn' : element ++ str_int A_compound ++ "_" ++ energy_val
                  ++ ".00e+00MeV_gef_" ++ lower id2 ++ ".ff" = name f)
      by congruence.
    rewrite E in Hn'.
    rewrite <- !append_assoc in Hn'.
    apply append_cancel_r in Hn'. rewrite !append_assoc in Hn'.
    symmetry in Hn'.
    replace (element ++ str_int A_compound ++ "_" ++ energy_val
             ++ ".00e+00MeV_gef_" ++ lower id2)
      with ((element ++ str_int A_compound ++ "_" ++ energy_val
             ++ ".00e+00MeV_gef_") ++ lower id2) in Hn'
      by (rewrite !append_assoc; reflexivity).
    apply endings_compare in Hn'. destruct Hn' as [E'|E'].
    - apply run_identifiers_apart; assumption.
    - symmetry. apply run_identifiers_apart; assumption. }
  unfold delete_TALYS_ff_files.
  assert (Hin : In f (filter (fun file_name =>
                    negb (is_file file_name
                          && endswith (name file_name) (lower id1 ++ ".ff")))
                  library)).
  { apply filter_In. split; [exact Hf|]. rewrite K, andb_false_r. reflexivity. }
  destruct library; exact Hin.
Qed.

(** The files of the trials 1 and 11 of all-parameters mode. *)
Lemma deleting_keeps_the_files_of_other_runs_witness :
  TMC_thread_ID 1 <> TMC_thread_ID 11
  /\ In (mkEntry "U236_6.00e+00MeV_gef_tmc_11.ff" true "")
        (fst (delete_TALYS_ff_files
                [ mkEntry "U236_6.00e+00MeV_gef_tmc_1.ff" true "";
                  mkEntry "U236_6.00e+00MeV_gef_tmc_11.ff" true "" ]
                (TMC_thread_ID 1))).
Proof.
  assert (Hne : TMC_thread_ID 1 <> TMC_thread_ID 11) by discriminate.
  split; [exact Hne|].
  apply (deleting_keeps_the_files_of_other_runs (TMC_thread_ID 1)
           (TMC_thread_ID 11) _ _ 92%Z 236%Z "6" (run_TMC 1) (run_TMC 11) Hne).
  - right. left. reflexivity.
  - reflexivity.
Defined.

(* ------------------------------------------------------------------ *)
(** ** Paths below a folder *)

Lemma startswith_spec (s p : string) :
  startswith s p = true <-> exists r, s = p ++ r.
Proof.
  unfold startswith. revert s. induction p as [|c t IH]; intros s.
  - split; [intros _; exists s; reflexivity|intros _; destruct s; reflexivity].
  - destruct s as [|c' s']; cbn [String.prefix].
    + split; [discriminate|intros [r H]; discriminate].
    + destruct (ascii_dec c c') as [->|Hc].
      * rewrite IH. split; intros [r H]; exists r.
        -- rewrite H. reflexivity.
        -- simpl in H. inversion H. reflexivity.
      * split; [discriminate|].
        intros [r H]. simpl in H. inversion H. congruence.
Qed.

Lemma startswith_append (a x y : string) :
  startswith (a ++ x) (a ++ y) = startswith x y.
Proof.
  unfold startswith. induction a as [|c t IH]; [reflexivity|].
  cbn [append String.prefix]. destruct (ascii_dec c c); [exact IH|congruence].
Qed.

(** Every path made of a folder and a relative name starts with the
    folder, closed by a slash. *)
Lemma path_join_split (a b : string) :
  startswith b "/" = false -> path_join a b = path_join a "" ++ b.
Proof.
  intros Hb. rewrite (path_join_relative a b Hb), path_join_dir.
  destruct ((a =? "") || endswith a "/"); [reflexivity|].
  rewrite append_assoc. reflexivity.
Qed.

Lemma path_join_closed (a : string) :
  path_join (path_join a "") "" = path_join a "".
Proof.
  rewrite (path_join_dir (path_join a "")).
  destruct (String.eqb_spec a "") as [->|Ha]; [reflexivity|].
  rewrite (path_join_dir_slash a Ha), orb_true_r. reflexivity.
Qed.

Lemma path_join_folder (a b : string) :
  startswith b "/" = false -> b <> "" -> endswith b "/" = false ->
  path_join_all a [b; ""] = path_join a "" ++ b ++ "/".
Proof.
  intros Hb Hne Hs. cbn [path_join_all fold_left].
  rewrite (path_join_split a b Hb), path_join_dir.
  rewrite (endswith_slash_append _ b Hne), Hs, orb_false_r.
  destruct (String.eqb_spec (path_join a "" ++ b) "") as [E|_].
  - apply append_eq_nil in E. destruct E as [_ E]. contradiction.
  - apply append_assoc.
Qed.

Lemma path_join_file (a b name : string) :
  startswith b "/" = false -> b <> "" -> endswith b "/" = false ->
  startswith name "/" = false ->
  path_join (path_join_all a [b; ""]) name = path_join a "" ++ b ++ "/" ++ name.
Proof.
  intros Hb Hne Hs Hn. rewrite (path_join_folder a b Hb Hne Hs).
  rewrite path_join_under_dir; [|rewrite <- append_assoc; apply endswith_append|exact Hn].
  rewrite !append_assoc. reflexivity.
Qed.

Lemma path_join_all_file (a b name : string) :
  startswith b "/" = false -> b <> "" -> endswith b "/" = false ->
  startswith name "/" = false ->
  path_join_all a [b; name] = path_join a "" ++ b ++ "/" ++ name.
Proof.
  intros Hb Hne Hs Hn. cbn [path_join_all fold_left].
  rewrite (path_join_split a b Hb), (path_join_relative _ name Hn).
  rewrite (endswith_slash_append _ b Hne), Hs, orb_false_r.
  destruct (String.eqb_spec (path_join a "" ++ b) "") as [E|_].
  - apply append_eq_nil in E. destruct E as [_ E]. contradiction.
  - apply append_assoc.
Qed.

Lemma startswith_length (s p : string) :
  startswith s p = true -> String.length p <= String.length s.
Proof.
  intros H. apply startswith_spec in H. destruct H as [r ->].
  rewrite length_append. lia.
Qed.

(* ------------------------------------------------------------------ *)
(** ** The folders that are erased before a GEF run *)

Lemma eraseFolders_log (isdir : string -> bool) (GEF_cwd_path : string) :
  eraseFolders isdir GEF_cwd_path
  = (map (fun d => Rmtree (path_join GEF_cwd_path "" ++ d ++ "/"))
       (filter (fun d => isdir (path_join GEF_cwd_path d))
               ["ctl"; "dmp"; "out"; "tmp"]),
     Returns tt).
Proof.
  unfold eraseFolders.
  rewrite !path_join_folder by (reflexivity || discriminate).
  cbn [filter].
  destruct (isdir (path_join GEF_cwd_path "ctl"));
    destruct (isdir (path_join GEF_cwd_path "dmp"));
    destruct (isdir (path_join GEF_cwd_path "out"));
    destruct (isdir (path_join GEF_cwd_path "tmp")); reflexivity.
Qed.

Lemma path_join_longer (a : string) :
  String.length a <= String.length (path_join a "").
Proof.
  rewrite path_join_dir. destruct ((a =? "") || endswith a "/"); [lia|].
  rewrite length_append. lia.
Qed.

Lemma path_join_starts (a b : string) :
  startswith b "/" = false -> startswith (path_join a b) a = true.
Proof.
  intros Hb. rewrite (path_join_relative a b Hb). apply startswith_spec.
  destruct ((a =? "") || endswith a "/"); eexists; reflexivity.
Qed.

Lemma startswith_trans (a b c : string) :
  startswith a b = true -> startswith b c = true -> startswith a c = true.
Proof.
  intros H1 H2. apply startswith_spec in H1, H2.
  destruct H1 as [r1 ->]. destruct H2 as [r2 ->].
  apply startswith_spec. exists (r2 ++ r1). apply append_assoc.
Qed.

Section GEF_run.

Variable str_float : Q -> string.

Lemma workingdir_Raises (isdir_cwd exists_in_folder : bool)
    (scandir_in_folder : list (string * bool)) (unique_param_ID : string)
    (Z_target A_compound : Z) (E_reaction MC_runs : Q)
    (GEF_working_dir_path : string) (e : error) :
  elements (str_int Z_target) = Raises e ->
  snd (create_GEF_workingdir_and_inputfile str_float isdir_cwd exists_in_folder
         scandir_in_folder unique_param_ID Z_target A_compound E_reaction
         MC_runs GEF_working_dir_path) = Raises e.
Proof.
  intros He. unfold create_GEF_workingdir_and_inputfile.
  destruct isdir_cwd; cbn [negb lbind call ret app fst snd];
    unfold create_GEF_input_file_and_folder; rewrite He;
    cbn [lbind call ret app fst snd]; reflexivity.
Qed.

Lemma workingdir_calls (isdir_cwd exists_in_folder : bool)
    (scandir_in_folder : list (string * bool)) (unique_param_ID : string)
    (Z_target A_compound : Z) (E_reaction MC_runs : Q)
    (GEF_working_dir_path : string) (paths : GEF_data_paths_t) :
  snd (create_GEF_workingdir_and_inputfile str_float isdir_cwd exists_in_folder
         scandir_in_folder unique_param_ID Z_target A_compound E_reaction
         MC_runs GEF_working_dir_path) = Returns paths ->
  let cwd := path_join GEF_working_dir_path ("GEF_" ++ unique_param_ID) in
  exists element,
    elements (str_int Z_target) = Returns element
    /\ GEF_cwd_path paths = (if isdir_cwd then path_join cwd "" else cwd)
    /\ fst (create_GEF_workingdir_and_inputfile str_float isdir_cwd
              exists_in_folder scandir_in_folder unique_param_ID Z_target
              A_compound E_reaction MC_runs GEF_working_dir_path)
       = ((if isdir_cwd then [] else [Mkdir cwd])
          ++ fst (create_GEF_input_file_and_folder str_float exists_in_folder
                    scandir_in_folder cwd Z_target A_compound E_reaction
                    MC_runs))%list
    /\ (exists name, startswith name "/" = false
          /\ GEF_LMD_path paths = path_join_all (GEF_cwd_path paths) ["out"; name])
    /\ (exists name, startswith name "/" = false
          /\ GEF_DAT_path paths = path_join_all (GEF_cwd_path paths) ["out"; name])
    /\ (exists name, startswith name "/" = false
          /\ GEF_DMP_EN_path paths
             = path_join (path_join_all (GEF_cwd_path paths) ["dmp"; name])
                 "EN.dmp").
Proof.
  intros Hret cwd.
  destruct (elements (str_int Z_target)) as [element|e] eqn:He.
  2:{ rewrite (workingdir_Raises _ _ _ _ _ _ _ _ _ e He) in Hret. discriminate. }
  exists element. split; [reflexivity|].
  pose proof (run_folder_nonempty GEF_working_dir_path unique_param_ID) as Hne.
  fold cwd in Hne.
  pose proof (input_file_through_dir str_float exists_in_folder
                scandir_in_folder cwd Z_target A_compound E_reaction MC_runs
                Hne) as Hin.
  destruct (input_file_calls str_float exists_in_folder scandir_in_folder cwd
              element Z_target A_compound E_reaction MC_runs He) as [rest Hc].
  revert Hret. unfold create_GEF_workingdir_and_inputfile.
  cbn [path_join_all fold_left]. fold cwd.
  destruct isdir_cwd; cbn [negb lbind call ret app fst snd];
    rewrite ?Hin; rewrite Hc; cbn [lbind call ret app fst snd];
    rewrite ?app_nil_r; intros Hret; injection Hret as <-;
    cbn [GEF_cwd_path GEF_LMD_path GEF_DAT_path GEF_DMP_EN_path];
    (split; [reflexivity|]); (split; [reflexivity|]);
    (split; [|split]).
  all: destruct (endswith (str_float E_reaction) ".0").
  all: eexists; (split; [|reflexivity]); reflexivity.
Qed.

End GEF_run.

Lemma erased_folder (isdir : string -> bool) (GEF_cwd_path r : string) :
  In (Rmtree r) (fst (eraseFolders isdir GEF_cwd_path)) ->
  exists d, In d ["ctl"; "dmp"; "out"; "tmp"]
            /\ isdir (path_join GEF_cwd_path d) = true
            /\ r = path_join GEF_cwd_path "" ++ d ++ "/".
Proof.
  rewrite eraseFolders_log. cbn [fst]. intros H.
  apply in_map_iff in H. destruct H as [d [Hr Hd]].
  apply filter_In in Hd. destruct Hd as [Hd Hi].
  exists d. split; [exact Hd|]. split; [exact Hi|]. congruence.
Qed.

Lemma folder_is_erased (isdir : string -> bool) (GEF_cwd_path d : string) :
  In d ["ctl"; "dmp"; "out"; "tmp"] ->
  isdir (path_join GEF_cwd_path d) = true ->
  In (Rmtree (path_join GEF_cwd_path "" ++ d ++ "/"))
     (fst (eraseFolders isdir GEF_cwd_path)).
Proof.
  intros Hd Hi. rewrite eraseFolders_log. cbn [fst].
  apply in_map_iff. exists d. split; [reflexivity|].
  apply filter_In. split; assumption.
Qed.

Section Erased.

Variable str_float : Q -> string.

(** X21.  The folders erased before GEF starts hold its old results and
    nothing of its input.  With the paths returned by
    [create_GEF_workingdir_and_inputfile], [eraseFolders] returns; no
    folder it removes holds a folder made or a file written for the input
    of the run; the folder "out", when it is there, is removed, and the
    paths of the list-mode file and of the ".dat" file lie in it; so does
    the path of the ".dmp" file in the folder "dmp". *)
Theorem erased_folders_hold_no_input (isdir : string -> bool)
    (isdir_cwd exists_in_folder : bool)
    (scandir_in_folder : list (string * bool)) (unique_param_ID : string)
    (Z_target A_compound : Z) (E_reaction MC_runs : Q)
    (GEF_working_dir_path : string) (paths : GEF_data_paths_t) :
  snd (create_GEF_workingdir_and_inputfile str_float isdir_cwd exists_in_folder
         scandir_in_folder unique_param_ID Z_target A_compound E_reaction
         MC_runs GEF_working_dir_path) = Returns paths ->
  snd (eraseFolders isdir (GEF_cwd_path paths)) = Returns tt
  /\ (forall c r,
        In c (fst (create_GEF_workingdir_and_inputfile str_float isdir_cwd
                     exists_in_folder scandir_in_folder unique_param_ID
                     Z_target A_compound E_reaction MC_runs
                     GEF_working_dir_path)) ->
        In (Rmtree r) (fst (eraseFolders isdir (GEF_cwd_path paths))) ->
        match c with
        | Mkdir w | Write w _ => startswith w r = false
        | _ => True
        end)
  /\ (isdir (path_join (GEF_cwd_path paths) "out") = true ->
      exists r,
        In (Rmtree r) (fst (eraseFolders isdir (GEF_cwd_path paths)))
        /\ startswith (GEF_LMD_path paths) r = true
        /\ startswith (GEF_DAT_path paths) r = true)
  /\ (isdir (path_join (GEF_cwd_path paths) "dmp") = true ->
      exists r,
        In (Rmtree r) (fst (eraseFolders isdir (GEF_cwd_path paths)))
        /\ startswith (GEF_DMP_EN_path paths) r = true).
Proof.
  intros Hret.
  destruct (workingdir_calls str_float _ _ _ _ _ _ _ _ _ _ Hret)
    as [element [He [Hcwd [Hlog [[lmd [Hl1 Hl2]] [[dat [Hd1 Hd2]] [dmp [Hp1 Hp2]]]]]]]].
  set (cwd := path_join GEF_working_dir_path ("GEF_" ++ unique_param_ID)) in *.
  assert (HD : path_join (GEF_cwd_path paths) "" = path_join cwd "").
  { rewrite Hcwd. destruct isdir_cwd; [apply path_join_closed|reflexivity]. }
  split; [rewrite eraseFolders_log; reflexivity|].
  split; [|split].
  - intros c r Hc Hr.
    apply erased_folder in Hr. destruct Hr as [d [Hd [_ ->]]]. rewrite HD.
    rewrite Hlog in Hc.
    destruct (input_file_calls str_float exists_in_folder scandir_in_folder
                cwd element Z_target A_compound E_reaction MC_runs He)
      as [rest Hcalls].
    rewrite Hcalls in Hc. cbn [fst] in Hc.
    assert (Hname : startswith (element ++ str_int (A_compound - 1) ++ "EN.in")
                      "/" = false).
    { apply elements_Returns in He.
      destruct He as [[_ ->] | [_ ->]]; reflexivity. }
    rewrite (path_join_file cwd "in" _ eq_refl) in Hc
      by (discriminate || reflexivity || exact Hname).
    rewrite (path_join_folder cwd "in" eq_refl) in Hc
      by (discriminate || reflexivity).
    rewrite (path_join_split cwd "MyParameters.dat" eq_refl),
      (path_join_split cwd "file.in" eq_refl) in Hc.
    assert (Hin : forall x, startswith (path_join cwd "" ++ "in" ++ "/" ++ x)
                              (path_join cwd "" ++ d ++ "/") = false).
    { intros x. rewrite startswith_append.
      destruct Hd as [<- | [<- | [<- | [<- | []]]]]; reflexivity. }
    rewrite !in_app_iff in Hc.
    destruct Hc as [Hc | [Hc | [Hc | [Hc | Hc]]]].
    + destruct isdir_cwd; [destruct Hc|].
      destruct Hc as [<- | []].
      destruct (startswith cwd (path_join cwd "" ++ d ++ "/")) eqn:E;
        [|reflexivity].
      exfalso. apply startswith_length in E.
      rewrite !length_append in E.
      pose proof (path_join_longer cwd) as Hl.
      destruct Hd as [<- | [<- | [<- | [<- | []]]]]; simpl in E; lia.
    + destruct Hc as [<- | [<- | []]]; rewrite startswith_append;
        destruct Hd as [<- | [<- | [<- | [<- | []]]]]; reflexivity.
    + destruct exists_in_folder; [destruct Hc|].
      destruct Hc as [<- | []]. apply (Hin "").
    + apply in_map_iff in Hc. destruct Hc as [e [<- _]]. exact I.
    + destruct Hc as [<- | []]. apply Hin.
  - intros Hout. exists (path_join (GEF_cwd_path paths) "" ++ "out" ++ "/").
    split; [apply folder_is_erased; [right; right; left; reflexivity|exact Hout]|].
    rewrite Hl2, Hd2.
    rewrite !(path_join_all_file _ "out" _ eq_refl) by (discriminate || reflexivity || assumption).
    split; apply startswith_spec; eexists; rewrite !append_assoc; reflexivity.
  - intros Hdmp. exists (path_join (GEF_cwd_path paths) "" ++ "dmp" ++ "/").
    split; [apply folder_is_erased; [right; left; reflexivity|exact Hdmp]|].
    rewrite Hp2.
    apply (startswith_trans _ (path_join_all (GEF_cwd_path paths) ["dmp"; dmp]));
      [apply path_join_starts; reflexivity|].
    rewrite (path_join_all_file _ "dmp" _ eq_refl) by (discriminate || reflexivity || assumption).
    apply startswith_spec; eexists; rewrite !append_assoc; reflexivity.
Qed.

End Erased.

(** The run "TMC_5" of uranium 236 in a folder that GEF has used. *)
Lemma erased_folders_hold_no_input_witness :
  exists paths,
    snd (create_GEF_workingdir_and_inputfile (fun _ => "2.53") false false []
           "TMC_5" 92 236 (253 # 100) 1000000 "/out/GEF") = Returns paths
    /\ exists r,
         In (Rmtree r) (fst (eraseFolders (fun _ => true) (GEF_cwd_path paths)))
         /\ startswith (GEF_LMD_path paths) r = true
         /\ startswith (GEF_DAT_path paths) r = true.
Proof.
  assert (Hret :
    snd (create_GEF_workingdir_and_inputfile (fun _ => "2.53") false false []
           "TMC_5" 92 236 (253 # 100) 1000000 "/out/GEF")
    = Returns {| GEF_cwd_path := "/out/GEF/GEF_TMC_5";
                 GEF_LMD_path :=
                   "/out/GEF/GEF_TMC_5/out/Z92_A236_n_E2.53MeV.lmd";
                 GEF_DAT_path := "/out/GEF/GEF_TMC_5/out/GEF_92_236_n.dat";
                 GEF_DMP_EN_path :=
                   "/out/GEF/GEF_TMC_5/dmp/Z92_A236_n_E2.53MeV/EN.dmp" |})
    by (vm_compute; reflexivity).
  eexists. split; [exact Hret|].
  destruct (erased_folders_hold_no_input (fun _ => "2.53") (fun _ => true)
              false false [] "TMC_5" 92 236 (253 # 100) 1000000 "/out/GEF" _
              Hret) as [_ [_ [H _]]].
  exact (H eq_refl).
Defined.

(* ------------------------------------------------------------------ *)
(** ** The folders of different runs *)

Lemma occurs_append (c : ascii) (a b : string) :
  occurs c (a ++ b) = occurs c a || occurs c b.
Proof.
  induction a as [|x t IH]; [reflexivity|].
  cbn [append occurs]. rewrite IH. apply orb_assoc.
Qed.

Lemma string_of_uint_no_slash (d : Decimal.uint) :
  occurs "/" (NilEmpty.string_of_uint d) = false.
Proof. induction d; simpl; [reflexivity|assumption..]. Qed.

Lemma table_names_no_slash :
  forallb (fun p => negb (occurs "/" p)) st_dev_param_keys = true.
Proof. vm_compute. reflexivity. Qed.

Lemma run_identifier_no_slash (id : string) :
  run_identifier id -> occurs "/" id = false.
Proof.
  intros [|p n Hp|n].
  - reflexivity.
  - unfold Param_thread_ID. rewrite !occurs_append.
    pose proof table_names_no_slash as T. rewrite forallb_forall in T.
    specialize (T p Hp). apply negb_true_iff in T. rewrite T.
    unfold str_nat. rewrite string_of_uint_no_slash. reflexivity.
  - unfold TMC_thread_ID. rewrite occurs_append.
    unfold str_nat. rewrite string_of_uint_no_slash. reflexivity.
Qed.

Lemma run_identifier_nonempty (id : string) : run_identifier id -> id <> "".
Proof. intros [|p n Hp|n]; discriminate. Qed.

Lemma no_slash_at_the_end (s : string) :
  occurs "/" s = false -> endswith s "/" = false.
Proof.
  induction s as [|c t IH]; [reflexivity|].
  cbn [occurs endswith]. intros H. apply orb_false_elim in H.
  destruct H as [Hc Ht]. rewrite (IH Ht), orb_false_r.
  apply String.eqb_neq. intros E. inversion E. subst c. discriminate Hc.
Qed.

(** Two names without a slash that are followed by a slash at the start
    of one text are the same name. *)
Lemma cut_at_first_slash (a b x : string) :
  occurs "/" a = false -> occurs "/" b = false ->
  startswith (b ++ "/" ++ x) (a ++ "/") = true -> a = b.
Proof.
  revert b. induction a as [|c t IH]; intros b Ha Hb H.
  - destruct b as [|c' t']; [reflexivity|]. exfalso.
    cbn [occurs] in Hb. apply orb_false_elim in Hb. destruct Hb as [Hc _].
    unfold startswith in H. cbn [append String.prefix] in H.
    destruct (ascii_dec "/" c') as [<-|]; [discriminate Hc|discriminate H].
  - cbn [occurs] in Ha. apply orb_false_elim in Ha. destruct Ha as [Hc Ht].
    destruct b as [|c' t'].
    + exfalso. unfold startswith in H. cbn [append String.prefix] in H.
      destruct (ascii_dec c "/") as [->|]; [discriminate Hc|discriminate H].
    + cbn [occurs] in Hb. apply orb_false_elim in Hb. destruct Hb as [_ Ht'].
      unfold startswith in H. cbn [append String.prefix] in H.
      destruct (ascii_dec c c') as [->|]; [|discriminate H].
      f_equal. apply (IH t' Ht Ht' H).
Qed.

(** The folder of the GEF run of an identifier, closed by a slash. *)
Lemma GEF_run_folder (W id : string) :
  run_identifier id ->
  path_join (path_join W ("GEF_" ++ id)) ""
  = path_join W "" ++ "GEF_" ++ id ++ "/".
Proof.
  intros Hid. rewrite (path_join_split W ("GEF_" ++ id) eq_refl), path_join_dir.
  assert (Hs : endswith (path_join W "" ++ "GEF_" ++ id) "/" = false).
  { rewrite endswith_slash_append by discriminate.
    apply no_slash_at_the_end. rewrite occurs_append.
    rewrite (run_identifier_no_slash id Hid). reflexivity. }
  rewrite Hs, orb_false_r.
  destruct (String.eqb_spec (path_join W "" ++ "GEF_" ++ id) "") as [E|_].
  - apply append_eq_nil in E. destruct E as [_ E]. discriminate E.
  - rewrite !append_assoc. reflexivity.
Qed.

(** The folder of the TALYS run of an identifier. *)
Lemma TALYS_run_folder (T id : string) :
  run_identifier id -> TALYS_pert_cwd T id = T ++ id ++ "/".
Proof.
  intros Hid. unfold TALYS_pert_cwd. rewrite path_join_dir.
  assert (Hs : endswith (T ++ id) "/" = false).
  { rewrite (endswith_slash_append T id (run_identifier_nonempty id Hid)).
    apply no_slash_at_the_end, run_identifier_no_slash, Hid. }
  rewrite Hs, orb_false_r.
  destruct (String.eqb_spec (T ++ id) "") as [E|_].
  - apply append_eq_nil in E. destruct E as [_ E].
    exfalso. exact (run_identifier_nonempty id Hid E).
  - apply append_assoc.
Qed.

Lemma run_folders_apart (P a id1 id2 x : string) :
  run_identifier id1 -> run_identifier id2 -> id1 <> id2 ->
  startswith ((P ++ a ++ id2 ++ "/") ++ x) (P ++ a ++ id1 ++ "/") = false.
Proof.
  intros H1 H2 Hne.
  rewrite !append_assoc, !startswith_append.
  destruct (startswith (id2 ++ "/" ++ x) (id1 ++ "/")) eqn:E; [|reflexivity].
  exfalso. apply Hne.
  apply (cut_at_first_slash id1 id2 x); try apply run_identifier_no_slash;
    assumption.
Qed.

Section Runs.

Variable str_float : Q -> string.

(** X22.  The GEF folders of different runs.  For two different
    identifiers of runs in one working folder, nothing below the folder
    of the one run lies in the folder of the other: the folder that
    [delete_GEF_result_folder] removes for the first run holds neither
    the folder nor the list-mode, ".dat" or ".dmp" file of the second. *)
Theorem GEF_folders_of_runs_are_apart (isdir : string -> bool)
    (id1 id2 : string) (isdir_cwd1 isdir_cwd2 exists_in_folder1 exists_in_folder2 : bool)
    (scandir1 scandir2 : list (string * bool)) (Z_target A_compound : Z)
    (E_reaction MC_runs : Q) (GEF_working_dir_path : string)
    (paths1 paths2 : GEF_data_paths_t) :
  run_identifier id1 -> run_identifier id2 -> id1 <> id2 ->
  snd (create_GEF_workingdir_and_inputfile str_float isdir_cwd1 exists_in_folder1
         scandir1 id1 Z_target A_compound E_reaction MC_runs
         GEF_working_dir_path) = Returns paths1 ->
  snd (create_GEF_workingdir_and_inputfile str_float isdir_cwd2 exists_in_folder2
         scandir2 id2 Z_target A_compound E_reaction MC_runs
         GEF_working_dir_path) = Returns paths2 ->
  (forall x,
     startswith (path_join (GEF_cwd_path paths2) "" ++ x)
                (path_join (GEF_cwd_path paths1) "") = false)
  /\ (forall r,
        In (Rmtree r)
           (fst (delete_GEF_result_folder isdir (GEF_cwd_path paths1))) ->
        startswith (path_join (GEF_cwd_path paths2) "") (path_join r "") = false
        /\ startswith (GEF_LMD_path paths2) (path_join r "") = false
        /\ startswith (GEF_DAT_path paths2) (path_join r "") = false
        /\ startswith (GEF_DMP_EN_path paths2) (path_join r "") = false).
Proof.
  intros H1 H2 Hne Hr1 Hr2.
  destruct (workingdir_calls str_float _ _ _ _ _ _ _ _ _ _ Hr1)
    as [_ [_ [Hc1 _]]].
  destruct (workingdir_calls str_float _ _ _ _ _ _ _ _ _ _ Hr2)
    as [_ [_ [Hc2 [_ [[lmd [Hl1 Hl2]] [[dat [Hd1 Hd2]] [dmp [Hp1 Hp2]]]]]]]].
  assert (D1 : path_join (GEF_cwd_path paths1) ""
               = path_join GEF_working_dir_path "" ++ "GEF_" ++ id1 ++ "/").
  { rewrite Hc1, <- (GEF_run_folder _ _ H1).
    destruct isdir_cwd1; [apply path_join_closed|reflexivity]. }
  assert (D2 : path_join (GEF_cwd_path paths2) ""
               = path_join GEF_working_dir_path "" ++ "GEF_" ++ id2 ++ "/").
  { rewrite Hc2, <- (GEF_run_folder _ _ H2).
    destruct isdir_cwd2; [apply path_join_closed|reflexivity]. }
  assert (A : forall x,
             startswith (path_join (GEF_cwd_path paths2) "" ++ x)
                        (path_join (GEF_cwd_path paths1) "") = false).
  { intros x. rewrite D1, D2. apply run_folders_apart; assumption. }
  split; [exact A|].
  intros r Hr. unfold delete_GEF_result_folder in Hr.
  destruct (isdir (GEF_cwd_path paths1)); [|destruct Hr].
  destruct Hr as [Hr | []]. injection Hr as <-.
  split; [rewrite <- (append_nil_r (path_join (GEF_cwd_path paths2) ""));
          apply A|].
  rewrite Hl2, Hd2, Hp2.
  rewrite !(path_join_all_file _ "out" _ eq_refl)
    by (discriminate || reflexivity || assumption).
  split; [apply A|]. split; [apply A|].
  rewrite (path_join_relative _ "EN.dmp" eq_refl).
  rewrite (path_join_all_file _ "dmp" _ eq_refl)
    by (discriminate || reflexivity || assumption).
  destruct (_ || _); rewrite !append_assoc; apply A.
Qed.

(** X23.  The TALYS folders of different runs.  For two different
    identifiers of runs, the folder made and the input file written by
    [create_TALYS_input_file] for the one run do not lie in the folder
    that [delete_TALYS_result_files] removes for the other. *)
Theorem TALYS_folders_of_runs_are_apart (isdir : string -> bool)
    (id1 id2 : string) (exists_folder : bool) (TALYS_input_path : string)
    (Z_target A_compound : Z) (E_reaction : Q) (c : fs_call) (r : string) :
  run_identifier id1 -> run_identifier id2 -> id1 <> id2 ->
  In c (fst (create_TALYS_input_file str_float exists_folder TALYS_input_path
               id2 (TALYS_pert_input_file id2) Z_target A_compound
               E_reaction)) ->
  In (Rmtree r)
     (fst (delete_TALYS_result_files isdir
             (TALYS_pert_cwd TALYS_input_path id1))) ->
  match c with
  | Mkdir w | Write w _ => startswith w r = false
  | _ => True
  end.
Proof.
  intros H1 H2 Hne Hc Hr.
  unfold delete_TALYS_result_files in Hr.
  destruct (isdir (TALYS_pert_cwd TALYS_input_path id1)); [|destruct Hr].
  destruct Hr as [Hr | []]. injection Hr as <-.
  rewrite (TALYS_run_folder _ _ H1).
  assert (A : forall x,
             startswith ((TALYS_input_path ++ id2 ++ "/") ++ x)
                        (TALYS_input_path ++ id1 ++ "/") = false).
  { intros x.
    pose proof (run_folders_apart TALYS_input_path "" id1 id2 x H1 H2 Hne) as H.
    exact H. }
  unfold create_TALYS_input_file, write_TALYS_input_file in Hc.
  fold (TALYS_pert_cwd TALYS_input_path id2) in Hc.
  rewrite (TALYS_run_folder _ _ H2) in Hc.
  assert (Hfile : path_join (TALYS_input_path ++ id2 ++ "/")
                    (TALYS_pert_input_file id2)
                  = (TALYS_input_path ++ id2 ++ "/") ++ TALYS_pert_input_file id2).
  { apply path_join_under_dir.
    - rewrite <- append_assoc. apply endswith_append.
    - unfold TALYS_pert_input_file.
      destruct id2 as [|ch t]; [reflexivity|].
      pose proof (run_identifier_no_slash _ H2) as Hs. cbn [occurs] in Hs.
      apply orb_false_elim in Hs. destruct Hs as [Hs _].
      unfold startswith. cbn [append String.prefix].
      destruct (ascii_dec "/" ch) as [<-|]; [discriminate Hs|reflexivity]. }
  rewrite Hfile in Hc.
  destruct (elements (str_int Z_target)) as [element|e];
    destruct exists_folder; cbn [negb lbind call ret app fst snd In] in Hc.
  - destruct Hc as [<- | []]. apply A.
  - destruct Hc as [<- | [<- | []]].
    + rewrite <- (append_nil_r (TALYS_input_path ++ id2 ++ "/")). apply A.
    + apply A.
  - destruct Hc.
  - destruct Hc as [<- | []].
    rewrite <- (append_nil_r (TALYS_input_path ++ id2 ++ "/")). apply A.
Qed.

End Runs.

(** The runs 1 and 11 of all-parameters mode for uranium 236. *)
Lemma GEF_folders_of_runs_are_apart_witness :
  TMC_thread_ID 1 <> TMC_thread_ID 11
  /\ exists paths1 paths2,
       snd (create_GEF_workingdir_and_inputfile (fun _ => "2.53") false false
              [] (TMC_thread_ID 1) 92 236 (253 # 100) 1000000 "/out/GEF")
       = Returns paths1
       /\ snd (create_GEF_workingdir_and_inputfile (fun _ => "2.53") false
                 false [] (TMC_thread_ID 11) 92 236 (253 # 100) 1000000
                 "/out/GEF")
          = Returns paths2
       /\ GEF_cwd_path paths1 = "/out/GEF/GEF_TMC_1"
       /\ GEF_cwd_path paths2 = "/out/GEF/GEF_TMC_11"
       /\ forall x,
            startswith (path_join (GEF_cwd_path paths2) "" ++ x)
                       (path_join (GEF_cwd_path paths1) "") = false.
Proof.
  assert (Hne : TMC_thread_ID 1 <> TMC_thread_ID 11) by discriminate.
  split; [exact Hne|].
  assert (H1 :
    snd (create_GEF_workingdir_and_inputfile (fun _ => "2.53") false false []
           (TMC_thread_ID 1) 92 236 (253 # 100) 1000000 "/out/GEF")
    = Returns {| GEF_cwd_path := "/out/GEF/GEF_TMC_1";
                 GEF_LMD_path :=
                   "/out/GEF/GEF_TMC_1/out/Z92_A236_n_E2.53MeV.lmd";
                 GEF_DAT_path := "/out/GEF/GEF_TMC_1/out/GEF_92_236_n.dat";
                 GEF_DMP_EN_path :=
                   "/out/GEF/GEF_TMC_1/dmp/Z92_A236_n_E2.53MeV/EN.dmp" |})
    by (vm_compute; reflexivity).
  assert (H2 :
    snd (create_GEF_workingdir_and_inputfile (fun _ => "2.53") false false []
           (TMC_thread_ID 11) 92 236 (253 # 100) 1000000 "/out/GEF")
    = Returns {| GEF_cwd_path := "/out/GEF/GEF_TMC_11";
                 GEF_LMD_path :=
                   "/out/GEF/GEF_TMC_11/out/Z92_A236_n_E2.53MeV.lmd";
                 GEF_DAT_path := "/out/GEF/GEF_TMC_11/out/GEF_92_236_n.dat";
                 GEF_DMP_EN_path :=
                   "/out/GEF/GEF_TMC_11/dmp/Z92_A236_n_E2.53MeV/EN.dmp" |})
    by (vm_compute; reflexivity).
  eexists. eexists. split; [exact H1|]. split; [exact H2|].
  split; [reflexivity|]. split; [reflexivity|].
  exact (proj1 (GEF_folders_of_runs_are_apart (fun _ => "2.53") (fun _ => true)
                  _ _ _ _ _ _ _ _ _ _ _ _ _ _ _
                  (run_TMC 1) (run_TMC 11) Hne H1 H2)).
Defined.

(** The runs 1 and 11 of all-parameters mode: the input file of run 11 is
    not in the folder of run 1. *)
Lemma TALYS_folders_of_runs_are_apart_witness :
  TMC_thread_ID 1 <> TMC_thread_ID 11
  /\ In (Write "/out/TALYS/TALYS_folder_TMC_11/TMC_11_input.in"
           ("projectile n" ++ newline ++ "element U" ++ newline
            ++ "mass 235" ++ newline ++ "energy 2.53" ++ newline
            ++ "fission y" ++ newline ++ "ejectiles g n" ++ newline
            ++ "massdis y" ++ newline ++ "fymodel 4" ++ newline
            ++ "ffmodel 1" ++ newline ++ "elow 0.000001" ++ newline
            ++ "Rfiseps 0.000000001" ++ newline ++ "outspectra y" ++ newline
            ++ "bins 100" ++ newline ++ "channels n" ++ newline
            ++ "maxchannel 8" ++ newline ++ "Rspincutff 4" ++ newline
            ++ "Rspincut 0.4" ++ newline ++ "geffissionfileid TMC_11"))
        (fst (create_TALYS_input_file (fun _ => "2.53") false
                "/out/TALYS/TALYS_folder_" (TMC_thread_ID 11)
                (TALYS_pert_input_file (TMC_thread_ID 11)) 92 236 (253 # 100)))
  /\ In (Rmtree "/out/TALYS/TALYS_folder_TMC_1/")
        (fst (delete_TALYS_result_files (fun _ => true)
                (TALYS_pert_cwd "/out/TALYS/TALYS_folder_" (TMC_thread_ID 1))))
  /\ startswith "/out/TALYS/TALYS_folder_TMC_11/TMC_11_input.in"
                "/out/TALYS/TALYS_folder_TMC_1/" = false.
Proof.
  assert (Hne : TMC_thread_ID 1 <> TMC_thread_ID 11) by discriminate.
  split; [exact Hne|].
  assert (Hc : In (Write "/out/TALYS/TALYS_folder_TMC_11/TMC_11_input.in"
           ("projectile n" ++ newline ++ "element U" ++ newline
            ++ "mass 235" ++ newline ++ "energy 2.53" ++ newline
            ++ "fission y" ++ newline ++ "ejectiles g n" ++ newline
            ++ "massdis y" ++ newline ++ "fymodel 4" ++ newline
            ++ "ffmodel 1" ++ newline ++ "elow 0.000001" ++ newline
            ++ "Rfiseps 0.000000001" ++ newline ++ "outspectra y" ++ newline
            ++ "bins 100" ++ newline ++ "channels n" ++ newline
            ++ "maxchannel 8" ++ newline ++ "Rspincutff 4" ++ newline
            ++ "Rspincut 0.4" ++ newline ++ "geffissionfileid TMC_11"))
        (fst (create_TALYS_input_file (fun _ => "2.53") false
                "/out/TALYS/TALYS_folder_" (TMC_thread_ID 11)
                (TALYS_pert_input_file (TMC_thread_ID 11)) 92 236 (253 # 100))))
    by (right; left; reflexivity).
  assert (Hr : In (Rmtree "/out/TALYS/TALYS_folder_TMC_1/")
        (fst (delete_TALYS_result_files (fun _ => true)
                (TALYS_pert_cwd "/out/TALYS/TALYS_folder_" (TMC_thread_ID 1)))))
    by (left; reflexivity).
  split; [exact Hc|]. split; [exact Hr|].
  exact (TALYS_folders_of_runs_are_apart (fun _ => "2.53") (fun _ => true)
           _ _ _ _ _ _ _ _ _ (run_TMC 1) (run_TMC 11) Hne Hc Hr).
Defined.

Lemma endswith_skip (a b t : string) :
  endswith b t = true -> endswith (a ++ b) t = true.
Proof.
  intros H. apply endswith_spec in H. destruct H as [u ->].
  rewrite <- append_assoc. apply endswith_append.
Qed.

Section TALYS_run.

Variable str_float : Q -> string.

(** X24.  The input of a TALYS run.  For the identifier of a run,
    [create_TALYS_input_file] makes the folder of the run when it is
    missing.  For uranium and plutonium it then writes one file, the
    input file, directly in that folder; the file opens with the
    projectile, the element and the mass number of the target, which is
    one less than the compound mass, and its last line hands the
    identifier of the run to TALYS.  For every other target it raises
    KeyError and writes no file. *)
Theorem TALYS_input_of_a_run (exists_folder : bool)
    (TALYS_input_path unique_thread : string) (Z_target A_compound : Z)
    (E_reaction : Q) :
  run_identifier unique_thread ->
  (Z_target <> 92%Z -> Z_target <> 94%Z ->
   create_TALYS_input_file str_float exists_folder TALYS_input_path
     unique_thread (TALYS_pert_input_file unique_thread) Z_target A_compound
     E_reaction
   = ((if exists_folder then []
       else [Mkdir (TALYS_pert_cwd TALYS_input_path unique_thread)]),
      Raises KeyError))
  /\ (Z_target = 92%Z \/ Z_target = 94%Z ->
      exists element text,
        elements (str_int Z_target) = Returns element
        /\ create_TALYS_input_file str_float exists_folder TALYS_input_path
             unique_thread (TALYS_pert_input_file unique_thread) Z_target
             A_compound E_reaction
           = (((if exists_folder then []
                else [Mkdir (TALYS_pert_cwd TALYS_input_path unique_thread)])
               ++ [Write (TALYS_pert_cwd TALYS_input_path unique_thread
                          ++ unique_thread ++ "_input.in") text])%list,
              Returns tt)
        /\ startswith text
             ("projectile n" ++ newline ++ "element " ++ element ++ newline
              ++ "mass " ++ str_int (A_compound - 1) ++ newline) = true
        /\ endswith text ("geffissionfileid " ++ unique_thread) = true).
Proof.
  intros Hid.
  assert (Hfile : path_join (TALYS_pert_cwd TALYS_input_path unique_thread)
                    (TALYS_pert_input_file unique_thread)
                  = TALYS_pert_cwd TALYS_input_path unique_thread
                    ++ unique_thread ++ "_input.in").
  { apply path_join_under_dir.
    - rewrite (TALYS_run_folder _ _ Hid), <- append_assoc.
      apply endswith_append.
    - unfold TALYS_pert_input_file.
      destruct unique_thread as [|ch t]; [reflexivity|].
      pose proof (run_identifier_no_slash _ Hid) as Hs. cbn [occurs] in Hs.
      apply orb_false_elim in Hs. destruct Hs as [Hs _].
      unfold startswith. cbn [append String.prefix].
      destruct (ascii_dec "/" ch) as [<-|]; [discriminate Hs|reflexivity]. }
  unfold create_TALYS_input_file, write_TALYS_input_file.
  fold (TALYS_pert_cwd TALYS_input_path unique_thread). rewrite Hfile.
  split.
  - intros H92 H94. unfold elements.
    destruct (str_int Z_target =? "92") eqn:E1.
    { apply String.eqb_eq, str_int_92 in E1. contradiction. }
    destruct (str_int Z_target =? "94") eqn:E2.
    { apply String.eqb_eq, str_int_94 in E2. contradiction. }
    destruct exists_folder; reflexivity.
  - intros HZ.
    assert (He : exists element, elements (str_int Z_target) = Returns element)
      by (destruct HZ as [-> | ->]; eexists; reflexivity).
    destruct He as [element He]. rewrite He.
    exists element. eexists. split; [reflexivity|].
    split; [destruct exists_folder; reflexivity|].
    split.
    + apply startswith_spec. eexists. rewrite !append_assoc. reflexivity.
    + cbv zeta.
      repeat first [apply endswith_refl | apply endswith_skip].
Qed.

End TALYS_run.

(** The input of the run "TMC_5" of uranium 236; and of thorium. *)
Lemma TALYS_input_of_a_run_witness :
  (exists text,
     create_TALYS_input_file (fun _ => "2.53") false "/out/TALYS/TALYS_folder_"
       (TMC_thread_ID 5) (TALYS_pert_input_file (TMC_thread_ID 5)) 92 236
       (253 # 100)
     = ([ Mkdir (TALYS_pert_cwd "/out/TALYS/TALYS_folder_" (TMC_thread_ID 5));
          Write (TALYS_pert_cwd "/out/TALYS/TALYS_folder_" (TMC_thread_ID 5)
                 ++ TMC_thread_ID 5 ++ "_input.in") text ],
        Returns tt)
     /\ endswith text ("geffissionfileid " ++ TMC_thread_ID 5) = true)
  /\ create_TALYS_input_file (fun _ => "2.53") false "/out/TALYS/TALYS_folder_"
       (TMC_thread_ID 5) (TALYS_pert_input_file (TMC_thread_ID 5)) 90 233
       (253 # 100)
     = ([ Mkdir (TALYS_pert_cwd "/out/TALYS/TALYS_folder_" (TMC_thread_ID 5)) ],
        Raises KeyError).
Proof.
  destruct (TALYS_input_of_a_run (fun _ => "2.53") false
              "/out/TALYS/TALYS_folder_" (TMC_thread_ID 5) 92 236 (253 # 100)
              (run_TMC 5)) as [_ H].
  destruct (H (or_introl eq_refl)) as [element [text [_ [Hc [_ He]]]]].
  destruct (TALYS_input_of_a_run (fun _ => "2.53") false
              "/out/TALYS/TALYS_folder_" (TMC_thread_ID 5) 90 233 (253 # 100)
              (run_TMC 5)) as [H' _].
  assert (H90 : (90 <> 92)%Z) by discriminate.
  assert (H90' : (90 <> 94)%Z) by discriminate.
  split.
  - exists text. split; [exact Hc|exact He].
  - exact (H' H90 H90').
Defined.
